(** * SecureWipe biometric back end: the face verification engine

    A shallow embedding of [src/backend/biometric/app.py], class
    [FaceVerificationSystem]: the texture descriptor
    ([extract_lbp_features]), the feature extractor
    ([extract_face_encoding]), the similarity engine ([compare_faces]),
    the enrollment and verification workflows ([register_user],
    [verify_user]) and the audit log ([log_verification], [save_logs]);
    further the face locator ([detect_faces_dnn], [detect_faces_haar],
    [detect_faces]), the statistics ([get_verification_stats]), the
    persistence of the identities ([save_data], [load_data]) and the HTTP
    handlers that read or change the state of [face_system].

    Conventions of the embedding.
    - NumPy [float64] values are read as real numbers ([R]); [float('inf')]
      is the extra value [Inf] of [Dist].
    - Python and NumPy integers are [Z]; sizes and loop counters that the
      code only ever counts upwards from zero are [nat].
    - OpenCV, [face_recognition], the camera and the clock are collaborators
      of the class: they appear as the fields of [Vision] and as the
      observations handed to the workflows.
    - The dictionary [known_faces] is a [gmap string Identity]; the list
      [verification_logs] is a [list LogEntry]. *)

From Stdlib Require Import Reals Lra Lia ZArith List Bool.
From stdpp Require Import gmap strings list.

(** ** Numeric vectors and distances *)

(** The four method tags that [extract_face_encoding] returns. *)
Inductive Method : Type :=
| deep_learning
| feature_based
| invalid
| error.

Definition Method_eqb (a b : Method) : bool :=
  match a, b with
  | deep_learning, deep_learning => true
  | feature_based, feature_based => true
  | invalid, invalid => true
  | error, error => true
  | _, _ => false
  end.

(** A one-dimensional [float64] array. *)
Definition Encoding : Type := list R.

(** A distance: a real number or [float('inf')]. *)
Inductive Dist : Type :=
| Fin (r : R)
| Inf.

(** [d < t] for a distance [d] and a finite bound [t]. *)
Definition dist_lt (d : Dist) (t : R) : Prop :=
  match d with
  | Fin r => (r < t)%R
  | Inf => False
  end.

Definition dist_lt_dec (d : Dist) (t : R) : {dist_lt d t} + {~ dist_lt d t}.
Proof.
  destruct d as [r|]; simpl.
  - apply Rlt_dec.
  - right; tauto.
Defined.

(** [a < b] between two distances, as Python orders floats. *)
Definition dist_ltd (a b : Dist) : Prop :=
  match a, b with
  | Fin x, Fin y => (x < y)%R
  | Fin _, Inf => True
  | Inf, _ => False
  end.

Definition dist_ltd_dec (a b : Dist) : {dist_ltd a b} + {~ dist_ltd a b}.
Proof.
  destruct a as [x|], b as [y|]; simpl.
  - apply Rlt_dec.
  - left; exact I.
  - right; tauto.
  - right; tauto.
Defined.

(** Python's [min(a, b)]: [b] when [b < a], else [a]. *)
Definition py_min (a b : Dist) : Dist :=
  if dist_ltd_dec b a then b else a.

Definition Rsum (l : list R) : R := fold_right Rplus 0%R l.

(** NumPy broadcasting of a binary operation over two 1-D arrays: the
    lengths must agree unless one of them is 1; [None] is the
    [ValueError] raised otherwise. *)
Definition np_broadcast (f : R -> R -> R) (a b : list R) : option (list R) :=
  if Nat.eqb (length a) (length b) then Some (zip_with f a b)
  else if Nat.eqb (length a) 1 then Some (map (f (hd 0%R a)) b)
  else if Nat.eqb (length b) 1 then Some (map (fun x => f x (hd 0%R b)) a)
  else None.

(** [weights = np.ones_like(encoding1)], then [weights[96:] = 2.0] when
    [len(weights) > 96]. *)
Definition ones_like (a : list R) : list R := map (fun _ => 1%R) a.

Definition fb_weights (a : list R) : list R :=
  let weights := ones_like a in
  if Nat.ltb 96 (length weights)
  then firstn 96 weights ++ map (fun _ => 2%R) (skipn 96 weights)
  else weights.

(** [np.linalg.norm(v)] of a 1-D array and [np.sqrt(np.sum(v ** 2))]. *)
Definition np_norm (v : list R) : R := sqrt (Rsum (map (fun x => (x * x)%R) v)).

(** [compare_faces(encoding1, encoding2, method)]. A [None] argument
    gives [inf]; an exception inside the [try] gives [inf]. *)
Definition compare_faces (encoding1 encoding2 : option Encoding) (method : Method) : Dist :=
  match encoding1, encoding2 with
  | Some e1, Some e2 =>
      match method with
      | deep_learning =>
          match np_broadcast Rminus e1 e2 with
          | Some d => Fin (np_norm d)
          | None => Inf
          end
      | _ =>
          let weights := fb_weights e1 in
          match np_broadcast Rminus e1 e2 with
          | Some d =>
              match np_broadcast Rmult weights d with
              | Some weighted_diff => Fin (np_norm weighted_diff)
              | None => Inf
              end
          | None => Inf
          end
      end
  | _, _ => Inf
  end.

(** ** Texture descriptor: [extract_lbp_features] *)

(** A NumPy array handed to the texture descriptor: its [shape] and, when
    it is two-dimensional, the [uint8] value at row [y], column [x]. *)
Record Gray : Type := mkGray {
  gshape : list Z;
  gpix : Z -> Z -> Z
}.

(** Python's [int(x)] of a float: truncation toward zero. *)
Definition py_int (x : R) : Z :=
  if Rle_dec 0 x then Int_part x else (- Int_part (- x))%Z.

(** [range(a, b)]. *)
Definition py_range (a b : Z) : list Z :=
  map (fun k => (a + Z.of_nat k)%Z) (seq 0 (Z.to_nat (b - a))).

(** [angle = 2 * np.pi * p / points]. *)
Definition lbp_angle (points p : nat) : R := (2 * PI * INR p / INR points)%R.

(** [x = int(j + radius * np.cos(angle))], the [float64] product and sum
    read as real numbers. The two readings can truncate to different columns
    only for a circle point within rounding distance of an integer
    coordinate, as when the reals put it on the integer and the rounding
    error of [np.cos] takes it below ([np.cos(3 * np.pi / 2)] is
    [-1.8e-16]); at radius 2 and 16 points that is sample point 12, whose
    bit is not stored. *)
Definition sample_x (radius points : nat) (j : Z) (p : nat) : Z :=
  py_int (IZR j + INR radius * cos (lbp_angle points p)).

(** [y = int(i - radius * np.sin(angle))], read in the same way; here the
    readings differ at sample point 8 of 16 ([np.sin(np.pi)] is
    [1.2e-16]), whose bit is not stored either. *)
Definition sample_y (radius points : nat) (i : Z) (p : nat) : Z :=
  py_int (IZR i - INR radius * sin (lbp_angle points p)).

(** The guard [x >= 0 and x < width and y >= 0 and y < height]. *)
Definition in_image (height width x y : Z) : bool :=
  (0 <=? x)%Z && (x <? width)%Z && (0 <=? y)%Z && (y <? height)%Z.

(** The inner loop [for p in range(points)], started with the current
    values of [binary_code] and [power]. NumPy keeps [binary_code] in a
    fixed-width integer; only its low 8 bits reach [lbp_image], and they are
    the low 8 bits of the integer computed here. *)
Fixpoint lbp_bits (image : Gray) (height width : Z) (radius points : nat)
    (i j center : Z) (ps : list nat) (binary_code power : Z) : Z :=
  match ps with
  | [] => binary_code
  | p :: ps' =>
      let x := sample_x radius points j p in
      let y := sample_y radius points i p in
      let binary_code' :=
        if in_image height width x y
        then Z.lor binary_code (Z.shiftl (Z.b2z (center <=? gpix image y x)%Z) power)
        else binary_code in
      lbp_bits image height width radius points i j center ps' binary_code' (power + 1)%Z
  end.

(** The code of the pixel at row [i], column [j]. *)
Definition lbp_code (image : Gray) (height width : Z) (radius points : nat) (i j : Z) : Z :=
  lbp_bits image height width radius points i j (gpix image i j) (seq 0 points) 0 0.

(** [lbp_image.ravel()]: the codes of the interior pixels, row by row, each
    stored into a [uint8] cell. *)
Definition lbp_image (image : Gray) (height width : Z) (radius points : nat) : list Z :=
  flat_map
    (fun i => map (fun j => (lbp_code image height width radius points i j mod 256)%Z)
                  (py_range (Z.of_nat radius) (width - Z.of_nat radius)))
    (py_range (Z.of_nat radius) (height - Z.of_nat radius)).

(** The bin of [np.histogram(_, bins, range=(0, hi))] that receives the
    integer [x]; values outside the range are dropped and the last bin is
    closed on the right. *)
Definition bin_index (bins : nat) (hi x : Z) : option nat :=
  if (0 <=? x)%Z && (x <=? hi)%Z
  then Some (if (x =? hi)%Z then bins - 1 else Z.to_nat (x * Z.of_nat bins / hi))
  else None.

Definition in_bin (bins : nat) (hi : Z) (b : nat) (x : Z) : bool :=
  match bin_index bins hi x with
  | Some b' => Nat.eqb b' b
  | None => false
  end.

Definition bin_hits (bins : nat) (hi : Z) (b : nat) (vals : list Z) : nat :=
  length (List.filter (in_bin bins hi b) vals).

(** [np.histogram(vals, bins=bins, range=(0, hi))[0].astype("float")]. *)
Definition np_histogram (bins : nat) (hi : Z) (vals : list Z) : list R :=
  map (fun b => INR (bin_hits bins hi b vals)) (seq 0 bins).

(** [if hist.sum() > 0: hist /= hist.sum()]. *)
Definition normalize_hist (hist : list R) : list R :=
  let s := Rsum hist in
  if Rlt_dec 0 s then map (fun c => (c / s)%R) hist else hist.

(** [np.zeros(n)]. *)
Definition np_zeros (n : nat) : list R := repeat 0%R n.

(** The body of the [try] of [extract_lbp_features]; [None] when it raises:
    [height, width = image.shape] needs a two-dimensional array, and
    [np.zeros] refuses a negative dimension. *)
Definition lbp_try (image : Gray) (radius points : nat) : option (list R) :=
  match gshape image with
  | [height; width] =>
      if (height - 2 * Z.of_nat radius <? 0)%Z || (width - 2 * Z.of_nat radius <? 0)%Z
      then None
      else Some (normalize_hist (np_histogram 256 256 (lbp_image image height width radius points)))
  | _ => None
  end.

(** [extract_lbp_features(image, radius, points)]; the bare [except]
    returns [np.zeros(256)]. *)
Definition extract_lbp_features (image : Gray) (radius points : nat) : list R :=
  match lbp_try image radius points with
  | Some hist => hist
  | None => np_zeros 256
  end.

(** ** Feature extractor: [extract_face_encoding] *)

(** A colour image (an [H x W x 3] [uint8] array). *)
Record Image : Type := mkImage {
  rows : Z;
  cols : Z;
  pixel : Z -> Z -> Z -> Z
}.

(** [image.size]. *)
Definition size (im : Image) : Z := (rows im * cols im * 3)%Z.

(** What the [face_recognition] block of the first [try] does. *)
Inductive EmbedOutcome : Type :=
| ImportError
| EmbedRaised
| Encodings (encodings : list Encoding).

(** What building one colour histogram does: [cv2.calcHist] or
    [cv2.normalize] raises, [calcHist] returns [None], or the normalised,
    flattened histogram is produced. *)
Inductive HistOutcome : Type :=
| HistRaised
| HistNone
| Hist (hist : list R).

(** The collaborators: [face_recognition], OpenCV and the face locator.
    [None] stands for a raised exception. *)
Record Vision : Type := mkVision {
  face_encodings : Image -> EmbedOutcome;
  cv_resize : Image -> option Image;
  color_hist : Image -> nat -> HistOutcome;
  to_gray : Image -> option Gray;
  canny : Gray -> option (list Z);
  detect_faces : Image -> list (Z * Z * Z * Z)
}.

(** The loop [for channel in range(3)] over the remaining channels;
    [None] when a histogram raises. *)
Fixpoint color_features (cv : Vision) (face_resized : Image) (channels : list nat)
    (features : list R) : option (list R) :=
  match channels with
  | [] => Some features
  | channel :: rest =>
      match color_hist cv face_resized channel with
      | HistRaised => None
      | HistNone => color_features cv face_resized rest features
      | Hist hist => color_features cv face_resized rest (features ++ hist)
      end
  end.

(** The second [try] of [extract_face_encoding]; [None] when it raises. *)
Definition fallback_encoding (cv : Vision) (face_image : Image) : option Encoding :=
  match cv_resize cv face_image with
  | None => None
  | Some face_resized =>
      match color_features cv face_resized (seq 0 3) [] with
      | None => None
      | Some features =>
          match to_gray cv face_resized with
          | None => None
          | Some gray =>
              let lbp := extract_lbp_features gray 2 16 in
              let features := features ++ lbp in
              match canny cv gray with
              | None => None
              | Some edges =>
                  let edge_hist := normalize_hist (np_histogram 20 256 edges) in
                  Some (features ++ edge_hist)
              end
          end
      end
  end.

(** [extract_face_encoding(face_image)]. *)
Definition extract_face_encoding (cv : Vision) (face_image : option Image)
    : option Encoding * Method :=
  match face_image with
  | None => (None, invalid)
  | Some im =>
      if (size im =? 0)%Z then (None, invalid)
      else
        match face_encodings cv im with
        | Encodings (e :: _) => (Some e, deep_learning)
        | _ =>
            match fallback_encoding cv im with
            | Some features => (Some features, feature_based)
            | None => (None, error)
            end
        end
  end.

(** ** System state, identity store and audit log *)

(** An entry of [known_faces]. *)
Record Identity : Type := mkIdentity {
  encoding : Encoding;
  method : Method;
  samples : nat;
  registered : string
}.

(** A value of a [details] dictionary. *)
Inductive Value : Type :=
| VInt (n : Z)
| VDist (d : Dist).

(** An entry of [verification_logs]. *)
Record LogEntry : Type := mkLogEntry {
  timestamp : string;
  username : string;
  action : string;
  success : bool;
  details : list (string * Value)
}.

(** What [save_data] and [save_logs] hand to [pickle.dump] and
    [json.dump]. *)
Inductive Write : Type :=
| WriteFaces (faces : gmap string Identity)
| WriteLogs (logs : list LogEntry).

(** The fields of [FaceVerificationSystem] that the workflows use, and the
    sequence of snapshots written so far, oldest first. *)
Record System : Type := mkSystem {
  threshold : R;
  known_faces : gmap string Identity;
  verification_logs : list LogEntry;
  camera_available : bool;
  disk_writes : list Write
}.

Definition set_known_faces (st : System) (faces : gmap string Identity) : System :=
  mkSystem (threshold st) faces (verification_logs st) (camera_available st) (disk_writes st).

Definition set_verification_logs (st : System) (logs : list LogEntry) : System :=
  mkSystem (threshold st) (known_faces st) logs (camera_available st) (disk_writes st).

Definition add_write (st : System) (w : Write) : System :=
  mkSystem (threshold st) (known_faces st) (verification_logs st) (camera_available st)
           (disk_writes st ++ [w]).

(** [l[-n:]] for [n > 0]. *)
Definition last_n {A : Type} (n : nat) (l : list A) : list A :=
  skipn (length l - n) l.

(** [save_logs()]: dumps [verification_logs[-1000:]]. *)
Definition save_logs (st : System) : System :=
  add_write st (WriteLogs (last_n 1000 (verification_logs st))).

(** [save_data()]: dumps [known_faces]. *)
Definition save_data (st : System) : System :=
  add_write st (WriteFaces (known_faces st)).

(** [log_verification(username, action, success, details)]; [now] is the
    value of [datetime.now().isoformat()]. *)
Definition log_verification (st : System) (now : string) (username action : string)
    (success : bool) (details : list (string * Value)) : System :=
  let log_entry := mkLogEntry now username action success details in
  let st := set_verification_logs st (verification_logs st ++ [log_entry]) in
  if Nat.eqb (length (verification_logs st) mod 10) 0 then save_logs st else st.

(** ** Frames and crops *)

(** The bound of a slice [a[k:]] or [a[:k]] on an axis of length [n]. *)
Definition slice_bound (n k : Z) : Z :=
  if (k <? 0)%Z then Z.max 0 (k + n) else Z.min k n.

(** [frame[y:y+h, x:x+w]]. *)
Definition crop (frame : Image) (x y w h : Z) : Image :=
  let y0 := slice_bound (rows frame) y in
  let y1 := slice_bound (rows frame) (y + h) in
  let x0 := slice_bound (cols frame) x in
  let x1 := slice_bound (cols frame) (x + w) in
  mkImage (Z.max 0 (y1 - y0)) (Z.max 0 (x1 - x0))
          (fun r c ch => pixel frame (y0 + r) (x0 + c) ch).

(** [capture_frame()]; [read] is what [cap.read()] delivers, [None] when
    it fails. *)
Definition capture_frame (st : System) (read : option Image) : option Image :=
  if camera_available st then read else None.

(** ** Enrollment: [register_user] *)

Definition Sample : Type := (Encoding * Method)%type.

(** What one turn of the [while] loop observes: the seconds elapsed since
    [start_time] and the camera read. *)
Record Poll : Type := mkPoll {
  elapsed : Z;
  cam_read : option Image
}.

Inductive StepResult : Type :=
| StepTimeout
| StepNext (samples : list Sample) (sample_count : Z).

(** One turn of the [while] loop of [register_user]. *)
Definition enroll_step (cv : Vision) (st : System) (p : Poll)
    (samples : list Sample) (sample_count : Z) : StepResult :=
  if (30 <? elapsed p)%Z then StepTimeout
  else
    match capture_frame st (cam_read p) with
    | None => StepNext samples sample_count
    | Some frame =>
        match detect_faces cv frame with
        | (x, y, w, h) :: _ =>
            let face := crop frame x y w h in
            if (0 <? size face)%Z then
              if (100 <? w)%Z && (100 <? h)%Z then
                match extract_face_encoding cv (Some face) with
                | (Some encoding, method) =>
                    StepNext (samples ++ [(encoding, method)]) (sample_count + 1)%Z
                | (None, _) => StepNext samples sample_count
                end
              else StepNext samples sample_count
            else StepNext samples sample_count
        | [] => StepNext samples sample_count
        end
    end.

Inductive LoopResult : Type :=
| TimedOut
| Collected (samples : list Sample).

(** The [while sample_count < num_samples] loop over the observations
    [polls]; [None] when the loop is still running after the last of
    them. *)
Fixpoint collect (cv : Vision) (st : System) (num_samples : Z) (polls : list Poll)
    (samples : list Sample) (sample_count : Z) : option LoopResult :=
  if (sample_count <? num_samples)%Z then
    match polls with
    | [] => None
    | p :: rest =>
        match enroll_step cv st p samples sample_count with
        | StepTimeout => Some TimedOut
        | StepNext samples' sample_count' =>
            collect cv st num_samples rest samples' sample_count'
        end
    end
  else Some (Collected samples).

(** [np.mean(vs, axis=0)] of a non-empty list of 1-D arrays; [None] (a
    [ValueError]) when their lengths differ. The [float64] sums and the
    quotient are read as real numbers: the code's result is within rounding
    of this one, and equal to it for one vector and for two equal
    vectors. *)
Definition np_mean (vs : list Encoding) : option Encoding :=
  match vs with
  | [] => None
  | v :: rest =>
      if forallb (fun u => Nat.eqb (length u) (length v)) rest
      then Some (map (fun s => (s / INR (length vs))%R)
                     (fold_left (zip_with Rplus) rest v))
      else None
  end.

(** The result of a call: a returned boolean or an uncaught exception. *)
Inductive Outcome : Type :=
| Returned (b : bool)
| Raised.

(** The assignment to [known_faces[username]], [save_data()] and the
    registration log entry. *)
Definition store_identity (st : System) (username : string) (avg_encoding : Encoding)
    (method : Method) (samples : list Sample) (t_registered t_logged : string) : System :=
  let st := set_known_faces st
              (<[username := mkIdentity avg_encoding method (length samples) t_registered]>
                 (known_faces st)) in
  let st := save_data st in
  log_verification st t_logged username "registration" true
    [("samples"%string, VInt (Z.of_nat (length samples)))].

(** The part of [register_user] after the loop. *)
Definition commit (st : System) (username : string) (samples : list Sample)
    (t_registered t_logged : string) : Outcome * System :=
  match samples with
  | [] => (Returned false, st)
  | _ :: _ =>
      let deep_learning_samples :=
        map fst (List.filter (fun s => Method_eqb (snd s) deep_learning) samples) in
      let feature_samples :=
        map fst (List.filter (fun s => Method_eqb (snd s) feature_based) samples) in
      match deep_learning_samples with
      | _ :: _ =>
          match np_mean deep_learning_samples with
          | Some avg_encoding =>
              (Returned true,
               store_identity st username avg_encoding deep_learning samples t_registered t_logged)
          | None => (Raised, st)
          end
      | [] =>
          match feature_samples with
          | _ :: _ =>
              match np_mean feature_samples with
              | Some avg_encoding =>
                  (Returned true,
                   store_identity st username avg_encoding feature_based samples t_registered t_logged)
              | None => (Raised, st)
              end
          | [] => (Returned false, st)
          end
      end
  end.

(** [register_user(username, num_samples)] run against the observations
    [polls]; [None] when they end while the loop is still running. *)
Definition register_user (cv : Vision) (st : System) (username : string) (num_samples : Z)
    (polls : list Poll) (t_registered t_logged : string) : option (Outcome * System) :=
  if negb (camera_available st) then Some (Returned false, st)
  else
    match collect cv st num_samples polls [] 0 with
    | None => None
    | Some TimedOut => Some (Returned false, st)
    | Some (Collected samples) => Some (commit st username samples t_registered t_logged)
    end.

(** ** Verification: [verify_user] *)

(** The distance computed for one extracted encoding. *)
Definition candidate_distance (registered_encoding : Encoding) (method : Method)
    (encoding : Encoding) (detected_method : Method) : Dist :=
  if Method_eqb method detected_method
  then compare_faces (Some encoding) (Some registered_encoding) method
  else compare_faces (Some encoding) (Some registered_encoding) feature_based.

(** One turn of [for (x, y, w, h) in faces]. *)
Definition face_step (cv : Vision) (frame : Image) (registered_encoding : Encoding)
    (method : Method) (best_distance : Dist) (box : Z * Z * Z * Z) : Dist :=
  let '(x, y, w, h) := box in
  let face := crop frame x y w h in
  if (0 <? size face)%Z && (100 <? w)%Z && (100 <? h)%Z then
    match extract_face_encoding cv (Some face) with
    | (Some encoding, detected_method) =>
        py_min best_distance
               (candidate_distance registered_encoding method encoding detected_method)
    | (None, _) => best_distance
    end
  else best_distance.

(** [best_distance] after the loop over the faces of one frame. *)
Definition attempt_best (cv : Vision) (frame : Image) (registered_encoding : Encoding)
    (method : Method) : Dist :=
  fold_left (face_step cv frame registered_encoding method) (detect_faces cv frame) Inf.

(** The loop [for attempt in range(max_attempts)] and the code after it;
    [cam attempt] is the camera read of that attempt. *)
Fixpoint verify_attempts (cv : Vision) (st : System) (username : string)
    (user_data : Identity) (max_attempts : Z) (cam : nat -> option Image)
    (t_logged : string) (attempts : list nat) : bool * System :=
  match attempts with
  | [] =>
      (false,
       log_verification st t_logged username "verification" false
         [("attempts"%string, VInt max_attempts)])
  | attempt :: rest =>
      match capture_frame st (cam attempt) with
      | None => verify_attempts cv st username user_data max_attempts cam t_logged rest
      | Some frame =>
          let best_distance := attempt_best cv frame (encoding user_data) (method user_data) in
          if dist_lt_dec best_distance (threshold st) then
            (true,
             log_verification st t_logged username "verification" true
               [("distance"%string, VDist best_distance)])
          else verify_attempts cv st username user_data max_attempts cam t_logged rest
      end
  end.

(** [verify_user(username, max_attempts)]. *)
Definition verify_user (cv : Vision) (st : System) (username : string) (max_attempts : Z)
    (cam : nat -> option Image) (t_logged : string) : bool * System :=
  match known_faces st !! username with
  | None => (false, st)
  | Some user_data =>
      if negb (camera_available st) then (false, st)
      else verify_attempts cv st username user_data max_attempts cam t_logged
             (seq 0 (Z.to_nat max_attempts))
  end.

(** ** Notions used to state the properties *)

(** The Euclidean norm of the element-wise difference, written index by
    index. *)
Definition euclid (a b : list R) : R :=
  sqrt (Rsum (map (fun i => let d := (nth i a 0 - nth i b 0)%R in (d * d)%R)
                  (seq 0 (length a)))).

(** The weighted Euclidean distance with weight [w i] on dimension [i]. *)
Definition weighted_euclid (w : nat -> R) (a b : list R) : R :=
  sqrt (Rsum (map (fun i => let d := (w i * (nth i a 0 - nth i b 0))%R in (d * d)%R)
                  (seq 0 (length a)))).

(** Weight 1 on the 96 colour dimensions, weight 2 from position 96 on
    (the texture and edge segments). *)
Definition weight_at (i : nat) : R := if Nat.ltb i 96 then 1%R else 2%R.

(** How many cells of [codes] hold the value [v]. *)
Definition occurrences (v : Z) (codes : list Z) : nat :=
  length (List.filter (Z.eqb v) codes).

(** The bit that sample point [p] contributes to the code of pixel
    [(i, j)] whose intensity is [center]. *)
Definition lbp_bit (image : Gray) (height width : Z) (radius points : nat)
    (i j center : Z) (p : nat) : bool :=
  in_image height width (sample_x radius points j p) (sample_y radius points i p)
  && (center <=? gpix image (sample_y radius points i p) (sample_x radius points j p))%Z.

(** Something raises inside the second [try] of [extract_face_encoding],
    outside the texture descriptor. *)
Definition fallback_raises (cv : Vision) (im : Image) : Prop :=
  cv_resize cv im = None \/
  exists fr, cv_resize cv im = Some fr /\
    ((exists channel, channel < 3 /\ color_hist cv fr channel = HistRaised) \/
     to_gray cv fr = None \/
     exists gray, to_gray cv fr = Some gray /\ canny cv gray = None).

(** A detection of [frame] that passes the size gate and from which an
    encoding is extracted. *)
Definition candidate (cv : Vision) (frame : Image) (box : Z * Z * Z * Z) : Prop :=
  let '(x, y, w, h) := box in
  (0 < size (crop frame x y w h))%Z /\ (100 < w)%Z /\ (100 < h)%Z /\
  exists encoding detected_method,
    extract_face_encoding cv (Some (crop frame x y w h)) = (Some encoding, detected_method).

(** [best_distance] of attempt number [k] of a verification; [inf] when no
    frame is captured. *)
Definition best_of_attempt (cv : Vision) (st : System) (user_data : Identity)
    (cam : nat -> option Image) (k : nat) : Dist :=
  match capture_frame st (cam k) with
  | Some frame => attempt_best cv frame (encoding user_data) (method user_data)
  | None => Inf
  end.

(** Appending a sequence of events with [log_verification]. *)
Definition log_all (st : System) (events : list LogEntry) : System :=
  fold_left
    (fun st e => log_verification st (timestamp e) (username e) (action e) (success e) (details e))
    events st.

(** The method that produced most of the samples, as the specification
    words it: the majority, a tie going to [deep_learning] when such a
    sample exists, else [feature_based]. *)
Definition count_method (m : Method) (samples : list Sample) : nat :=
  length (List.filter (fun s => Method_eqb (snd s) m) samples).

Definition majority_method (samples : list Sample) : Method :=
  let dl := count_method deep_learning samples in
  let fb := count_method feature_based samples in
  if Nat.ltb fb dl then deep_learning
  else if Nat.ltb dl fb then feature_based
  else if Nat.ltb 0 dl then deep_learning else feature_based.

(** The distance the specification asks for when the methods differ and
    the fresh encoding is the embedding one: the crop is extracted again
    with the fallback path and compared feature-based. *)
Definition rederived_distance (cv : Vision) (face : Image) (registered_encoding : Encoding)
    : Dist :=
  match fallback_encoding cv face with
  | Some features => compare_faces (Some features) (Some registered_encoding) feature_based
  | None => Inf
  end.

(** ** A concrete installation, for the examples *)

(** A frame of [r] rows and [c] columns showing scene number [v]. *)
Definition scene (r c v : Z) : Image := mkImage r c (fun _ _ _ => v).

(** Collaborators: the embedding model answers only on crops of 200 rows;
    scene 7 makes the colour histogram raise; the grey conversion of scene
    5 hands the texture descriptor an array that is not two-dimensional;
    the locator reports the whole frame as one face. *)
Definition studio : Vision :=
  mkVision
    (fun im => if (rows im =? 200)%Z
               then Encodings [[(IZR (cols im) / 100)%R; 0%R]]
               else Encodings [])
    (fun im => Some (mkImage 128 128 (pixel im)))
    (fun fr _ => if (pixel fr 0 0 0 =? 7)%Z then HistRaised else Hist (repeat 0%R 32))
    (fun fr => Some (mkGray (if (pixel fr 0 0 0 =? 5)%Z then [] else [128; 128]%Z)
                            (fun y x => pixel fr y x 0)))
    (fun _ => Some [])
    (fun frame => [(0, 0, cols frame, rows frame)%Z]).

(** A fresh system with threshold 0.6 and a working camera. *)
Definition fresh : System := mkSystem (6 / 10)%R ∅ [] true [].

(** The fallback encoding of scene 5. *)
Definition scene5_features : Encoding :=
  repeat 0%R 32 ++ repeat 0%R 32 ++ repeat 0%R 32 ++ np_zeros 256
  ++ normalize_hist (np_histogram 20 256 []).

(** A system in which "alice" is enrolled with the embedding [1, 0]. *)
Definition with_alice : System :=
  mkSystem (6 / 10)%R
    (<["alice"%string := mkIdentity [1%R; 0%R] deep_learning 3 "t0"%string]> ∅)
    [] true [].

(** A system in which "bob" is enrolled with the feature-based encoding of
    scene 5. *)
Definition with_bob : System :=
  mkSystem (6 / 10)%R
    (<["bob"%string := mkIdentity scene5_features feature_based 3 "t0"%string]> ∅)
    [] true [].

(** A 5 x 5 grey image of constant intensity. *)
Definition flat5 : Gray := mkGray [5; 5]%Z (fun _ _ => 7%Z).

(** The neighbours, as (row, column) offsets from the pixel, with which
    the eight stored bits of a code are compared at radius 2 and 16
    points. *)
Definition lbp_neighbour (k : nat) : Z * Z :=
  nth k [(0, 2); (-1, 1); (-2, 1); (-2, 0); (-2, 0); (-2, -1); (-2, -2); (-1, -2)]%Z
      (0, 0)%Z.

(** A 6 x 7 grey image whose intensity at row [y], column [x] is
    [y * x]. *)
Definition ramp : Gray := mkGray [6; 7]%Z (fun y x => (y * x)%Z).

(** Ten audit events. *)
Definition ten_events : list LogEntry :=
  repeat (mkLogEntry "t"%string "alice"%string "verification"%string false []) 10.

(** The method of the committed encoding: [deep_learning] as soon as one
    sample carries it, else [feature_based]. *)
Definition preferred_method (samples : list Sample) : Method :=
  if existsb (fun s => Method_eqb (snd s) deep_learning) samples
  then deep_learning else feature_based.

(** The encodings of the samples tagged [m]. *)
Definition tagged (m : Method) (samples : list Sample) : list Encoding :=
  map fst (List.filter (fun s => Method_eqb (snd s) m) samples).

(** Three polls: one crop the embedding model answers on, then two it does
    not. *)
Definition enroll_polls : list Poll :=
  [mkPoll 0 (Some (scene 200 200 5)); mkPoll 1 (Some (scene 150 150 5));
   mkPoll 2 (Some (scene 150 150 5))].

(** A poll that comes 31 seconds after the start. *)
Definition late_polls : list Poll := [mkPoll 31 (Some (scene 200 200 5))].

(** A sample carries one of the two tags of a successful extraction. *)
Definition valid_sample (s : Sample) : Prop :=
  snd s = deep_learning \/ snd s = feature_based.

(** The samples that [enroll_polls] yields and the state in which the
    enrollment of "alice" from them ends. *)
Definition enroll_samples : list Sample :=
  [([(IZR 200 / 100)%R; 0%R], deep_learning);
   (scene5_features, feature_based); (scene5_features, feature_based)].

Definition alice_enrolled : System :=
  store_identity fresh "alice"
    (map (fun s => (s / INR 1)%R) [(IZR 200 / 100)%R; 0%R])
    deep_learning enroll_samples "t1" "t2".

(** The snapshots written while [events] are appended to an empty log: one
    after each tenth event. *)
Definition snapshots_of (events : list LogEntry) : list Write :=
  map (fun k => WriteLogs (last_n 1000 (firstn (10 * k) events)))
      (seq 1 (length events / 10)).

(** ** Face locator: [detect_faces_dnn], [detect_faces_haar], [detect_faces] *)

Module Locator.

(** One row [detections[0, 0, i, :]] of the network output: the
    confidence and the corners of the box relative to the frame. *)
Record Detection : Type := mkDetection {
  confidence : R;
  rel_x1 : R;
  rel_y1 : R;
  rel_x2 : R;
  rel_y2 : R
}.

(** The detectors held by the system: [dnn_model] ([None] when
    [load_dnn_model] found no model; the function is the forward pass on the
    frame, [None] when OpenCV raises), [cascade_loaded], and the Haar
    cascade on the grey frame ([None] when it raises). *)
Record Models : Type := mkModels {
  dnn_model : option (Image -> option (list Detection));
  cascade_loaded : bool;
  detectMultiScale : Image -> option (list (Z * Z * Z * Z))
}.

(** The box appended for one detection: scaled by [[w, h, w, h]],
    converted with [astype("int")], clamped to the frame. *)
Definition dnn_box (frame : Image) (d : Detection) : Z * Z * Z * Z :=
  let h := rows frame in
  let w := cols frame in
  let x1 := py_int (rel_x1 d * IZR w) in
  let y1 := py_int (rel_y1 d * IZR h) in
  let x2 := py_int (rel_x2 d * IZR w) in
  let y2 := py_int (rel_y2 d * IZR h) in
  let x1 := Z.max 0 x1 in
  let y1 := Z.max 0 y1 in
  let x2 := Z.min w x2 in
  let y2 := Z.min h y2 in
  (x1, y1, x2 - x1, y2 - y1)%Z.

(** The loop [for i in range(detections.shape[2])]. *)
Fixpoint dnn_faces (frame : Image) (detections : list Detection) : list (Z * Z * Z * Z) :=
  match detections with
  | [] => []
  | d :: rest =>
      if Rlt_dec (1 / 2) (confidence d)
      then dnn_box frame d :: dnn_faces frame rest
      else dnn_faces frame rest
  end.

(** [detect_faces_dnn(frame)]; [None] when the forward pass raises. *)
Definition detect_faces_dnn (m : Models) (frame : Image) : option (list (Z * Z * Z * Z)) :=
  match dnn_model m with
  | None => Some []
  | Some forward =>
      match forward frame with
      | None => None
      | Some detections => Some (dnn_faces frame detections)
      end
  end.

(** [detect_faces_haar(frame)]. *)
Definition detect_faces_haar (m : Models) (frame : Image) : list (Z * Z * Z * Z) :=
  if negb (cascade_loaded m) then []
  else
    match detectMultiScale m frame with
    | Some faces => faces
    | None => []
    end.

(** [detect_faces(frame)]. *)
Definition detect_faces (m : Models) (frame : Image) : option (list (Z * Z * Z * Z)) :=
  match detect_faces_dnn m frame with
  | None => None
  | Some faces =>
      if Nat.eqb (length faces) 0 then Some (detect_faces_haar m frame) else Some faces
  end.

End Locator.

(** ** Statistics: [get_verification_stats] *)

(** The dictionary that [get_verification_stats] returns. *)
Record Stats : Type := mkStats {
  total_attempts : nat;
  successful : nat;
  failed : Z;
  success_rate : R;
  last_success : option string;
  last_failure : option string
}.

(** Truth value of a variable that holds [None] or a string. *)
Definition truthy (s : option string) : bool :=
  match s with
  | None => false
  | Some s => negb (String.eqb s "")
  end.

(** The loop [for log in reversed(user_logs)] with its [break]. *)
Fixpoint scan_last (logs : list LogEntry) (last_success last_failure : option string)
    : option string * option string :=
  match logs with
  | [] => (last_success, last_failure)
  | log :: rest =>
      let '(last_success, last_failure) :=
        if success log && negb (truthy last_success)
        then (Some (timestamp log), last_failure)
        else if negb (success log) && negb (truthy last_failure)
             then (last_success, Some (timestamp log))
             else (last_success, last_failure) in
      if truthy last_success && truthy last_failure
      then (last_success, last_failure)
      else scan_last rest last_success last_failure
  end.

(** [log.get('username')]. *)
Definition log_get_username (log : LogEntry) : string := username log.

(** [get_verification_stats(username)]. *)
Definition get_verification_stats (st : System) (username : string) : Stats :=
  let user_logs :=
    List.filter (fun log => String.eqb (log_get_username log) username) (verification_logs st) in
  let successful := length (List.filter (fun log => success log) user_logs) in
  let failed := (Z.of_nat (length user_logs) - Z.of_nat successful)%Z in
  let '(last_success, last_failure) := scan_last (rev user_logs) None None in
  mkStats (length user_logs) successful failed
    (match user_logs with
     | [] => 0%R
     | _ :: _ => (INR successful / INR (length user_logs) * 100)%R
     end)
    last_success last_failure.

(** ** Persistence: [load_data] *)

(** What [faces.pkl] holds when [load_data] runs. *)
Inductive FacesFile : Type :=
| NoFile
| Unreadable
| Pickled (faces : gmap string Identity).

(** [load_data()]. *)
Definition load_data (st : System) (file : FacesFile) : bool * System :=
  match file with
  | NoFile => (false, st)
  | Pickled faces => (true, set_known_faces st faces)
  | Unreadable => (false, set_known_faces st ∅)
  end.

(** The last dictionary handed to [pickle.dump], if any. *)
Fixpoint last_faces_write (writes : list Write) : option (gmap string Identity) :=
  match writes with
  | [] => None
  | w :: rest =>
      match last_faces_write rest with
      | Some faces => Some faces
      | None => match w with WriteFaces faces => Some faces | WriteLogs _ => None end
      end
  end.

(** ** The HTTP handlers *)

(** [not username] for the [username] field of a request body, a string
    when it is present. *)
Definition no_username (username : option string) : bool :=
  match username with
  | None => true
  | Some s => String.eqb s ""
  end.

Definition set_threshold (st : System) (t : R) : System :=
  mkSystem t (known_faces st) (verification_logs st) (camera_available st) (disk_writes st).

(** What [float(threshold)] does with the [threshold] field of the body:
    it returns a finite number, returns [nan] or an infinity, raises
    [ValueError] or [TypeError] (a missing field, a list, text that is no
    number), or raises [OverflowError] (an integer too large for a
    float). *)
Inductive FloatConversion : Type :=
| FloatNumber (t : R)
| FloatNotFinite
| FloatRejected
| FloatOverflow.

(** [update_threshold()], with the HTTP status as result. [nan] and the
    infinities fail the range test; the [except] clause catches
    [ValueError] and [TypeError] only, so an [OverflowError] leaves the
    handler and Flask answers 500. *)
Definition update_threshold (st : System) (threshold : FloatConversion) : Z * System :=
  match threshold with
  | FloatNumber threshold =>
      if Rle_dec (1 / 10) threshold then
        if Rle_dec threshold 1 then (200%Z, set_threshold st threshold)
        else (400%Z, st)
      else (400%Z, st)
  | FloatNotFinite => (400%Z, st)
  | FloatRejected => (400%Z, st)
  | FloatOverflow => (500%Z, st)
  end.

(** [delete_user()], with the HTTP status as result. *)
Definition delete_user (st : System) (username : option string) : Z * System :=
  if no_username username then (400%Z, st)
  else
    match username with
    | None => (400%Z, st)
    | Some u =>
        match known_faces st !! u with
        | Some _ => (200%Z, save_data (set_known_faces st (delete u (known_faces st))))
        | None => (404%Z, st)
        end
    end.

(** [register_face()]: the HTTP status and whether the registration thread
    is started. *)
Definition register_face (st : System) (username : option string) : Z * bool :=
  if no_username username then (400%Z, false)
  else
    match username with
    | None => (400%Z, false)
    | Some u =>
        match known_faces st !! u with
        | Some _ => (400%Z, false)
        | None => if negb (camera_available st) then (503%Z, false) else (200%Z, true)
        end
    end.

(** The body shared by [verify_face()] and [quick_verify()]: the HTTP
    status, the [verified] field and the state. *)
Definition verify_handler (cv : Vision) (st : System) (username : option string)
    (max_attempts : Z) (cam : nat -> option Image) (t_logged : string)
    : Z * bool * System :=
  if no_username username then (400%Z, false, st)
  else
    match username with
    | None => (400%Z, false, st)
    | Some u =>
        match known_faces st !! u with
        | None => (404%Z, false, st)
        | Some _ =>
            if negb (camera_available st) then (503%Z, false, st)
            else
              let '(verified, st) := verify_user cv st u max_attempts cam t_logged in
              (200%Z, verified, st)
        end
    end.

(** [verify_face()]. *)
Definition verify_face (cv : Vision) (st : System) (username : option string)
    (cam : nat -> option Image) (t_logged : string) : Z * bool * System :=
  verify_handler cv st username 3 cam t_logged.

(** [quick_verify()]. *)
Definition quick_verify (cv : Vision) (st : System) (username : option string)
    (cam : nat -> option Image) (t_logged : string) : Z * bool * System :=
  verify_handler cv st username 1 cam t_logged.

(** [get_user_stats(username)]. *)
Definition get_user_stats (st : System) (username : string) : Z * option Stats :=
  match known_faces st !! username with
  | None => (404%Z, None)
  | Some _ => (200%Z, Some (get_verification_stats st username))
  end.

(** [l[k:]]. *)
Definition slice_from {A : Type} (k : Z) (l : list A) : list A :=
  skipn (Z.to_nat (slice_bound (Z.of_nat (length l)) k)) l.

(** [get_verification_logs()]: the fields [logs] and [total]; [limit] is
    the query parameter converted by [int]. *)
Definition get_verification_logs (st : System) (limit : Z) (username : option string)
    : list LogEntry * nat :=
  let logs := verification_logs st in
  let logs :=
    if no_username username then logs
    else
      match username with
      | None => logs
      | Some u => List.filter (fun log => String.eqb (log_get_username log) u) logs
      end in
  (slice_from (- limit) logs, length logs).

(** ** Further notions used to state properties *)

(** [a <= b] between distances. *)
Definition dist_le (a b : Dist) : Prop :=
  match a, b with
  | Fin x, Fin y => (x <= y)%R
  | _, Inf => True
  | Inf, Fin _ => False
  end.

(** The distance that a detection contributes to an attempt, when it is a
    candidate. *)
Definition box_distance (cv : Vision) (frame : Image) (registered_encoding : Encoding)
    (method : Method) (box : Z * Z * Z * Z) : option Dist :=
  let '(x, y, w, h) := box in
  if (0 <? size (crop frame x y w h))%Z && (100 <? w)%Z && (100 <? h)%Z then
    match extract_face_encoding cv (Some (crop frame x y w h)) with
    | (Some encoding, detected_method) =>
        Some (candidate_distance registered_encoding method encoding detected_method)
    | (None, _) => None
    end
  else None.

(** A poll from which the enrollment loop can take no sample: no frame, no
    detection, or a first detection that fails the size gate. *)
Definition barren (cv : Vision) (st : System) (p : Poll) : Prop :=
  match capture_frame st (cam_read p) with
  | None => True
  | Some frame =>
      match detect_faces cv frame with
      | [] => True
      | (x, y, w, h) :: _ => (w <= 100)%Z \/ (h <= 100)%Z
      end
  end.

(** The image [f] applied to every intensity. *)
Definition map_gray (f : Z -> Z) (image : Gray) : Gray :=
  mkGray (gshape image) (fun y x => f (gpix image y x)).

(** Two polls showing the same scene, which the embedding model does not
    answer on. *)
Definition twin_polls : list Poll :=
  [mkPoll 0 (Some (scene 150 150 5)); mkPoll 1 (Some (scene 150 150 5))].

(** Two polls without a usable face, then one that comes too late. *)
Definition barren_then_late : list Poll :=
  [mkPoll 0 None; mkPoll 10 (Some (scene 100 100 5)); mkPoll 31 (Some (scene 200 200 5))].

(** A box that lies inside the frame. *)
Definition box_inside (frame : Image) (box : Z * Z * Z * Z) : Prop :=
  let '(x, y, w, h) := box in
  (0 <= x)%Z /\ (0 <= y)%Z /\ (x + w <= cols frame)%Z /\ (y + h <= rows frame)%Z.

(** A locator with a network that reports one confident detection covering
    the whole frame and one detection below the confidence bar, and without
    Haar cascade. *)
Definition lab : Locator.Models :=
  Locator.mkModels
    (Some (fun _ => Some [Locator.mkDetection (9 / 10) 0 0 1 1;
                          Locator.mkDetection (3 / 10) 0 0 1 1]))
    false
    (fun _ => None).

(** The entries of [user] in the audit log, oldest first. *)
Definition user_entries (st : System) (user : string) : list LogEntry :=
  List.filter (fun log => String.eqb (log_get_username log) user) (verification_logs st).

(** The list that [get_verification_logs] pages: the whole log, or the
    entries of the user named in the query. *)
Definition listed_logs (st : System) (username : option string) : list LogEntry :=
  if no_username username then verification_logs st
  else
    match username with
    | None => verification_logs st
    | Some u => user_entries st u
    end.

(** A system whose audit log holds three entries. *)
Definition with_history : System :=
  mkSystem (6 / 10)%R
    (<["alice"%string := mkIdentity [1%R; 0%R] deep_learning 3 "t0"%string]> ∅)
    [mkLogEntry "t1" "alice" "verification" true [];
     mkLogEntry "t2" "alice" "verification" false [];
     mkLogEntry "t3" "bob" "registration" true []]
    true [].

(** A cell of an edge map as the Canny detector produces it. *)
Definition binary_edge (x : Z) : Prop := x = 0%Z \/ x = 255%Z.

(** The studio with an edge detector that reports one edge cell among
    four, and the fallback encoding of scene 5 there. *)
Definition sketch : Vision :=
  mkVision (face_encodings studio) (cv_resize studio) (color_hist studio) (to_gray studio)
           (fun _ => Some [0; 255; 0; 0]%Z) (detect_faces studio).

Definition sketch_features : Encoding :=
  (repeat 0%R 32 ++ repeat 0%R 32 ++ repeat 0%R 32 ++ np_zeros 256)
  ++ normalize_hist (np_histogram 20 256 [0; 255; 0; 0]%Z).

(** ** The server *)

(** [face_system = FaceVerificationSystem(threshold=0.55)] as [__init__]
    leaves it; [camera] is [cap.isOpened()]. *)
Definition face_system (camera : bool) : System := mkSystem (55 / 100) ∅ [] camera [].

(** A request to one of the handlers that can change [face_system],
    together with what the camera and the clock deliver while it is
    served. *)
Inductive Request : Type :=
| PostRegister (username : option string) (polls : list Poll) (t_registered t_logged : string)
| PostVerify (username : option string) (cam : nat -> option Image) (t_logged : string)
| PostQuickVerify (username : option string) (cam : nat -> option Image) (t_logged : string)
| PostUpdateThreshold (threshold : FloatConversion)
| PostDeleteUser (username : option string).

(** The state after a request has been served, requests being served one
    at a time: for a registration the state after [registration_task] has
    ended (an exception in the thread leaves the state as it is), [None]
    when the observations end while its loop is still running. *)
Definition serve (cv : Vision) (st : System) (req : Request) : option System :=
  match req with
  | PostRegister username polls t_registered t_logged =>
      match register_face st username, username with
      | (_, true), Some u =>
          match register_user cv st u 3 polls t_registered t_logged with
          | Some (_, st') => Some st'
          | None => None
          end
      | _, _ => Some st
      end
  | PostVerify username cam t_logged => Some (snd (verify_face cv st username cam t_logged))
  | PostQuickVerify username cam t_logged =>
      Some (snd (quick_verify cv st username cam t_logged))
  | PostUpdateThreshold threshold => Some (snd (update_threshold st threshold))
  | PostDeleteUser username => Some (snd (delete_user st username))
  end.

(** A sequence of requests served from the state [st]. *)
Fixpoint serve_all (cv : Vision) (st : System) (reqs : list Request) : option System :=
  match reqs with
  | [] => Some st
  | req :: rest =>
      match serve cv st req with
      | Some st' => serve_all cv st' rest
      | None => None
      end
  end.

(** An identity as the registration handler stores it. *)
Definition enrolled_by_server (u : string) (ident : Identity) : Prop :=
  u <> ""%string /\ samples ident = 3 /\
  (method ident = deep_learning \/ method ident = feature_based).

(** An audit entry as the handlers produce it. *)
Definition served_entry (e : LogEntry) : Prop :=
  username e <> ""%string /\
  ((action e = "registration"%string /\ success e = true /\
    details e = [("samples"%string, VInt 3)]) \/
   action e = "verification"%string).

(** What holds of the state after [n] requests, for a server started with
    the identities [faces0] and the camera flag [camera]. *)
Definition server_invariant (faces0 : gmap string Identity) (camera : bool) (n : nat)
    (st : System) : Prop :=
  (1 / 10 <= threshold st <= 1)%R /\
  camera_available st = camera /\
  (forall u ident,
      known_faces st !! u = Some ident -> faces0 !! u = Some ident \/ enrolled_by_server u ident) /\
  Forall served_entry (verification_logs st) /\
  length (verification_logs st) <= n /\
  (last_faces_write (disk_writes st) = Some (known_faces st) \/
   (last_faces_write (disk_writes st) = None /\ known_faces st = faces0)) /\
  (camera = false ->
   verification_logs st = [] /\
   forall u ident, known_faces st !! u = Some ident -> faces0 !! u = Some ident).

(** A session: an enrollment, a deletion, a threshold update that is
    refused. *)
Definition session : list Request :=
  [PostRegister (Some "alice"%string) enroll_polls "t1" "t2";
   PostDeleteUser (Some "alice"%string);
   PostUpdateThreshold (FloatNumber 2%R)].

(** The state in which [session] ends on a server started without saved
    identities. *)
Definition session_end : System :=
  match serve_all studio (snd (load_data (face_system true) NoFile)) session with
  | Some st => st
  | None => face_system true
  end.

(** * Properties *)

(** ** Similarity engine *)

Lemma zip_with_nth {A B C : Type} (f : A -> B -> C) (a : list A) (b : list B) (da : A) (db : B) :
  length a = length b ->
  zip_with f a b = map (fun i => f (nth i a da) (nth i b db)) (seq 0 (length a)).
Proof.
  revert b. induction a as [|x a IH]; intros [|y b] Hlen; simpl in *; try discriminate; auto.
  f_equal. rewrite <- seq_shift, map_map. apply IH. lia.
Qed.

Lemma fb_weights_lookup (a : list R) (i : nat) :
  fb_weights a !! i = if Nat.ltb i (length a) then Some (weight_at i) else None.
Proof.
  unfold fb_weights, ones_like, weight_at. rewrite length_map.
  destruct (Nat.ltb_spec 96 (length a)) as [Hbig|Hsmall].
  - destruct (Nat.ltb_spec i 96) as [Hi|Hi].
    + rewrite lookup_app_l by (rewrite length_take, length_map; lia).
      rewrite lookup_take_lt by lia. rewrite list_lookup_fmap.
      destruct (Nat.ltb_spec i (length a)); [|lia].
      destruct (lookup_lt_is_Some_2 a i) as [v Hv]; [lia|]. now rewrite Hv.
    + rewrite lookup_app_r by (rewrite length_take, length_map; lia).
      rewrite length_take, length_map, Nat.min_l by lia.
      rewrite list_lookup_fmap, lookup_drop, list_lookup_fmap.
      replace (96 + (i - 96)) with i by lia.
      destruct (Nat.ltb_spec i (length a)).
      * destruct (lookup_lt_is_Some_2 a i) as [v Hv]; [lia|]. now rewrite Hv.
      * rewrite (lookup_ge_None_2 a i) by lia. reflexivity.
  - rewrite list_lookup_fmap.
    destruct (Nat.ltb_spec i (length a)).
    + destruct (lookup_lt_is_Some_2 a i) as [v Hv]; [lia|]. rewrite Hv. simpl.
      destruct (Nat.ltb_spec i 96); [reflexivity|lia].
    + rewrite (lookup_ge_None_2 a i) by lia. reflexivity.
Qed.

Lemma fb_weights_seq (a : list R) : fb_weights a = map weight_at (seq 0 (length a)).
Proof.
  apply list_eq. intros i. rewrite fb_weights_lookup, list_lookup_fmap.
  destruct (Nat.ltb_spec i (length a)).
  - rewrite lookup_seq_lt by lia. reflexivity.
  - rewrite lookup_seq_ge by lia. reflexivity.
Qed.

Lemma length_fb_weights (a : list R) : length (fb_weights a) = length a.
Proof. rewrite fb_weights_seq, length_map, length_seq. reflexivity. Qed.

Lemma np_broadcast_same (f : R -> R -> R) (a b : list R) :
  length a = length b -> np_broadcast f a b = Some (zip_with f a b).
Proof. intros H. unfold np_broadcast. rewrite H, Nat.eqb_refl. reflexivity. Qed.

Lemma np_norm_nonneg (v : list R) : (0 <= np_norm v)%R.
Proof. apply sqrt_pos. Qed.

Lemma compare_faces_nonneg (e1 e2 : option Encoding) (m : Method) :
  match compare_faces e1 e2 m with Fin r => (0 <= r)%R | Inf => True end.
Proof.
  unfold compare_faces.
  destruct e1 as [a|], e2 as [b|]; try exact I.
  destruct m; destruct (np_broadcast Rminus a b); try exact I;
    try apply np_norm_nonneg;
    destruct (np_broadcast Rmult _ _); try exact I; apply np_norm_nonneg.
Qed.

(** C7: for two present encodings of the same length, [compare_faces] with
    the embedding method is the Euclidean norm of the element-wise
    difference, and with the feature-based method it is the weighted
    Euclidean distance whose weight is 2 on every dimension from position 96
    on (the texture and edge segments, the slice [96:]) and 1 on the 96
    dimensions before; an absent argument gives [inf]; every result is
    [inf] or a real number that is not negative. *)
Theorem compare_faces_distance (a b : Encoding) (Hlen : length a = length b) :
  compare_faces (Some a) (Some b) deep_learning = Fin (euclid a b) /\
  compare_faces (Some a) (Some b) feature_based = Fin (weighted_euclid weight_at a b) /\
  (forall (e : option Encoding) (m : Method),
      compare_faces None e m = Inf /\ compare_faces e None m = Inf) /\
  (forall (e1 e2 : option Encoding) (m : Method),
      compare_faces e1 e2 m = Inf \/
      exists r, compare_faces e1 e2 m = Fin r /\ (0 <= r)%R).
Proof.
  assert (Hd : zip_with Rminus a b
               = map (fun i => (nth i a 0 - nth i b 0)%R) (seq 0 (length a))).
  { apply zip_with_nth, Hlen. }
  repeat split.
  - unfold compare_faces. rewrite np_broadcast_same by exact Hlen.
    unfold np_norm, euclid. rewrite Hd, map_map. reflexivity.
  - unfold compare_faces. rewrite np_broadcast_same by exact Hlen.
    rewrite np_broadcast_same
      by (rewrite length_fb_weights, length_zip_with; lia).
    unfold np_norm, weighted_euclid.
    rewrite Hd, fb_weights_seq.
    rewrite zip_with_fmap_l, zip_with_fmap_r, zip_with_diag, map_map.
    reflexivity.
  - destruct e; reflexivity.
  - intros e1 e2 m. pose proof (compare_faces_nonneg e1 e2 m) as H.
    destruct (compare_faces e1 e2 m) as [r|]; [right; exists r; auto | left; reflexivity].
Qed.

(** ** Texture descriptor *)

(** py_int *)
Lemma py_int_floor (x : R) (n : Z) :
  (0 <= IZR n)%R -> (IZR n <= x)%R -> (x < IZR n + 1)%R -> py_int x = n.
Proof.
  intros Hn Hlo Hhi. unfold py_int.
  destruct (Rle_dec 0 x) as [_|Hneg]; [|lra].
  symmetry. apply Int_part_spec. lra.
Qed.

Lemma py_int_bounds (x : R) (lo hi : Z) :
  (0 <= IZR lo)%R -> (IZR lo <= x)%R -> (x <= IZR hi)%R -> (lo <= py_int x <= hi)%Z.
Proof.
  intros H0 Hlo Hhi. unfold py_int.
  destruct (Rle_dec 0 x) as [_|Hneg]; [|lra].
  destruct (base_Int_part x) as [H1 H2].
  split.
  - apply Z.lt_succ_r. apply lt_IZR. rewrite succ_IZR. lra.
  - apply le_IZR. lra.
Qed.

Lemma cos_PI8_bounds : (3 / 4 < cos (PI / 8) < 1)%R.
Proof.
  pose proof PI_RGT_0 as Hpi.
  split.
  - apply Rlt_trans with (cos (PI / 6)).
    + rewrite cos_PI6.
      assert (H : (3 / 2 < sqrt 3)%R).
      { replace (3 / 2)%R with (sqrt (9 / 4)).
        - apply sqrt_lt_1; lra.
        - replace (9 / 4)%R with ((3 / 2) * (3 / 2))%R by lra.
          apply sqrt_square. lra. }
      lra.
    + apply cos_decreasing_1; lra.
  - rewrite <- cos_0. apply cos_decreasing_1; lra.
Qed.

Lemma sample_x_k1 : sample_x 2 16 2 1 = 3%Z.
Proof.
  unfold sample_x, lbp_angle. simpl INR.
  replace (2 * PI * 1 / (1+1+1+1+1+1+1+1+1+1+1+1+1+1+1+1))%R with (PI / 8)%R by lra.
  pose proof cos_PI8_bounds as [Hlo Hhi].
  apply py_int_floor; simpl; lra.
Qed.

Lemma testbit_shiftl_b2z (b : bool) (s k : Z) :
  (0 <= s)%Z -> (0 <= k)%Z -> Z.testbit (Z.shiftl (Z.b2z b) s) k = b && (k =? s)%Z.
Proof.
  intros Hs Hk. rewrite Z.shiftl_spec by lia.
  destruct (Z.eqb_spec k s) as [->|Hne].
  - rewrite Z.sub_diag, Z.b2z_bit0, andb_true_r. reflexivity.
  - rewrite andb_false_r.
    destruct (k - s)%Z as [|q|q] eqn:E; [lia| |reflexivity].
    destruct b; simpl; [destruct q|]; reflexivity.
Qed.

Section PixelCode.
Variables (image : Gray) (height width : Z) (radius points : nat) (i j : Z).

Let bit (center : Z) (p : nat) : bool :=
  lbp_bit image height width radius points i j center p.

Lemma lbp_bits_testbit (center : Z) (n s : nat) (code k : Z) :
  (0 <= k)%Z ->
  Z.testbit (lbp_bits image height width radius points i j center (seq s n) code (Z.of_nat s)) k
  = Z.testbit code k
    || ((Z.of_nat s <=? k)%Z && (k <? Z.of_nat (s + n))%Z && bit center (Z.to_nat k)).
Proof.
  intros Hk. revert s code. induction n as [|n IH]; intros s code; simpl.
  - replace (k <? Z.of_nat (s + 0))%Z with (k <? Z.of_nat s)%Z by (f_equal; lia).
    destruct (Z.leb_spec (Z.of_nat s) k), (Z.ltb_spec k (Z.of_nat s)); try lia;
      simpl; rewrite ?orb_false_r; reflexivity.
  - replace (Z.of_nat s + 1)%Z with (Z.of_nat (S s)) by lia.
    rewrite IH.
    replace (k <? Z.of_nat (S s + n))%Z with (k <? Z.of_nat (s + S n))%Z by (f_equal; lia).
    assert (Hcode :
      Z.testbit
        (if in_image height width (sample_x radius points j s) (sample_y radius points i s)
         then Z.lor code
                (Z.shiftl
                   (Z.b2z (center <=? gpix image (sample_y radius points i s)
                                                 (sample_x radius points j s))%Z)
                   (Z.of_nat s))
         else code) k
      = Z.testbit code k || (bit center s && (k =? Z.of_nat s)%Z)).
    { unfold bit, lbp_bit.
      destruct (in_image height width _ _); simpl.
      - rewrite Z.lor_spec, testbit_shiftl_b2z by lia. reflexivity.
      - rewrite orb_false_r. reflexivity. }
    rewrite Hcode.
    destruct (Z.eqb_spec k (Z.of_nat s)) as [->|Hne].
    + rewrite Nat2Z.id.
      destruct (Z.leb_spec (Z.of_nat (S s)) (Z.of_nat s)); [lia|].
      destruct (Z.leb_spec (Z.of_nat s) (Z.of_nat s)); [|lia].
      destruct (Z.ltb_spec (Z.of_nat s) (Z.of_nat (s + S n))); [|lia].
      simpl. rewrite andb_true_r, orb_false_r. reflexivity.
    + rewrite andb_false_r, orb_false_r.
      destruct (Z.leb_spec (Z.of_nat (S s)) k), (Z.leb_spec (Z.of_nat s) k); try lia; reflexivity.
Qed.

Lemma lbp_code_testbit (k : nat) :
  Z.testbit (lbp_code image height width radius points i j) (Z.of_nat k)
  = (k <? points) && bit (gpix image i j) k.
Proof.
  unfold lbp_code. change 0%Z with (Z.of_nat 0) at 2.
  rewrite lbp_bits_testbit by lia.
  rewrite Z.bits_0, Nat2Z.id. simpl orb. simpl Nat.add.
  destruct (Z.leb_spec (Z.of_nat 0) (Z.of_nat k)); [|lia].
  destruct (Nat.ltb_spec k points), (Z.ltb_spec (Z.of_nat k) (Z.of_nat points)); try lia;
    reflexivity.
Qed.

Lemma interior_in_image (p : nat) :
  (Z.of_nat radius <= i < height - Z.of_nat radius)%Z ->
  (Z.of_nat radius <= j < width - Z.of_nat radius)%Z ->
  in_image height width (sample_x radius points j p) (sample_y radius points i p) = true.
Proof.
  intros Hi Hj.
  pose proof (COS_bound (lbp_angle points p)) as [Hc1 Hc2].
  pose proof (SIN_bound (lbp_angle points p)) as [Hs1 Hs2].
  assert (Hr : (0 <= INR radius)%R) by apply pos_INR.
  assert (HrZ : INR radius = IZR (Z.of_nat radius)) by apply INR_IZR_INZ.
  assert (Hx : (j - Z.of_nat radius <= sample_x radius points j p <= j + Z.of_nat radius)%Z).
  { unfold sample_x. apply py_int_bounds.
    - apply IZR_le. lia.
    - rewrite minus_IZR, <- HrZ. nra.
    - rewrite plus_IZR, <- HrZ. nra. }
  assert (Hy : (i - Z.of_nat radius <= sample_y radius points i p <= i + Z.of_nat radius)%Z).
  { unfold sample_y. apply py_int_bounds.
    - apply IZR_le. lia.
    - rewrite minus_IZR, <- HrZ. nra.
    - rewrite plus_IZR, <- HrZ. nra. }
  unfold in_image. repeat (apply andb_true_intro; split);
    try apply Z.leb_le; try apply Z.ltb_lt; lia.
Qed.
End PixelCode.


(** Histograms *)

Lemma Rsum_app (l1 l2 : list R) : Rsum (l1 ++ l2) = (Rsum l1 + Rsum l2)%R.
Proof. induction l1 as [|x l1 IH]; simpl; [lra | rewrite IH; lra]. Qed.

Lemma Rsum_map_plus {A : Type} (f g : A -> R) (l : list A) :
  Rsum (map (fun x => (f x + g x)%R) l) = (Rsum (map f l) + Rsum (map g l))%R.
Proof. induction l as [|x l IH]; simpl; [lra | rewrite IH; lra]. Qed.

Lemma Rsum_map_div (s : R) (l : list R) :
  Rsum (map (fun c => (c / s)%R) l) = (Rsum l / s)%R.
Proof. induction l as [|x l IH]; simpl; [lra | rewrite IH; lra]. Qed.

Lemma Rsum_indicator (b0 s n : nat) :
  Rsum (map (fun b => INR (if Nat.eqb b0 b then 1 else 0)) (seq s n))
  = if (s <=? b0) && (b0 <? s + n) then 1%R else 0%R.
Proof.
  revert s. induction n as [|n IH]; intros s; simpl.
  - destruct (Nat.leb_spec s b0), (Nat.ltb_spec b0 (s + 0)); simpl; try lia; reflexivity.
  - rewrite IH.
    destruct (Nat.eqb_spec b0 s) as [->|Hne].
    + destruct (Nat.leb_spec (S s) s); [lia|].
      destruct (Nat.leb_spec s s); [|lia].
      destruct (Nat.ltb_spec s (s + S n)); [|lia]. simpl. lra.
    + destruct (Nat.leb_spec (S s) b0), (Nat.leb_spec s b0),
        (Nat.ltb_spec b0 (S s + n)), (Nat.ltb_spec b0 (s + S n)); simpl; try lia; lra.
Qed.

Lemma length_np_histogram (bins : nat) (hi : Z) (vals : list Z) :
  length (np_histogram bins hi vals) = bins.
Proof. unfold np_histogram. rewrite length_map, length_seq. reflexivity. Qed.

Lemma in_bin_indicator (bins : nat) (hi : Z) (x : Z) (b0 b : nat) :
  bin_index bins hi x = Some b0 -> in_bin bins hi b x = Nat.eqb b0 b.
Proof. intros H. unfold in_bin. rewrite H. reflexivity. Qed.

Lemma Rsum_np_histogram (bins : nat) (hi : Z) (vals : list Z) :
  Forall (fun x => exists b0, bin_index bins hi x = Some b0 /\ b0 < bins) vals ->
  Rsum (np_histogram bins hi vals) = INR (length vals).
Proof.
  unfold np_histogram. induction 1 as [|x vals [b0 [Hb0 Hlt]] _ IH].
  - unfold bin_hits. simpl. induction (seq 0 bins) as [|b l IHl]; simpl; [reflexivity | lra].
  - transitivity
      (Rsum (map (fun b => (INR (if Nat.eqb b0 b then 1 else 0)
                            + INR (bin_hits bins hi b vals))%R) (seq 0 bins))).
    + f_equal. apply map_ext. intros b. unfold bin_hits. simpl List.filter.
      rewrite (in_bin_indicator bins hi x b0 b Hb0).
      destruct (Nat.eqb b0 b); simpl length.
      * rewrite S_INR. simpl INR. lra.
      * simpl INR. lra.
    + rewrite Rsum_map_plus, IH, Rsum_indicator.
      destruct (Nat.leb_spec 0 b0), (Nat.ltb_spec b0 (0 + bins)); simpl andb; try lia.
      change (length (x :: vals)) with (S (length vals)). rewrite S_INR. lra.
Qed.

Lemma np_histogram_lookup (bins : nat) (hi : Z) (vals : list Z) (b : nat) :
  b < bins -> np_histogram bins hi vals !! b = Some (INR (bin_hits bins hi b vals)).
Proof.
  intros Hb. unfold np_histogram. rewrite list_lookup_fmap, lookup_seq_lt by lia.
  reflexivity.
Qed.

Lemma map_const_seq {A : Type} (c : A) (s n : nat) :
  map (fun _ => c) (seq s n) = repeat c n.
Proof. revert s. induction n as [|n IH]; intros s; simpl; [reflexivity | f_equal; apply IH]. Qed.

Lemma np_histogram_nil (bins : nat) (hi : Z) : np_histogram bins hi [] = np_zeros bins.
Proof. unfold np_histogram, np_zeros, bin_hits. simpl. apply map_const_seq. Qed.

Lemma Rsum_np_zeros (n : nat) : Rsum (np_zeros n) = 0%R.
Proof. unfold np_zeros. induction n as [|n IH]; simpl; [reflexivity | rewrite IH; lra]. Qed.

Lemma normalize_hist_zeros (n : nat) : normalize_hist (np_zeros n) = np_zeros n.
Proof.
  unfold normalize_hist. rewrite Rsum_np_zeros.
  destruct (Rlt_dec 0 0) as [H|_]; [lra | reflexivity].
Qed.

Lemma length_normalize_hist (hist : list R) : length (normalize_hist hist) = length hist.
Proof.
  unfold normalize_hist. destruct (Rlt_dec 0 (Rsum hist)); [apply length_map | reflexivity].
Qed.

Lemma Rsum_normalize_hist (hist : list R) :
  (0 < Rsum hist)%R -> Rsum (normalize_hist hist) = 1%R.
Proof.
  intros Hpos. unfold normalize_hist.
  destruct (Rlt_dec 0 (Rsum hist)) as [_|H]; [|contradiction].
  rewrite Rsum_map_div. field. lra.
Qed.

(** The interior *)

Lemma length_py_range (a b : Z) : length (py_range a b) = Z.to_nat (b - a).
Proof. unfold py_range. rewrite length_map, length_seq. reflexivity. Qed.

Lemma in_py_range (a b x : Z) : In x (py_range a b) <-> (a <= x < b)%Z.
Proof.
  unfold py_range. rewrite in_map_iff. split.
  - intros [k [<- Hk]]. apply in_seq in Hk. lia.
  - intros H. exists (Z.to_nat (x - a)). split; [lia|]. apply in_seq. lia.
Qed.

Lemma length_flat_map_const {A B : Type} (f : A -> list B) (l : list A) (m : nat) :
  (forall x, length (f x) = m) -> length (flat_map f l) = length l * m.
Proof.
  intros Hf. induction l as [|x l IH]; simpl; [reflexivity|].
  rewrite length_app, Hf, IH. reflexivity.
Qed.

Lemma length_lbp_image (image : Gray) (height width : Z) (radius points : nat) :
  length (lbp_image image height width radius points)
  = Z.to_nat (height - 2 * Z.of_nat radius) * Z.to_nat (width - 2 * Z.of_nat radius).
Proof.
  unfold lbp_image.
  rewrite (length_flat_map_const _ _ (Z.to_nat (width - 2 * Z.of_nat radius))).
  - rewrite length_py_range. f_equal. f_equal. lia.
  - intros i. rewrite length_map, length_py_range. f_equal. lia.
Qed.

Lemma lbp_image_range (image : Gray) (height width : Z) (radius points : nat) :
  Forall (fun c => (0 <= c < 256)%Z) (lbp_image image height width radius points).
Proof.
  unfold lbp_image. apply Forall_forall. intros c Hc.
  apply list_elem_of_In in Hc.
  apply in_flat_map in Hc as [i [_ Hc]]. apply in_map_iff in Hc as [j [<- _]].
  apply Z.mod_pos_bound. lia.
Qed.

Lemma bin_index_256 (x : Z) :
  (0 <= x < 256)%Z -> bin_index 256 256 x = Some (Z.to_nat x).
Proof.
  intros Hx. unfold bin_index.
  destruct (Z.leb_spec 0 x); [|lia]. destruct (Z.leb_spec x 256); [|lia]. simpl andb.
  destruct (Z.eqb_spec x 256); [lia|].
  change (Z.of_nat 256) with 256%Z. rewrite Z.div_mul by lia. reflexivity.
Qed.

Lemma bin_hits_256 (v : nat) (codes : list Z) :
  v < 256 -> Forall (fun c => (0 <= c < 256)%Z) codes ->
  bin_hits 256 256 v codes = occurrences (Z.of_nat v) codes.
Proof.
  intros Hv Hall. unfold bin_hits, occurrences. f_equal.
  induction Hall as [|c codes Hc _ IH]; [reflexivity|].
  simpl. rewrite IH. unfold in_bin. rewrite bin_index_256 by exact Hc.
  destruct (Nat.eqb_spec (Z.to_nat c) v), (Z.eqb_spec (Z.of_nat v) c); try lia; reflexivity.
Qed.

Lemma extract_lbp_features_degenerate (image : Gray) (radius points : nat) :
  (forall height width, gshape image = [height; width] ->
     (height <= 2 * Z.of_nat radius)%Z \/ (width <= 2 * Z.of_nat radius)%Z) ->
  extract_lbp_features image radius points = np_zeros 256.
Proof.
  intros Hdeg. unfold extract_lbp_features, lbp_try.
  destruct (gshape image) as [|height [|width [|? ?]]]; try reflexivity.
  destruct ((height - 2 * Z.of_nat radius <? 0)%Z || (width - 2 * Z.of_nat radius <? 0)%Z) eqn:E;
    [reflexivity|].
  apply orb_false_elim in E as [Eh Ew].
  apply Z.ltb_ge in Eh, Ew.
  assert (Hnil : lbp_image image height width radius points = []).
  { apply length_zero_iff_nil. rewrite length_lbp_image.
    destruct (Hdeg height width eq_refl) as [H|H].
    - replace (height - 2 * Z.of_nat radius)%Z with 0%Z by lia. reflexivity.
    - replace (width - 2 * Z.of_nat radius)%Z with 0%Z by lia. simpl. lia. }
  rewrite Hnil, np_histogram_nil. apply normalize_hist_zeros.
Qed.

Lemma sin_PI8_bounds : (0 < sin (PI / 8) < 1 / 2)%R.
Proof.
  pose proof PI_RGT_0 as Hpi. split.
  - apply sin_gt_0; lra.
  - rewrite <- sin_PI6. apply sin_increasing_1; lra.
Qed.

Lemma cos_PI4_bounds : (1 / 2 < cos (PI / 4) < 1)%R.
Proof.
  pose proof PI_RGT_0 as Hpi. split.
  - rewrite <- cos_PI3. apply cos_decreasing_1; lra.
  - rewrite <- cos_0. apply cos_decreasing_1; lra.
Qed.

Lemma sin_PI4_bounds : (1 / 2 < sin (PI / 4) < 1)%R.
Proof.
  pose proof PI_RGT_0 as Hpi. split.
  - rewrite <- sin_PI6. apply sin_increasing_1; lra.
  - rewrite <- sin_PI2. apply sin_increasing_1; lra.
Qed.

Lemma lbp_angle_16 (k : nat) : lbp_angle 16 k = (INR k * (PI / 8))%R.
Proof. unfold lbp_angle. simpl (INR 16). lra. Qed.

(** Cosine and sine at the multiples 3, 5, 6 and 7 of [pi / 8]. *)
Lemma cos_sin_eighths :
  cos (3 * (PI / 8)) = sin (PI / 8) /\ sin (3 * (PI / 8)) = cos (PI / 8) /\
  cos (5 * (PI / 8)) = (- sin (PI / 8))%R /\ sin (5 * (PI / 8)) = cos (PI / 8) /\
  cos (6 * (PI / 8)) = (- cos (PI / 4))%R /\ sin (6 * (PI / 8)) = sin (PI / 4) /\
  cos (7 * (PI / 8)) = (- cos (PI / 8))%R /\ sin (7 * (PI / 8)) = sin (PI / 8).
Proof.
  replace (3 * (PI / 8))%R with (PI / 2 - PI / 8)%R by lra.
  replace (5 * (PI / 8))%R with (PI / 2 + PI / 8)%R by lra.
  replace (6 * (PI / 8))%R with (PI - PI / 4)%R by lra.
  replace (7 * (PI / 8))%R with (PI - PI / 8)%R by lra.
  rewrite !cos_minus, !sin_minus, cos_plus, sin_plus, cos_PI2, sin_PI2, cos_PI, sin_PI.
  repeat split; lra.
Qed.

(** At radius 2 and 16 points the first eight circle points of a pixel
    with [2 <= i] and [2 <= j] truncate to the neighbours of the table; none
    of them lies within 0.15 of an integer coordinate except those that are
    integers. *)
Lemma sample_neighbour (i j : Z) (k : nat) :
  (2 <= i)%Z -> (2 <= j)%Z -> k < 8 ->
  sample_y 2 16 i k = (i + fst (lbp_neighbour k))%Z /\
  sample_x 2 16 j k = (j + snd (lbp_neighbour k))%Z.
Proof.
  intros Hi Hj Hk.
  pose proof cos_PI8_bounds as C8. pose proof sin_PI8_bounds as S8.
  pose proof cos_PI4_bounds as C4. pose proof sin_PI4_bounds as S4.
  destruct cos_sin_eighths as (E3c & E3s & E5c & E5s & E6c & E6s & E7c & E7s).
  assert (Hi' : (2 <= IZR i)%R) by (apply (IZR_le 2); exact Hi).
  assert (Hj' : (2 <= IZR j)%R) by (apply (IZR_le 2); exact Hj).
  unfold sample_y, sample_x. rewrite lbp_angle_16. change (INR 2) with 2%R.
  destruct k as [|[|[|[|[|[|[|[|k]]]]]]]]; [..|lia]; cbn [lbp_neighbour nth fst snd];
    simpl (INR _).
  all: split; apply py_int_floor; rewrite ?plus_IZR; simpl (IZR _).
  all: try replace (0 * (PI / 8))%R with 0%R by lra.
  all: try replace (1 * (PI / 8))%R with (PI / 8)%R by lra.
  all: try replace ((1 + 1) * (PI / 8))%R with (PI / 4)%R by lra.
  all: try replace ((1 + 1 + 1) * (PI / 8))%R with (3 * (PI / 8))%R by lra.
  all: try replace ((1 + 1 + 1 + 1) * (PI / 8))%R with (PI / 2)%R by lra.
  all: try replace ((1 + 1 + 1 + 1 + 1) * (PI / 8))%R with (5 * (PI / 8))%R by lra.
  all: try replace ((1 + 1 + 1 + 1 + 1 + 1) * (PI / 8))%R with (6 * (PI / 8))%R by lra.
  all: try replace ((1 + 1 + 1 + 1 + 1 + 1 + 1) * (PI / 8))%R with (7 * (PI / 8))%R by lra.
  all: rewrite ?cos_0, ?sin_0, ?cos_PI2, ?sin_PI2, ?E3c, ?E3s, ?E5c, ?E5s, ?E6c, ?E6s,
         ?E7c, ?E7s; lra.
Qed.

(** C8 (as the code has it): with radius 2 and 16 points, the values with
    which the descriptor is called, and a grey image higher and wider than
    4 (and of a size below 2^31, as OpenCV's arrays are), the code of every
    interior pixel is stored modulo 256; bit [k] of the stored code is set
    exactly when [k < 8] and the neighbour [lbp_neighbour k] of the pixel is
    at least as bright as the centre, and that neighbour is the pixel at row
    [int(i - 2 sin(2 pi k / 16))], column [int(j + 2 cos(2 pi k / 16))],
    [int] truncating toward zero; the result has 256 entries that sum to 1,
    entry [v] being the share of interior pixels whose stored code is [v];
    for every radius and number of points, an array that is not
    two-dimensional or not higher and wider than [2 * radius] gives the zero
    vector of length 256. *)
Theorem texture_descriptor_histogram :
  (forall (image : Gray) (height width : Z),
      gshape image = [height; width] ->
      (4 < height < 2 ^ 31)%Z ->
      (4 < width < 2 ^ 31)%Z ->
      let hist := extract_lbp_features image 2 16 in
      let codes := lbp_image image height width 2 16 in
      (forall i j : Z,
          (2 <= i < height - 2)%Z ->
          (2 <= j < width - 2)%Z ->
          let stored := (lbp_code image height width 2 16 i j mod 256)%Z in
          In stored codes /\
          (0 <= stored < 256)%Z /\
          (forall k : nat,
              Z.testbit stored (Z.of_nat k)
              = (k <? 8)
                && (gpix image i j
                    <=? gpix image (i + fst (lbp_neighbour k))
                                   (j + snd (lbp_neighbour k)))%Z) /\
          (forall k : nat, k < 8 ->
              (i + fst (lbp_neighbour k))%Z
              = py_int (IZR i - 2 * sin (2 * PI * INR k / 16)) /\
              (j + snd (lbp_neighbour k))%Z
              = py_int (IZR j + 2 * cos (2 * PI * INR k / 16)))) /\
      length codes = Z.to_nat (height - 4) * Z.to_nat (width - 4) /\
      length hist = 256 /\
      Rsum hist = 1%R /\
      forall v : nat, v < 256 ->
        hist !! v = Some (INR (occurrences (Z.of_nat v) codes) / INR (length codes))%R) /\
  (forall (image : Gray) (radius points : nat),
      (forall height width, gshape image = [height; width] ->
         (height <= 2 * Z.of_nat radius)%Z \/ (width <= 2 * Z.of_nat radius)%Z) ->
      extract_lbp_features image radius points = np_zeros 256).
Proof.
  split; [|apply extract_lbp_features_degenerate].
  intros image height width Hshape Hh Hw hist codes.
  assert (Hlen : length codes = Z.to_nat (height - 4) * Z.to_nat (width - 4))
    by apply (length_lbp_image image height width 2 16).
  assert (Hpos : (0 < INR (length codes))%R).
  { apply lt_0_INR. rewrite Hlen. apply Nat.mul_pos_pos; lia. }
  assert (Hrange : Forall (fun c => (0 <= c < 256)%Z) codes) by apply lbp_image_range.
  assert (Hsum : Rsum (np_histogram 256 256 codes) = INR (length codes)).
  { apply Rsum_np_histogram. eapply Forall_impl; [exact Hrange|].
    intros c Hc. cbv beta in Hc. exists (Z.to_nat c).
    split; [apply bin_index_256, Hc | lia]. }
  assert (Hhist : hist = normalize_hist (np_histogram 256 256 codes)).
  { subst hist codes. unfold extract_lbp_features, lbp_try. rewrite Hshape.
    destruct (Z.ltb_spec (height - 2 * Z.of_nat 2) 0); [lia|].
    destruct (Z.ltb_spec (width - 2 * Z.of_nat 2) 0); [lia|]. reflexivity. }
  split; [|repeat split].
  - intros i j Hi Hj stored. subst stored. split; [|split; [|split]].
    + subst codes. unfold lbp_image. apply in_flat_map. exists i. split.
      * apply in_py_range. lia.
      * apply in_map_iff. exists j. split; [reflexivity | apply in_py_range; lia].
    + apply Z.mod_pos_bound. lia.
    + intros k. change 256%Z with (2 ^ 8)%Z.
      destruct (Nat.ltb_spec k 8) as [Hk|Hk].
      * rewrite Z.mod_pow2_bits_low by lia.
        rewrite lbp_code_testbit. unfold lbp_bit.
        rewrite interior_in_image by (simpl Z.of_nat; lia).
        destruct (sample_neighbour i j k ltac:(lia) ltac:(lia) Hk) as [-> ->].
        destruct (Nat.ltb_spec k 16); [reflexivity | lia].
      * rewrite Z.mod_pow2_bits_high by lia. reflexivity.
    + intros k Hk.
      destruct (sample_neighbour i j k ltac:(lia) ltac:(lia) Hk) as [Hy Hx].
      assert (H16 : INR 16 = 16%R) by (simpl; lra).
      rewrite <- Hy, <- Hx. unfold sample_y, sample_x, lbp_angle.
      rewrite H16. change (INR 2) with 2%R. split; reflexivity.
  - exact Hlen.
  - rewrite Hhist, length_normalize_hist. apply length_np_histogram.
  - rewrite Hhist. apply Rsum_normalize_hist. rewrite Hsum. exact Hpos.
  - intros v Hv. rewrite Hhist. unfold normalize_hist.
    rewrite Hsum.
    destruct (Rlt_dec 0 (INR (length codes))) as [_|Hn]; [|contradiction].
    rewrite list_lookup_fmap, np_histogram_lookup by exact Hv.
    rewrite bin_hits_256 by assumption. reflexivity.
Qed.

(** C8, counterexample: with radius 2 and 16 points, the second sample
    point of the pixel in column 2 has abscissa [2 + 2 cos(pi / 8)], which
    is above 3.5, so that its nearest pixel column is 4; the column read is
    3. *)
Lemma lbp_sample_not_nearest :
  sample_x 2 16 2 1 = 3%Z /\
  (IZR (sample_x 2 16 2 1) + 1 / 2 < IZR 2 + INR 2 * cos (2 * PI * INR 1 / INR 16))%R.
Proof.
  split; [apply sample_x_k1|]. rewrite sample_x_k1.
  simpl INR.
  replace (2 * PI * 1 / (1+1+1+1+1+1+1+1+1+1+1+1+1+1+1+1))%R with (PI / 8)%R by lra.
  pose proof cos_PI8_bounds as [Hlo Hhi]. lra.
Qed.

(** ** Feature extractor *)

Lemma length_extract_lbp_features (gray : Gray) (radius points : nat) :
  length (extract_lbp_features gray radius points) = 256.
Proof.
  unfold extract_lbp_features, lbp_try.
  destruct (gshape gray) as [|height [|width [|? ?]]]; try apply repeat_length.
  destruct (_ || _); [apply repeat_length|].
  rewrite length_normalize_hist. apply length_np_histogram.
Qed.

Lemma extract_lbp_features_raised (gray : Gray) (radius points : nat) :
  lbp_try gray radius points = None -> extract_lbp_features gray radius points = np_zeros 256.
Proof. intros H. unfold extract_lbp_features. rewrite H. reflexivity. Qed.

Lemma color_features_all (cv : Vision) (fr : Image) (h0 h1 h2 : list R) :
  color_hist cv fr 0 = Hist h0 -> color_hist cv fr 1 = Hist h1 -> color_hist cv fr 2 = Hist h2 ->
  color_features cv fr (seq 0 3) [] = Some (h0 ++ h1 ++ h2).
Proof.
  intros H0 H1 H2. simpl. rewrite H0, H1, H2. rewrite <- app_assoc. reflexivity.
Qed.

Lemma color_features_raised (cv : Vision) (fr : Image) (channels : list nat) (features : list R) :
  (exists channel, In channel channels /\ color_hist cv fr channel = HistRaised) ->
  color_features cv fr channels features = None.
Proof.
  revert features. induction channels as [|c rest IH]; intros features [ch [Hin Hr]].
  - destruct Hin.
  - simpl. destruct Hin as [->|Hin].
    + rewrite Hr. reflexivity.
    + destruct (color_hist cv fr c); [reflexivity | apply IH; eauto | apply IH; eauto].
Qed.

(** C3 (as the code has it): inside the fallback path only the texture
    descriptor turns its own failure into zeros: when the resize, the three
    colour histograms, the grey conversion and the edge detector succeed,
    the result is the 372-long feature-based vector whose texture segment is
    [np.zeros(256)] if the texture descriptor raised; when any of those
    other steps raises, the fallback path yields nothing and, the embedding
    path having produced nothing either, the extractor returns
    [(None, 'error')]. *)
Theorem fallback_zero_fills_texture_only :
  (forall (cv : Vision) (im fr : Image) (h0 h1 h2 : list R) (gray : Gray) (edges : list Z),
      cv_resize cv im = Some fr ->
      color_hist cv fr 0 = Hist h0 -> color_hist cv fr 1 = Hist h1 ->
      color_hist cv fr 2 = Hist h2 ->
      length h0 = 32 -> length h1 = 32 -> length h2 = 32 ->
      to_gray cv fr = Some gray ->
      canny cv gray = Some edges ->
      exists texture edge_hist,
        fallback_encoding cv im = Some (h0 ++ h1 ++ h2 ++ texture ++ edge_hist) /\
        length texture = 256 /\ length edge_hist = 20 /\
        length (h0 ++ h1 ++ h2 ++ texture ++ edge_hist) = 372 /\
        (lbp_try gray 2 16 = None -> texture = np_zeros 256)) /\
  (forall (cv : Vision) (im : Image),
      fallback_raises cv im ->
      fallback_encoding cv im = None /\
      (size im <> 0%Z ->
       (forall e es, face_encodings cv im <> Encodings (e :: es)) ->
       extract_face_encoding cv (Some im) = (None, error))).
Proof.
  split.
  - intros cv im fr h0 h1 h2 gray edges Hres H0 H1 H2 L0 L1 L2 Hgray Hcanny.
    exists (extract_lbp_features gray 2 16), (normalize_hist (np_histogram 20 256 edges)).
    assert (Lt : length (extract_lbp_features gray 2 16) = 256)
      by apply length_extract_lbp_features.
    assert (Le : length (normalize_hist (np_histogram 20 256 edges)) = 20)
      by (rewrite length_normalize_hist; apply length_np_histogram).
    repeat split.
    + unfold fallback_encoding.
      rewrite Hres, (color_features_all cv fr h0 h1 h2 H0 H1 H2), Hgray, Hcanny.
      rewrite <- !app_assoc. reflexivity.
    + exact Lt.
    + exact Le.
    + rewrite !length_app, L0, L1, L2, Lt, Le. reflexivity.
    + apply extract_lbp_features_raised.
  - intros cv im Hraise.
    assert (Hnone : fallback_encoding cv im = None).
    { unfold fallback_encoding.
      destruct Hraise as [Hres | [fr [Hres [[ch [Hch Hr]] | [Hgray | [gray [Hgray Hcanny]]]]]]].
      - rewrite Hres. reflexivity.
      - rewrite Hres, color_features_raised; [reflexivity|].
        exists ch. split; [apply in_seq; lia | exact Hr].
      - rewrite Hres. destruct (color_features _ _ _ _); [|reflexivity].
        rewrite Hgray. reflexivity.
      - rewrite Hres. destruct (color_features _ _ _ _); [|reflexivity].
        rewrite Hgray, Hcanny. reflexivity. }
    split; [exact Hnone|].
    intros Hsize Hemb. unfold extract_face_encoding.
    destruct (Z.eqb_spec (size im) 0); [contradiction|].
    rewrite Hnone.
    destruct (face_encodings cv im) as [| |[|e es]]; try reflexivity.
    exfalso. eapply Hemb. reflexivity.
Qed.

(** ** Enrollment *)

Lemma Method_eqb_eq (a b : Method) : Method_eqb a b = true <-> a = b.
Proof. destruct a, b; simpl; split; congruence. Qed.

Lemma extract_face_encoding_method (cv : Vision) (im : option Image) (e : Encoding) (m : Method) :
  extract_face_encoding cv im = (Some e, m) -> m = deep_learning \/ m = feature_based.
Proof.
  unfold extract_face_encoding. intros H.
  destruct im as [im|]; [|discriminate].
  destruct (size im =? 0)%Z; [discriminate|].
  destruct (face_encodings cv im) as [| |[|e0 es]];
    destruct (fallback_encoding cv im); inversion H; auto.
Qed.

(** What one turn of the loop can do to the samples. *)
Lemma enroll_step_cases (cv : Vision) (st : System) (p : Poll)
    (samples samples' : list Sample) (n n' : Z) :
  enroll_step cv st p samples n = StepNext samples' n' ->
  (samples' = samples /\ n' = n) \/
  exists frame x y w h rest e m,
    capture_frame st (cam_read p) = Some frame /\
    detect_faces cv frame = (x, y, w, h) :: rest /\
    (0 < size (crop frame x y w h))%Z /\ (100 < w)%Z /\ (100 < h)%Z /\
    extract_face_encoding cv (Some (crop frame x y w h)) = (Some e, m) /\
    samples' = samples ++ [(e, m)] /\ n' = (n + 1)%Z.
Proof.
  unfold enroll_step. intros H.
  destruct (30 <? elapsed p)%Z; [discriminate|].
  destruct (capture_frame st (cam_read p)) as [frame|]; [|inversion H; auto].
  destruct (detect_faces cv frame) as [|[[[x y] w] h] rest] eqn:Hdet; [inversion H; auto|].
  destruct (Z.ltb_spec 0 (size (crop frame x y w h))); [|inversion H; auto].
  destruct (Z.ltb_spec 100 w); [|inversion H; auto].
  destruct (Z.ltb_spec 100 h); [|inversion H; auto].
  cbn [andb] in H.
  destruct (extract_face_encoding cv (Some (crop frame x y w h))) as [[e|] m] eqn:He;
    [|inversion H; auto].
  inversion H; subst. right. exists frame, x, y, w, h, rest, e, m.
  repeat split; auto.
Qed.

Lemma collect_invariant (cv : Vision) (st : System) (num_samples : Z) (polls : list Poll) :
  forall (samples : list Sample) (n : Z) (result : list Sample),
    Forall valid_sample samples -> n = Z.of_nat (length samples) ->
    collect cv st num_samples polls samples n = Some (Collected result) ->
    Forall valid_sample result /\ (num_samples <= Z.of_nat (length result))%Z /\
    (result = [] -> samples = []).
Proof.
  induction polls as [|p rest IH]; intros samples n result Hvalid Hn Hrun; simpl in Hrun.
  - destruct (Z.ltb_spec n num_samples); [discriminate|].
    inversion Hrun; subst. auto with lia.
  - destruct (Z.ltb_spec n num_samples).
    + destruct (enroll_step cv st p samples n) as [|samples' n'] eqn:Hstep; [discriminate|].
      apply enroll_step_cases in Hstep
        as [[-> ->] | (frame & x & y & w & h & bs & e & m & _ & _ & _ & _ & _ & He & -> & ->)].
      * apply (IH samples n result); assumption.
      * destruct (IH (samples ++ [(e, m)]) (n + 1)%Z result) as (Hv & Hc & Hnil); auto.
        -- apply Forall_app. split; [assumption|].
           constructor; [|constructor]. eapply extract_face_encoding_method, He.
        -- rewrite length_app. simpl. lia.
        -- repeat split; auto. intros ->. specialize (Hnil eq_refl).
           destruct samples; discriminate.
    + inversion Hrun; subst. auto with lia.
Qed.

Lemma existsb_filter_nil {A : Type} (f : A -> bool) (l : list A) :
  existsb f l = match List.filter f l with [] => false | _ :: _ => true end.
Proof.
  induction l as [|x l IH]; simpl; [reflexivity|].
  destruct (f x); simpl; [reflexivity | exact IH].
Qed.

Lemma filter_valid_nil (samples : list Sample) :
  Forall valid_sample samples ->
  List.filter (fun s => Method_eqb (snd s) deep_learning) samples = [] ->
  List.filter (fun s => Method_eqb (snd s) feature_based) samples = samples.
Proof.
  induction 1 as [|[e m] l Hs _ IH]; simpl; [reflexivity|].
  destruct Hs as [Hs|Hs]; simpl in Hs; subst m; simpl; [discriminate|].
  intros H. f_equal. apply IH, H.
Qed.

Lemma known_faces_store_identity (st : System) (u : string) (avg : Encoding) (m : Method)
    (samples : list Sample) (t1 t2 : string) :
  known_faces (store_identity st u avg m samples t1 t2)
  = <[u := mkIdentity avg m (length samples) t1]> (known_faces st).
Proof.
  unfold store_identity, log_verification.
  destruct (Nat.eqb _ 0); reflexivity.
Qed.

Lemma commit_true (st st' : System) (u : string) (samples : list Sample) (t1 t2 : string) :
  Forall valid_sample samples ->
  commit st u samples t1 t2 = (Returned true, st') ->
  samples <> [] /\
  exists avg_encoding,
    np_mean (tagged (preferred_method samples) samples) = Some avg_encoding /\
    st' = store_identity st u avg_encoding (preferred_method samples) samples t1 t2.
Proof.
  intros Hvalid H. unfold commit in H.
  destruct samples as [|s0 l]; [discriminate|].
  cbv beta iota zeta in H.
  split; [discriminate|].
  remember (s0 :: l) as samples eqn:Hs.
  unfold preferred_method, tagged. rewrite existsb_filter_nil.
  destruct (List.filter (fun s => Method_eqb (snd s) deep_learning) samples)
    as [|d ds] eqn:Hdl.
  - simpl in H. rewrite (filter_valid_nil samples Hvalid Hdl) in *.
    destruct (map fst samples) as [|v vs] eqn:Hmap; [subst samples; discriminate|].
    destruct (np_mean (v :: vs)) as [avg|] eqn:Hm; [|discriminate].
    inversion H. exists avg. cbv iota.
    rewrite ?(filter_valid_nil samples Hvalid Hdl), ?Hmap, ?Hm. split; reflexivity.
  - simpl map in H. cbv iota in H.
    destruct (np_mean (fst d :: map fst ds)) as [avg|] eqn:Hm; [|discriminate].
    inversion H. exists avg. cbv iota. rewrite Hdl. split; [exact Hm | reflexivity].
Qed.

(** C1 (as the code has it): a committed enrollment stores the tag
    [deep_learning] as soon as one contributing sample carries it and
    [feature_based] otherwise, together with the mean of the samples of that
    tag and the number of all samples; an enrollment that times out or ends
    with no sample returns [False] and leaves the whole state as it was. *)
Theorem register_user_method_tag (cv : Vision) (st : System) (username : string)
    (num_samples : Z) (polls : list Poll) (t_registered t_logged : string) :
  (forall st',
      register_user cv st username num_samples polls t_registered t_logged
      = Some (Returned true, st') ->
      exists samples avg_encoding,
        collect cv st num_samples polls [] 0 = Some (Collected samples) /\
        samples <> [] /\
        Forall valid_sample samples /\
        np_mean (tagged (preferred_method samples) samples) = Some avg_encoding /\
        known_faces st' !! username
        = Some (mkIdentity avg_encoding (preferred_method samples) (length samples)
                           t_registered)) /\
  (forall out st',
      register_user cv st username num_samples polls t_registered t_logged = Some (out, st') ->
      collect cv st num_samples polls [] 0 = Some TimedOut \/
      collect cv st num_samples polls [] 0 = Some (Collected []) ->
      out = Returned false /\ st' = st).
Proof.
  split.
  - intros st' H. unfold register_user in H.
    destruct (camera_available st); simpl in H; [|discriminate].
    destruct (collect cv st num_samples polls [] 0) as [[|samples]|] eqn:Hc; try discriminate.
    inversion H as [Hcommit]. clear H.
    destruct (collect_invariant cv st num_samples polls [] 0 samples) as (Hvalid & _ & _);
      auto.
    destruct (commit_true st st' username samples t_registered t_logged Hvalid Hcommit)
      as (Hne & avg & Hmean & ->).
    exists samples, avg. repeat split; auto.
    rewrite known_faces_store_identity. apply lookup_insert_eq.
  - intros out st' H Hc. unfold register_user in H.
    destruct (camera_available st); simpl in H; [|inversion H; auto].
    destruct Hc as [Hc|Hc]; rewrite Hc in H; inversion H; auto.
Qed.

Lemma register_enroll_polls :
  register_user studio fresh "alice" 3 enroll_polls "t1" "t2"
  = Some (Returned true, alice_enrolled).
Proof. vm_compute. reflexivity. Qed.

Lemma register_user_method_tag_witness :
  exists samples avg_encoding,
    collect studio fresh 3 enroll_polls [] 0 = Some (Collected samples) /\
    samples <> [] /\
    Forall valid_sample samples /\
    np_mean (tagged (preferred_method samples) samples) = Some avg_encoding /\
    known_faces alice_enrolled !! "alice"%string
    = Some (mkIdentity avg_encoding (preferred_method samples) (length samples) "t1").
Proof.
  apply (proj1 (register_user_method_tag studio fresh "alice" 3 enroll_polls "t1" "t2")
               alice_enrolled).
  vm_compute. reflexivity.
Defined.

Lemma collect_enroll_polls :
  collect studio fresh 3 enroll_polls [] 0 = Some (Collected enroll_samples).
Proof. vm_compute. reflexivity. Qed.

(** C1, counterexample: of three contributing samples one is an embedding
    and two are feature-based; the majority is feature-based, the committed
    tag is [deep_learning]. *)
Lemma majority_method_not_committed :
  exists ident,
    register_user studio fresh "alice" 3 enroll_polls "t1" "t2"
    = Some (Returned true, alice_enrolled) /\
    collect studio fresh 3 enroll_polls [] 0 = Some (Collected enroll_samples) /\
    known_faces alice_enrolled !! "alice"%string = Some ident /\
    majority_method enroll_samples = feature_based /\
    method ident = deep_learning /\
    method ident <> majority_method enroll_samples.
Proof.
  eexists. split; [apply register_enroll_polls|].
  split; [apply collect_enroll_polls|].
  split.
  - unfold alice_enrolled. rewrite known_faces_store_identity. apply lookup_insert_eq.
  - repeat split; simpl; discriminate.
Qed.

Lemma crop_inside (frame : Image) (x y w h : Z) :
  (0 <= x)%Z -> (0 <= y)%Z -> (0 <= w)%Z -> (0 <= h)%Z ->
  (x + w <= cols frame)%Z -> (y + h <= rows frame)%Z ->
  rows (crop frame x y w h) = h /\ cols (crop frame x y w h) = w.
Proof.
  intros Hx Hy Hw Hh Hc Hr. unfold crop, slice_bound. simpl.
  destruct (Z.ltb_spec y 0), (Z.ltb_spec (y + h) 0), (Z.ltb_spec x 0), (Z.ltb_spec (x + w) 0);
    try lia.
Qed.

(** C6 (as the code has it): the first detection alone is looked at; when
    its box is at most 100 wide or at most 100 high the turn records
    nothing; when it is more than 100 in both dimensions (and the crop is
    not empty) the crop goes to the feature extractor and is recorded
    exactly when an encoding comes back; so every recorded sample comes from
    a box wider and higher than 100, whose crop has the size of the box
    when the box lies inside the frame. *)
Theorem enroll_step_size_gate (cv : Vision) (st : System) (p : Poll)
    (samples : list Sample) (n : Z) (frame : Image) (x y w h : Z)
    (rest : list (Z * Z * Z * Z)) :
  (elapsed p <= 30)%Z ->
  capture_frame st (cam_read p) = Some frame ->
  detect_faces cv frame = (x, y, w, h) :: rest ->
  ((w <= 100)%Z \/ (h <= 100)%Z -> enroll_step cv st p samples n = StepNext samples n) /\
  ((100 < w)%Z -> (100 < h)%Z -> (0 < size (crop frame x y w h))%Z ->
   enroll_step cv st p samples n
   = match extract_face_encoding cv (Some (crop frame x y w h)) with
     | (Some encoding, method) => StepNext (samples ++ [(encoding, method)]) (n + 1)%Z
     | (None, _) => StepNext samples n
     end) /\
  (forall samples' n',
      enroll_step cv st p samples n = StepNext samples' n' ->
      samples' <> samples ->
      (100 < w)%Z /\ (100 < h)%Z /\
      (exists encoding method,
          extract_face_encoding cv (Some (crop frame x y w h)) = (Some encoding, method) /\
          samples' = samples ++ [(encoding, method)]) /\
      ((0 <= x)%Z -> (0 <= y)%Z -> (x + w <= cols frame)%Z -> (y + h <= rows frame)%Z ->
       (100 < rows (crop frame x y w h))%Z /\ (100 < cols (crop frame x y w h))%Z)).
Proof.
  intros Ht Hcap Hdet.
  assert (Hstep : enroll_step cv st p samples n
                  = if (0 <? size (crop frame x y w h))%Z then
                      if (100 <? w)%Z && (100 <? h)%Z then
                        match extract_face_encoding cv (Some (crop frame x y w h)) with
                        | (Some encoding, method) =>
                            StepNext (samples ++ [(encoding, method)]) (n + 1)%Z
                        | (None, _) => StepNext samples n
                        end
                      else StepNext samples n
                    else StepNext samples n).
  { unfold enroll_step. destruct (Z.ltb_spec 30 (elapsed p)); [lia|].
    rewrite Hcap, Hdet. reflexivity. }
  split; [|split].
  - intros Hsmall. rewrite Hstep.
    destruct (0 <? size (crop frame x y w h))%Z; [|reflexivity].
    destruct (Z.ltb_spec 100 w), (Z.ltb_spec 100 h); try reflexivity. lia.
  - intros Hw Hh Hsize. rewrite Hstep.
    destruct (Z.ltb_spec 0 (size (crop frame x y w h))); [|lia].
    destruct (Z.ltb_spec 100 w); [|lia]. destruct (Z.ltb_spec 100 h); [|lia]. reflexivity.
  - intros samples' n' Hrun Hneq.
    apply enroll_step_cases in Hrun
      as [[-> _] | (frame' & x' & y' & w' & h' & rest' & e & m & Hcap' & Hdet' & Hsz & Hw & Hh
                    & He & -> & _)];
      [contradiction|].
    rewrite Hcap in Hcap'. inversion Hcap'; subst frame'.
    rewrite Hdet in Hdet'. inversion Hdet'; subst x' y' w' h' rest'.
    repeat split; try assumption.
    + exists e, m. auto.
    + destruct (crop_inside frame x y w h) as [-> _]; try lia.
    + destruct (crop_inside frame x y w h) as [_ ->]; try lia.
Qed.

Lemma enroll_step_size_gate_witness :
  enroll_step studio fresh (mkPoll 0 (Some (scene 200 200 5))) [] 0
  = match extract_face_encoding studio (Some (crop (scene 200 200 5) 0 0 200 200)) with
    | (Some encoding, method) => StepNext ([] ++ [(encoding, method)]) (0 + 1)%Z
    | (None, _) => StepNext [] 0
    end.
Proof.
  apply (proj1 (proj2 (enroll_step_size_gate studio fresh (mkPoll 0 (Some (scene 200 200 5)))
                         [] 0 (scene 200 200 5) 0 0 200 200 []
                         ltac:(simpl; lia) eq_refl eq_refl)));
    [lia | lia | vm_compute; reflexivity].
Defined.

(** C6, counterexample: the first detection is a box of exactly 100 x 100,
    which is not smaller than 100 in either dimension and from whose crop
    the extractor does deliver an encoding; the turn records no sample. *)
Lemma box_of_exactly_100_is_rejected :
  let frame := scene 100 100 5 in
  detect_faces studio frame = [(0, 0, 100, 100)%Z] /\
  ~ ((100 < 100)%Z \/ (100 < 100)%Z) /\
  extract_face_encoding studio (Some (crop frame 0 0 100 100))
  = (Some scene5_features, feature_based) /\
  enroll_step studio fresh (mkPoll 0 (Some frame)) [] 0 = StepNext [] 0.
Proof.
  split; [reflexivity|]. split; [lia|]. split; vm_compute; reflexivity.
Qed.

(** C2, counterexample: an enrollment whose first poll comes after 31
    seconds ends in the timeout; it returns [False] and the audit log is as
    empty as before, no failure event has been appended. *)
Lemma enrollment_timeout_is_not_logged :
  collect studio fresh 3 late_polls [] 0 = Some TimedOut /\
  register_user studio fresh "alice" 3 late_polls "t1" "t2" = Some (Returned false, fresh) /\
  verification_logs fresh = [] /\
  ~ (exists st' e,
        register_user studio fresh "alice" 3 late_polls "t1" "t2" = Some (Returned false, st')
        /\ In e (verification_logs st') /\ success e = false).
Proof.
  assert (H : register_user studio fresh "alice" 3 late_polls "t1" "t2"
              = Some (Returned false, fresh)) by reflexivity.
  repeat split; try reflexivity.
  intros (st' & e & Hrun & Hin & _). rewrite H in Hrun. inversion Hrun; subst st'.
  destruct Hin.
Qed.

(** ** Verification *)

Lemma verification_logs_log_verification (st : System) (t u a : string) (s : bool)
    (d : list (string * Value)) :
  verification_logs (log_verification st t u a s d)
  = verification_logs st ++ [mkLogEntry t u a s d].
Proof. unfold log_verification. destruct (Nat.eqb _ 0); reflexivity. Qed.

Lemma known_faces_log_verification (st : System) (t u a : string) (s : bool)
    (d : list (string * Value)) :
  known_faces (log_verification st t u a s d) = known_faces st.
Proof. unfold log_verification. destruct (Nat.eqb _ 0); reflexivity. Qed.

Lemma py_min_inf_r (best : Dist) : py_min best Inf = best.
Proof.
  unfold py_min. destruct (dist_ltd_dec Inf best) as [H|_]; [destruct H | reflexivity].
Qed.

Lemma py_min_inf_l (d : Dist) : py_min Inf d = d.
Proof.
  unfold py_min. destruct (dist_ltd_dec d Inf) as [_|H]; [reflexivity|].
  destruct d; [exfalso; apply H; exact I | reflexivity].
Qed.

Section Attempts.
Variables (cv : Vision) (st : System) (username : string) (user_data : Identity)
          (max_attempts : Z) (cam : nat -> option Image) (t_logged : string).

Let best := best_of_attempt cv st user_data cam.
Let run := verify_attempts cv st username user_data max_attempts cam t_logged.
Let accepted (k : nat) : System :=
  log_verification st t_logged username "verification" true
    [("distance"%string, VDist (best k))].
Let rejected : System :=
  log_verification st t_logged username "verification" false
    [("attempts"%string, VInt max_attempts)].

Lemma verify_attempts_cons (k : nat) (rest : list nat) :
  run (k :: rest)
  = if dist_lt_dec (best k) (threshold st) then (true, accepted k) else run rest.
Proof.
  unfold run, accepted, best, best_of_attempt. simpl.
  destruct (capture_frame st (cam k)) as [frame|].
  - reflexivity.
  - destruct (dist_lt_dec Inf (threshold st)) as [H|_]; [destruct H | reflexivity].
Qed.

Lemma verify_attempts_reject (attempts : list nat) :
  (forall k, In k attempts -> ~ dist_lt (best k) (threshold st)) ->
  run attempts = (false, rejected).
Proof.
  induction attempts as [|k rest IH]; intros Hno.
  - reflexivity.
  - rewrite verify_attempts_cons.
    destruct (dist_lt_dec (best k) (threshold st)) as [H|_].
    + exfalso. apply (Hno k); [left; reflexivity | exact H].
    + apply IH. intros j Hj. apply Hno. right. exact Hj.
Qed.

Lemma verify_attempts_accept (before after : list nat) (k : nat) :
  (forall j, In j before -> ~ dist_lt (best j) (threshold st)) ->
  dist_lt (best k) (threshold st) ->
  run (before ++ k :: after) = (true, accepted k).
Proof.
  intros Hno Hk. induction before as [|j before IH]; simpl app.
  - rewrite verify_attempts_cons.
    destruct (dist_lt_dec (best k) (threshold st)); [reflexivity | contradiction].
  - rewrite verify_attempts_cons.
    destruct (dist_lt_dec (best j) (threshold st)) as [H|_].
    + exfalso. apply (Hno j); [left; reflexivity | exact H].
    + apply IH. intros i Hi. apply Hno. right. exact Hi.
Qed.

Lemma verify_attempts_true (attempts : list nat) :
  fst (run attempts) = true <-> exists k, In k attempts /\ dist_lt (best k) (threshold st).
Proof.
  induction attempts as [|k rest IH].
  - split; [discriminate | intros (k & [] & _)].
  - rewrite verify_attempts_cons.
    destruct (dist_lt_dec (best k) (threshold st)) as [H|H].
    + split; [|reflexivity]. intros _. exists k. split; [left; reflexivity | exact H].
    + rewrite IH. split.
      * intros (j & Hj & Hd). exists j. split; [right; exact Hj | exact Hd].
      * intros (j & [->|Hj] & Hd); [contradiction|]. exists j. auto.
Qed.
End Attempts.

Lemma seq_split_at (n k : nat) : k < n -> seq 0 n = seq 0 k ++ k :: seq (S k) (n - S k).
Proof.
  intros Hk. replace n with (k + S (n - S k)) at 1 by lia.
  rewrite seq_app. reflexivity.
Qed.

Lemma verify_user_enrolled (cv : Vision) (st : System) (username : string)
    (user_data : Identity) (max_attempts : Z) (cam : nat -> option Image) (t : string) :
  known_faces st !! username = Some user_data ->
  camera_available st = true ->
  verify_user cv st username max_attempts cam t
  = verify_attempts cv st username user_data max_attempts cam t
      (seq 0 (Z.to_nat max_attempts)).
Proof. intros Hu Hc. unfold verify_user. rewrite Hu, Hc. reflexivity. Qed.

Lemma boundary_059_060 :
  dist_lt (Fin (59 / 100)) (6 / 10) /\ ~ dist_lt (Fin (60 / 100)) (6 / 10).
Proof. simpl. split; lra. Qed.

Lemma attempt_best_159 :
  attempt_best studio (scene 200 159 5) [1%R; 0%R] deep_learning = Fin (59 / 100)%R.
Proof.
  cbv -[IZR Rdiv Rminus Rmult Rplus sqrt]. f_equal.
  replace ((159 / 100 - 1) * (159 / 100 - 1) + ((0 - 0) * (0 - 0) + 0))%R
    with ((59 / 100) * (59 / 100))%R by field.
  apply sqrt_square. lra.
Qed.

Lemma attempt_best_160 :
  attempt_best studio (scene 200 160 5) [1%R; 0%R] deep_learning = Fin (60 / 100)%R.
Proof.
  cbv -[IZR Rdiv Rminus Rmult Rplus sqrt]. f_equal.
  replace ((160 / 100 - 1) * (160 / 100 - 1) + ((0 - 0) * (0 - 0) + 0))%R
    with ((60 / 100) * (60 / 100))%R by field.
  apply sqrt_square. lra.
Qed.

Lemma with_alice_lookup :
  known_faces with_alice !! "alice"%string
  = Some (mkIdentity [1%R; 0%R] deep_learning 3 "t0").
Proof. apply lookup_insert_eq. Qed.

(** The same run with a best distance of exactly 0.60 is rejected. *)
Lemma verify_at_060_rejects :
  fst (verify_user studio with_alice "alice" 1 (fun _ => Some (scene 200 160 5)) "t") = false.
Proof.
  rewrite (verify_user_enrolled _ _ _ _ _ _ _ with_alice_lookup eq_refl).
  rewrite verify_attempts_reject; [reflexivity|].
  intros k _.
  change (~ dist_lt (attempt_best studio (scene 200 160 5) [1%R; 0%R] deep_learning)
                    (6 / 10)%R).
  rewrite attempt_best_160. simpl. lra.
Qed.

Lemma collect_returns (cv : Vision) (st : System) (num_samples : Z) (polls : list Poll) :
  forall (samples : list Sample) (n : Z),
    (exists p, In p polls /\ (30 < elapsed p)%Z) ->
    exists r, collect cv st num_samples polls samples n = Some r.
Proof.
  induction polls as [|p rest IH]; intros samples n (q & Hq & Hlate); [destruct Hq|].
  simpl. destruct (n <? num_samples)%Z; [|eauto].
  destruct Hq as [->|Hq].
  - unfold enroll_step. destruct (Z.ltb_spec 30 (elapsed q)); [eauto | lia].
  - destruct (enroll_step cv st p samples n); [eauto|]. apply IH. eauto.
Qed.

(** C2 (as the code has it): a verification that rejects every attempt
    appends its failure entry before it returns [False] and leaves the
    identity store alone; an enrollment whose loop ends in the timeout
    or with no sample at all returns [False] with the whole state, audit log
    included, as it was, and it does return once a poll comes after more
    than 30 seconds. *)
Theorem workflow_failure_logging :
  (forall (cv : Vision) (st : System) (username : string) (user_data : Identity)
          (max_attempts : Z) (cam : nat -> option Image) (t : string),
      known_faces st !! username = Some user_data ->
      camera_available st = true ->
      let result := verify_user cv st username max_attempts cam t in
      fst result = false ->
      verification_logs (snd result)
      = verification_logs st
        ++ [mkLogEntry t username "verification" false
              [("attempts"%string, VInt max_attempts)]] /\
      known_faces (snd result) = known_faces st) /\
  (forall (cv : Vision) (st : System) (username : string) (num_samples : Z)
          (polls : list Poll) (t_registered t_logged : string),
      ((exists p, In p polls /\ (30 < elapsed p)%Z) ->
       exists r, register_user cv st username num_samples polls t_registered t_logged
                 = Some r) /\
      (collect cv st num_samples polls [] 0 = Some TimedOut ->
       register_user cv st username num_samples polls t_registered t_logged
       = Some (Returned false, st)) /\
      (collect cv st num_samples polls [] 0 = Some (Collected []) ->
       register_user cv st username num_samples polls t_registered t_logged
       = Some (Returned false, st))).
Proof.
  split.
  - intros cv st username user_data max_attempts cam t Hu Hc result Hfalse.
    subst result.
    rewrite (verify_user_enrolled cv st username user_data max_attempts cam t Hu Hc) in *.
    rewrite verify_attempts_reject in *.
    + simpl. rewrite verification_logs_log_verification, known_faces_log_verification. auto.
    + intros k Hk Hd.
      assert (Htrue : fst (verify_attempts cv st username user_data max_attempts cam t
                             (seq 0 (Z.to_nat max_attempts))) = true)
        by (apply verify_attempts_true; eauto).
      rewrite Htrue in Hfalse. discriminate.
    + intros k Hk Hd.
      assert (Htrue : fst (verify_attempts cv st username user_data max_attempts cam t
                             (seq 0 (Z.to_nat max_attempts))) = true)
        by (apply verify_attempts_true; eauto).
      rewrite Htrue in Hfalse. discriminate.
  - intros cv st username num_samples polls t1 t2. split.
    + intros Hlate. unfold register_user.
      destruct (camera_available st); simpl; [|eauto].
      destruct (collect_returns cv st num_samples polls [] 0 Hlate) as [[|samples] ->]; eauto.
    + split; intros Hc; unfold register_user; rewrite Hc;
        destruct (camera_available st); reflexivity.
Qed.

Lemma workflow_failure_logging_witness :
  (verification_logs
     (snd (verify_user studio with_alice "alice" 1 (fun _ => Some (scene 200 160 5)) "t"))
   = verification_logs with_alice
     ++ [mkLogEntry "t" "alice" "verification" false [("attempts"%string, VInt 1%Z)]] /\
   known_faces
     (snd (verify_user studio with_alice "alice" 1 (fun _ => Some (scene 200 160 5)) "t"))
   = known_faces with_alice) /\
  register_user studio fresh "alice" 3 late_polls "t1" "t2" = Some (Returned false, fresh).
Proof.
  split.
  - apply (proj1 workflow_failure_logging studio with_alice "alice"
             (mkIdentity [1%R; 0%R] deep_learning 3 "t0") 1%Z
             (fun _ => Some (scene 200 160 5)) "t" with_alice_lookup eq_refl).
    apply verify_at_060_rejects.
  - apply (proj1 (proj2 (proj2 workflow_failure_logging studio fresh "alice" 3%Z late_polls
                                 "t1" "t2"))).
    reflexivity.
Defined.

(** ** Candidates and acceptance *)

Lemma face_step_no_candidate (cv : Vision) (frame : Image) (reg : Encoding) (m : Method)
    (best : Dist) (box : Z * Z * Z * Z) :
  ~ candidate cv frame box -> face_step cv frame reg m best box = best.
Proof.
  destruct box as [[[x y] w] h]. unfold candidate, face_step. intros Hno.
  destruct (Z.ltb_spec 0 (size (crop frame x y w h))); [|reflexivity].
  destruct (Z.ltb_spec 100 w); [|reflexivity].
  destruct (Z.ltb_spec 100 h); [|reflexivity]. cbn [andb].
  destruct (extract_face_encoding cv (Some (crop frame x y w h))) as [[e|] dm] eqn:He;
    [|reflexivity].
  exfalso. apply Hno. repeat split; try assumption. eauto.
Qed.

Lemma face_step_candidate_or_same (cv : Vision) (frame : Image) (reg : Encoding) (m : Method)
    (best : Dist) (box : Z * Z * Z * Z) :
  candidate cv frame box \/ face_step cv frame reg m best box = best.
Proof.
  destruct box as [[[x y] w] h]. unfold candidate, face_step.
  destruct (Z.ltb_spec 0 (size (crop frame x y w h))); [|right; reflexivity].
  destruct (Z.ltb_spec 100 w); [|right; reflexivity].
  destruct (Z.ltb_spec 100 h); [|right; reflexivity]. cbn [andb].
  destruct (extract_face_encoding cv (Some (crop frame x y w h))) as [[e|] dm] eqn:He;
    [|right; reflexivity].
  left. repeat split; try assumption. eauto.
Qed.

Lemma fold_face_step_no_candidate (cv : Vision) (frame : Image) (reg : Encoding) (m : Method)
    (boxes : list (Z * Z * Z * Z)) :
  forall best,
    (forall box, In box boxes -> ~ candidate cv frame box) ->
    fold_left (face_step cv frame reg m) boxes best = best.
Proof.
  induction boxes as [|box rest IH]; intros best Hno; simpl; [reflexivity|].
  rewrite face_step_no_candidate by (apply Hno; left; reflexivity).
  apply IH. intros b Hb. apply Hno. right. exact Hb.
Qed.

Lemma fold_face_step_accepts (cv : Vision) (frame : Image) (reg : Encoding) (m : Method)
    (thr : R) (boxes : list (Z * Z * Z * Z)) :
  forall best,
    dist_lt (fold_left (face_step cv frame reg m) boxes best) thr ->
    dist_lt best thr \/ exists box, In box boxes /\ candidate cv frame box.
Proof.
  induction boxes as [|box rest IH]; intros best Hd; simpl in Hd; [left; exact Hd|].
  destruct (IH _ Hd) as [Hstep | (b & Hb & Hcand)].
  - destruct (face_step_candidate_or_same cv frame reg m best box) as [Hcand | Hsame].
    + right. exists box. split; [left; reflexivity | exact Hcand].
    + rewrite Hsame in Hstep. left. exact Hstep.
  - right. exists b. split; [right; exact Hb | exact Hcand].
Qed.

(** C10: an attempt in which no detection passes the size gate with an
    extracted encoding keeps its best distance at [inf]; [inf] is below no
    threshold; so a verification that returns [True] had an attempt with a
    captured frame and a detection of it that passed the gate and yielded
    an encoding. *)
Theorem no_candidate_never_accepts (cv : Vision) (st : System) (username : string)
    (max_attempts : Z) (cam : nat -> option Image) (t : string) :
  (forall (frame : Image) (registered_encoding : Encoding) (method : Method),
      (forall box, In box (detect_faces cv frame) -> ~ candidate cv frame box) ->
      attempt_best cv frame registered_encoding method = Inf /\
      forall thr : R, ~ dist_lt (attempt_best cv frame registered_encoding method) thr) /\
  (fst (verify_user cv st username max_attempts cam t) = true ->
   exists user_data k frame box,
     known_faces st !! username = Some user_data /\
     k < Z.to_nat max_attempts /\
     capture_frame st (cam k) = Some frame /\
     In box (detect_faces cv frame) /\
     candidate cv frame box /\
     dist_lt (attempt_best cv frame (encoding user_data) (method user_data)) (threshold st)).
Proof.
  split.
  - intros frame reg m Hno.
    assert (H : attempt_best cv frame reg m = Inf)
      by (apply fold_face_step_no_candidate, Hno).
    split; [exact H|]. intros thr. rewrite H. simpl. tauto.
  - unfold verify_user.
    destruct (known_faces st !! username) as [user_data|] eqn:Hu; [|discriminate].
    destruct (camera_available st); simpl negb; cbv iota; [|discriminate].
    intros Htrue. apply verify_attempts_true in Htrue as (k & Hk & Hd).
    apply in_seq in Hk. unfold best_of_attempt in Hd.
    destruct (capture_frame st (cam k)) as [frame|] eqn:Hcap; [|destruct Hd].
    destruct (fold_face_step_accepts cv frame (encoding user_data) (method user_data)
                (threshold st) (detect_faces cv frame) Inf Hd)
      as [[] | (box & Hbox & Hcand)].
    exists user_data, k, frame, box. repeat split; auto. lia.
Qed.

Lemma no_candidate_never_accepts_witness :
  attempt_best studio (scene 100 100 5) [1%R; 0%R] deep_learning = Inf /\
  forall thr : R, ~ dist_lt (attempt_best studio (scene 100 100 5) [1%R; 0%R] deep_learning) thr.
Proof.
  apply (proj1 (no_candidate_never_accepts studio with_alice "alice" 1
                  (fun _ => Some (scene 100 100 5)) "t")).
  intros box [<-|[]]. unfold candidate. simpl. intros (_ & Hw & _). lia.
Defined.

(** ** Method mismatch *)

Lemma np_norm_zero (v : list R) : Forall (fun x => x = 0%R) v -> np_norm v = 0%R.
Proof.
  intros Hv. unfold np_norm.
  assert (H : Rsum (map (fun x => (x * x)%R) v) = 0%R).
  { induction Hv as [|x l Hx _ IH]; simpl; [reflexivity|]. rewrite IH, Hx. lra. }
  rewrite H. apply sqrt_0.
Qed.

Lemma zip_with_minus_diag (e : list R) : Forall (fun x => x = 0%R) (zip_with Rminus e e).
Proof. induction e as [|x e IH]; simpl; constructor; [lra | exact IH]. Qed.

Lemma zip_with_mult_zero (w d : list R) :
  Forall (fun x => x = 0%R) d -> Forall (fun x => x = 0%R) (zip_with Rmult w d).
Proof.
  intros Hd. revert w. induction Hd as [|x d Hx _ IH]; intros [|y w]; simpl; constructor.
  - rewrite Hx. lra.
  - apply IH.
Qed.

Lemma compare_faces_refl (e : Encoding) (m : Method) :
  compare_faces (Some e) (Some e) m = Fin 0.
Proof.
  assert (Hdl : compare_faces (Some e) (Some e) deep_learning = Fin 0).
  { unfold compare_faces. rewrite np_broadcast_same by reflexivity.
    rewrite np_norm_zero; [reflexivity | apply zip_with_minus_diag]. }
  assert (Hfb : forall m', m' <> deep_learning -> compare_faces (Some e) (Some e) m' = Fin 0).
  { intros m' Hm'.
    assert (H : (let weights := fb_weights e in
                 match np_broadcast Rminus e e with
                 | Some d =>
                     match np_broadcast Rmult weights d with
                     | Some weighted_diff => Fin (np_norm weighted_diff)
                     | None => Inf
                     end
                 | None => Inf
                 end) = Fin 0).
    { cbv zeta. rewrite np_broadcast_same by reflexivity.
      rewrite np_broadcast_same by (rewrite length_fb_weights, length_zip_with; lia).
      rewrite np_norm_zero; [reflexivity|]. apply zip_with_mult_zero, zip_with_minus_diag. }
    destruct m'; try exact H. contradiction. }
  destruct m; [exact Hdl | | |]; apply Hfb; discriminate.
Qed.

Lemma np_broadcast_mismatch (f : R -> R -> R) (a b : list R) :
  length a <> length b -> length a <> 1 -> length b <> 1 -> np_broadcast f a b = None.
Proof.
  intros Hab Ha Hb. unfold np_broadcast.
  destruct (Nat.eqb_spec (length a) (length b)); [contradiction|].
  destruct (Nat.eqb_spec (length a) 1); [contradiction|].
  destruct (Nat.eqb_spec (length b) 1); [contradiction|]. reflexivity.
Qed.

Lemma compare_faces_mismatch (a b : Encoding) (m : Method) :
  length a <> length b -> length a <> 1 -> length b <> 1 ->
  compare_faces (Some a) (Some b) m = Inf.
Proof.
  intros Hab Ha Hb. unfold compare_faces.
  rewrite np_broadcast_mismatch by assumption. destruct m; reflexivity.
Qed.

Lemma Method_eqb_neq (a b : Method) : a <> b -> Method_eqb a b = false.
Proof.
  intros H. destruct (Method_eqb a b) eqn:E; [|reflexivity].
  apply Method_eqb_eq in E. contradiction.
Qed.

(** C4 (as the code has it): when the method of the fresh encoding differs
    from the stored one, the distance of that candidate is [compare_faces]
    with the feature-based formula applied to the fresh encoding and the
    stored encoding as they are; nothing is extracted again; and when the
    two vectors have different lengths, neither of them 1, that distance is
    [inf] and the candidate leaves the best distance unchanged. *)
Theorem mismatch_compares_raw_encodings (cv : Vision) (frame : Image)
    (registered_encoding : Encoding) (method : Method) (best_distance : Dist)
    (x y w h : Z) (encoding : Encoding) (detected_method : Method) :
  (0 < size (crop frame x y w h))%Z -> (100 < w)%Z -> (100 < h)%Z ->
  extract_face_encoding cv (Some (crop frame x y w h)) = (Some encoding, detected_method) ->
  method <> detected_method ->
  candidate_distance registered_encoding method encoding detected_method
  = compare_faces (Some encoding) (Some registered_encoding) feature_based /\
  face_step cv frame registered_encoding method best_distance (x, y, w, h)
  = py_min best_distance
           (compare_faces (Some encoding) (Some registered_encoding) feature_based) /\
  (length encoding <> length registered_encoding ->
   length encoding <> 1 -> length registered_encoding <> 1 ->
   candidate_distance registered_encoding method encoding detected_method = Inf /\
   face_step cv frame registered_encoding method best_distance (x, y, w, h) = best_distance).
Proof.
  intros Hsize Hw Hh He Hneq.
  assert (Hcd : candidate_distance registered_encoding method encoding detected_method
                = compare_faces (Some encoding) (Some registered_encoding) feature_based).
  { unfold candidate_distance. rewrite Method_eqb_neq by exact Hneq. reflexivity. }
  assert (Hfs : face_step cv frame registered_encoding method best_distance (x, y, w, h)
                = py_min best_distance
                    (compare_faces (Some encoding) (Some registered_encoding) feature_based)).
  { unfold face_step.
    destruct (Z.ltb_spec 0 (size (crop frame x y w h))); [|lia].
    destruct (Z.ltb_spec 100 w); [|lia]. destruct (Z.ltb_spec 100 h); [|lia].
    cbn [andb]. rewrite He, Hcd. reflexivity. }
  split; [exact Hcd|]. split; [exact Hfs|].
  intros Hlen H1 H2. rewrite Hfs, Hcd.
  rewrite compare_faces_mismatch by assumption.
  split; [reflexivity | apply py_min_inf_r].
Qed.

Lemma scene5_features_zeros : scene5_features = repeat 0%R 372.
Proof.
  unfold scene5_features. rewrite np_histogram_nil, normalize_hist_zeros.
  reflexivity.
Qed.

Lemma extract_scene_200 :
  extract_face_encoding studio (Some (crop (scene 200 200 5) 0 0 200 200))
  = (Some [(IZR 200 / 100)%R; 0%R], deep_learning).
Proof. reflexivity. Qed.

Lemma fallback_scene_200 :
  fallback_encoding studio (crop (scene 200 200 5) 0 0 200 200) = Some scene5_features.
Proof. vm_compute. reflexivity. Qed.

Lemma mismatch_compares_raw_encodings_witness :
  candidate_distance scene5_features feature_based [(IZR 200 / 100)%R; 0%R] deep_learning
  = compare_faces (Some [(IZR 200 / 100)%R; 0%R]) (Some scene5_features) feature_based.
Proof.
  apply (proj1 (mismatch_compares_raw_encodings studio (scene 200 200 5) scene5_features
                  feature_based Inf 0 0 200 200 [(IZR 200 / 100)%R; 0%R] deep_learning
                  ltac:(vm_compute; reflexivity) ltac:(lia) ltac:(lia)
                  extract_scene_200 ltac:(discriminate))).
Defined.

(** C4, counterexample: "bob" is enrolled with a feature-based encoding
    and the embedding model answers on the fresh crop. The distance the
    code uses is [compare_faces] on the embedding and the stored vector,
    which is [inf]; extracting the crop again with the fallback path and
    comparing feature-based against feature-based gives 0. *)
Lemma mismatch_is_not_rederived :
  let face := crop (scene 200 200 5) 0 0 200 200 in
  known_faces with_bob !! "bob"%string
  = Some (mkIdentity scene5_features feature_based 3 "t0") /\
  extract_face_encoding studio (Some face)
  = (Some [(IZR 200 / 100)%R; 0%R], deep_learning) /\
  candidate_distance scene5_features feature_based [(IZR 200 / 100)%R; 0%R] deep_learning
  = Inf /\
  rederived_distance studio face scene5_features = Fin 0 /\
  candidate_distance scene5_features feature_based [(IZR 200 / 100)%R; 0%R] deep_learning
  <> rederived_distance studio face scene5_features.
Proof.
  assert (Hcode :
    candidate_distance scene5_features feature_based [(IZR 200 / 100)%R; 0%R] deep_learning
    = Inf).
  { unfold candidate_distance. simpl Method_eqb. cbv iota.
    apply compare_faces_mismatch; rewrite ?scene5_features_zeros, ?repeat_length;
      simpl; lia. }
  assert (Hspec : rederived_distance studio (crop (scene 200 200 5) 0 0 200 200)
                    scene5_features = Fin 0).
  { unfold rederived_distance. rewrite fallback_scene_200. apply compare_faces_refl. }
  cbv zeta. split; [apply lookup_insert_eq|]. split; [apply extract_scene_200|].
  split; [exact Hcode|]. split; [exact Hspec|].
  rewrite Hcode, Hspec. discriminate.
Qed.

(** ** Audit log *)

Lemma length_last_n {A : Type} (n : nat) (l : list A) :
  length (last_n n l) = Nat.min n (length l).
Proof. unfold last_n. rewrite length_skipn. lia. Qed.

Lemma last_n_suffix {A : Type} (n : nat) (l : list A) :
  exists older, l = older ++ last_n n l /\ length older = length l - n.
Proof.
  exists (firstn (length l - n) l). unfold last_n.
  rewrite firstn_skipn, length_firstn. split; [reflexivity | lia].
Qed.

Lemma log_verification_step (st : System) (e : LogEntry) :
  let st' := log_verification st (timestamp e) (username e) (action e) (success e)
               (details e) in
  verification_logs st' = verification_logs st ++ [e] /\
  disk_writes st'
  = disk_writes st
    ++ (if Nat.eqb (S (length (verification_logs st)) mod 10) 0
        then [WriteLogs (last_n 1000 (verification_logs st ++ [e]))] else []).
Proof.
  destruct e as [t u a s d]. unfold log_verification. cbn [timestamp username action success details].
  cbn [verification_logs set_verification_logs].
  rewrite length_app. cbn [length]. rewrite Nat.add_1_r.
  destruct (Nat.eqb (S (length (verification_logs st)) mod 10) 0).
  - split; reflexivity.
  - cbn [verification_logs disk_writes set_verification_logs]. rewrite app_nil_r.
    split; reflexivity.
Qed.

Lemma log_all_snoc (st : System) (events : list LogEntry) (e : LogEntry) :
  log_all st (events ++ [e])
  = log_verification (log_all st events) (timestamp e) (username e) (action e) (success e)
      (details e).
Proof. unfold log_all. rewrite fold_left_app. reflexivity. Qed.

Lemma snapshots_of_snoc (events : list LogEntry) (e : LogEntry) :
  snapshots_of (events ++ [e])
  = snapshots_of events
    ++ (if Nat.eqb (S (length events) mod 10) 0
        then [WriteLogs (last_n 1000 (events ++ [e]))] else []).
Proof.
  unfold snapshots_of. rewrite length_app. cbn [length]. rewrite Nat.add_1_r.
  assert (Hprefix : forall n,
             n <= length events / 10 ->
             map (fun k => WriteLogs (last_n 1000 (firstn (10 * k) (events ++ [e])))) (seq 1 n)
             = map (fun k => WriteLogs (last_n 1000 (firstn (10 * k) events))) (seq 1 n)).
  { intros n Hn. apply map_ext_in. intros k Hk. apply in_seq in Hk.
    assert (10 * k <= length events).
    { pose proof (Nat.div_mod_eq (length events) 10). nia. }
    rewrite firstn_app. replace (10 * k - length events) with 0 by lia.
    rewrite firstn_O, app_nil_r. reflexivity. }
  pose proof (Nat.div_mod_eq (length events) 10) as Hdm.
  pose proof (Nat.mod_upper_bound (length events) 10 ltac:(lia)) as Hmod.
  pose proof (Nat.div_mod_eq (S (length events)) 10) as Hdm'.
  pose proof (Nat.mod_upper_bound (S (length events)) 10 ltac:(lia)) as Hmod'.
  destruct (Nat.eqb_spec (S (length events) mod 10) 0) as [Hz|Hnz].
  - assert (Hq : S (length events) / 10 = S (length events / 10)) by lia.
    rewrite Hq, seq_S, map_app, Hprefix by lia. f_equal. cbn [map].
    replace (10 * (1 + length events / 10)) with (S (length events)) by lia.
    rewrite firstn_all2 by (rewrite length_app; simpl; lia). reflexivity.
  - assert (Hq : S (length events) / 10 = length events / 10) by lia.
    rewrite Hq, Hprefix, app_nil_r by lia. reflexivity.
Qed.

Lemma log_all_from_empty (st : System) (events : list LogEntry) :
  verification_logs st = [] ->
  verification_logs (log_all st events) = events /\
  disk_writes (log_all st events) = disk_writes st ++ snapshots_of events.
Proof.
  intros Hempty. induction events as [|e events IH] using rev_ind.
  - simpl. rewrite Hempty, app_nil_r. auto.
  - destruct IH as [IHlogs IHwrites].
    rewrite log_all_snoc.
    destruct (log_verification_step (log_all st events) e) as [Hlogs Hwrites].
    rewrite Hlogs, Hwrites, IHlogs, IHwrites, snapshots_of_snoc, app_assoc.
    auto.
Qed.

(** C9: starting from the empty log of a new session, appending [events]
    one by one leaves [events] in memory and writes one snapshot after each
    tenth append and at no other time; the snapshot written after append
    number [10 * k] holds the last 1000 of the first [10 * k] events, so it
    never holds more than 1000 entries and drops the oldest ones. *)
Theorem audit_snapshots (st : System) (events : list LogEntry) :
  verification_logs st = [] ->
  let st' := log_all st events in
  verification_logs st' = events /\
  disk_writes st'
  = disk_writes st
    ++ map (fun k => WriteLogs (last_n 1000 (firstn (10 * k) events)))
           (seq 1 (length events / 10)) /\
  (forall e : LogEntry,
      disk_writes (log_verification st' (timestamp e) (username e) (action e) (success e)
                     (details e))
      = disk_writes st'
        ++ (if Nat.eqb (S (length events) mod 10) 0
            then [WriteLogs (last_n 1000 (events ++ [e]))] else [])) /\
  (forall logs : list LogEntry,
      length (last_n 1000 logs) <= 1000 /\
      length (last_n 1000 logs) = Nat.min 1000 (length logs) /\
      exists older, logs = older ++ last_n 1000 logs /\ length older = length logs - 1000).
Proof.
  intros Hempty st'. subst st'.
  destruct (log_all_from_empty st events Hempty) as [Hlogs Hwrites].
  split; [exact Hlogs|]. split; [exact Hwrites|]. split.
  - intros e.
    destruct (log_verification_step (log_all st events) e) as [_ Hw].
    rewrite Hw, Hlogs. reflexivity.
  - intros logs. rewrite length_last_n. split; [lia|]. split; [reflexivity|].
    apply last_n_suffix.
Qed.

Lemma audit_snapshots_witness :
  verification_logs (log_all fresh ten_events) = ten_events /\
  disk_writes (log_all fresh ten_events)
  = disk_writes fresh
    ++ map (fun k => WriteLogs (last_n 1000 (firstn (10 * k) ten_events)))
           (seq 1 (length ten_events / 10)).
Proof.
  destruct (audit_snapshots fresh ten_events eq_refl) as (Hlogs & Hwrites & _).
  split; [exact Hlogs | exact Hwrites].
Defined.

(** ** Examples on the concrete installation *)

Lemma compare_faces_distance_witness :
  compare_faces (Some [3%R; 0%R]) (Some [0%R; 4%R]) deep_learning
  = Fin (euclid [3%R; 0%R] [0%R; 4%R]) /\
  compare_faces (Some [3%R; 0%R]) (Some [0%R; 4%R]) feature_based
  = Fin (weighted_euclid weight_at [3%R; 0%R] [0%R; 4%R]).
Proof.
  destruct (compare_faces_distance [3%R; 0%R] [0%R; 4%R] eq_refl) as (Hdl & Hfb & _).
  split; [exact Hdl | exact Hfb].
Defined.

Lemma texture_descriptor_histogram_witness :
  let stored := (lbp_code ramp 6 7 2 16 3 3 mod 256)%Z in
  In stored (lbp_image ramp 6 7 2 16) /\
  Z.testbit stored 0 = true /\ Z.testbit stored 1 = false /\
  Rsum (extract_lbp_features ramp 2 16) = 1%R.
Proof.
  pose proof (proj1 texture_descriptor_histogram ramp 6%Z 7%Z eq_refl
                ltac:(split; reflexivity) ltac:(split; reflexivity)) as H.
  cbv zeta in H. destruct H as (Hpix & _ & _ & Hsum & _).
  destruct (Hpix 3%Z 3%Z ltac:(lia) ltac:(lia)) as (Hin & _ & Hbits & _).
  cbv zeta. split; [exact Hin|]. split; [|split; [|exact Hsum]].
  - etransitivity; [exact (Hbits 0) | reflexivity].
  - etransitivity; [exact (Hbits 1) | reflexivity].
Defined.

Lemma fallback_zero_fills_texture_only_witness :
  exists texture edge_hist,
    fallback_encoding studio (scene 150 150 5)
    = Some (repeat 0%R 32 ++ repeat 0%R 32 ++ repeat 0%R 32 ++ texture ++ edge_hist) /\
    length texture = 256 /\ length edge_hist = 20 /\
    length (repeat 0%R 32 ++ repeat 0%R 32 ++ repeat 0%R 32 ++ texture ++ edge_hist) = 372 /\
    (lbp_try (mkGray [] (fun y x => 5%Z)) 2 16 = None -> texture = np_zeros 256).
Proof.
  apply (proj1 fallback_zero_fills_texture_only studio (scene 150 150 5)
           (mkImage 128 128 (fun _ _ _ => 5%Z))
           (repeat 0%R 32) (repeat 0%R 32) (repeat 0%R 32)
           (mkGray [] (fun y x => 5%Z)) []);
    reflexivity.
Defined.

(** C3, counterexample: on scene 7 the colour histogram raises while the
    resize, the grey conversion and the edge detector work; the extractor
    returns [(None, 'error')] and no feature-based encoding at all. *)
Lemma colour_failure_aborts_extraction :
  let im := scene 150 150 7 in
  cv_resize studio im = Some (mkImage 128 128 (fun _ _ _ => 7%Z)) /\
  color_hist studio (mkImage 128 128 (fun _ _ _ => 7%Z)) 0 = HistRaised /\
  extract_face_encoding studio (Some im) = (None, error) /\
  ~ (exists features, extract_face_encoding studio (Some im) = (Some features, feature_based)).
Proof.
  cbv zeta. split; [reflexivity|]. split; [reflexivity|].
  assert (H : extract_face_encoding studio (Some (scene 150 150 7)) = (None, error))
    by reflexivity.
  split; [exact H|]. intros [features Hf]. rewrite H in Hf. discriminate.
Qed.

(** * Further properties *)

(** ** Similarity engine: symmetry and identity *)

Lemma compare_faces_same_length (a b : Encoding) (m : Method) :
  length a = length b ->
  compare_faces (Some a) (Some b) m
  = Fin (weighted_euclid (fun i => if Method_eqb m deep_learning then 1%R else weight_at i) a b).
Proof.
  intros Hlen.
  assert (Hd : zip_with Rminus a b
               = map (fun i => (nth i a 0 - nth i b 0)%R) (seq 0 (length a)))
    by (apply zip_with_nth, Hlen).
  assert (Hfb : (let weights := fb_weights a in
                 match np_broadcast Rminus a b with
                 | Some d =>
                     match np_broadcast Rmult weights d with
                     | Some weighted_diff => Fin (np_norm weighted_diff)
                     | None => Inf
                     end
                 | None => Inf
                 end) = Fin (weighted_euclid weight_at a b)).
  { cbv zeta. rewrite np_broadcast_same by exact Hlen.
    rewrite np_broadcast_same by (rewrite length_fb_weights, length_zip_with; lia).
    unfold np_norm, weighted_euclid. rewrite Hd, fb_weights_seq.
    rewrite zip_with_fmap_l, zip_with_fmap_r, zip_with_diag, map_map. reflexivity. }
  destruct m; try exact Hfb.
  unfold compare_faces. rewrite np_broadcast_same by exact Hlen.
  unfold np_norm, weighted_euclid. rewrite Hd, map_map. simpl Method_eqb. cbv iota.
  do 3 f_equal. apply map_ext. intros i. cbv zeta. lra.
Qed.

(** X1: on encodings of the same length [compare_faces] is symmetric and
    never negative, for every method, and an encoding is at distance 0 from
    itself. *)
Theorem compare_faces_symmetric_nonnegative (a b : Encoding) (m : Method) :
  length a = length b ->
  compare_faces (Some a) (Some b) m = compare_faces (Some b) (Some a) m /\
  dist_le (Fin 0) (compare_faces (Some a) (Some b) m) /\
  compare_faces (Some a) (Some a) m = Fin 0.
Proof.
  intros Hlen. split; [|split].
  - rewrite !compare_faces_same_length by (auto; lia).
    unfold weighted_euclid. rewrite Hlen. do 3 f_equal.
    apply map_ext. intros i. cbv zeta. nra.
  - rewrite compare_faces_same_length by exact Hlen. simpl. apply sqrt_pos.
  - apply compare_faces_refl.
Qed.

Lemma compare_faces_symmetric_nonnegative_witness :
  compare_faces (Some [3%R; 0%R]) (Some [0%R; 4%R]) feature_based
  = compare_faces (Some [0%R; 4%R]) (Some [3%R; 0%R]) feature_based.
Proof.
  apply (proj1 (compare_faces_symmetric_nonnegative [3%R; 0%R] [0%R; 4%R] feature_based
                  eq_refl)).
Defined.

(** ** Enrollment: averaging, effects of a commit, the timeout *)

Lemma fold_zip_plus_repeat (e : list R) (k : nat) :
  forall c : R,
    fold_left (zip_with Rplus) (repeat e k) (map (fun x => (x * c)%R) e)
    = map (fun x => (x * (c + INR k))%R) e.
Proof.
  induction k as [|k IH]; intros c.
  - simpl. apply map_ext. intros x. lra.
  - cbn [repeat fold_left].
    replace (zip_with Rplus (map (fun x => (x * c)%R) e) e)
      with (map (fun x => (x * (c + 1))%R) e).
    + rewrite IH. apply map_ext. intros x. rewrite S_INR. lra.
    + rewrite zip_with_fmap_l, zip_with_diag. apply map_ext. intros x. lra.
Qed.

Lemma np_mean_repeat (e : Encoding) (k : nat) : np_mean (repeat e (S k)) = Some e.
Proof.
  cbn [repeat np_mean].
  assert (Hall : forallb (fun u => Nat.eqb (length u) (length e)) (repeat e k) = true).
  { apply forallb_forall. intros u Hu. apply repeat_spec in Hu. subst u.
    apply Nat.eqb_refl. }
  rewrite Hall. f_equal.
  replace e with (map (fun x => (x * 1)%R) e) at 2
    by (rewrite <- (map_id e) at 2; apply map_ext; intros x; lra).
  rewrite fold_zip_plus_repeat, map_map.
  rewrite <- (map_id e) at 2. apply map_ext. intros x.
  change (length (e :: repeat e k)) with (S (length (repeat e k))).
  rewrite repeat_length, S_INR.
  assert (0 <= INR k)%R by apply pos_INR. field. lra.
Qed.

Lemma all_equal_repeat {A : Type} (x : A) (l : list A) :
  (forall y, In y l -> y = x) -> l = repeat x (length l).
Proof.
  induction l as [|y l IH]; intros H; [reflexivity|].
  simpl. rewrite (H y) by (left; reflexivity). f_equal. apply IH.
  intros z Hz. apply H. right. exact Hz.
Qed.

Lemma filter_repeat_true {A : Type} (f : A -> bool) (x : A) (k : nat) :
  f x = true -> List.filter f (repeat x k) = repeat x k.
Proof. intros H. induction k as [|k IH]; simpl; [reflexivity|]. rewrite H, IH. reflexivity. Qed.

Lemma filter_repeat_false {A : Type} (f : A -> bool) (x : A) (k : nat) :
  f x = false -> List.filter f (repeat x k) = [].
Proof. intros H. induction k as [|k IH]; simpl; [reflexivity|]. rewrite H, IH. reflexivity. Qed.

Lemma map_fst_repeat {A B : Type} (x : A) (y : B) (k : nat) :
  map fst (repeat (x, y) k) = repeat x k.
Proof. induction k as [|k IH]; simpl; [reflexivity | rewrite IH; reflexivity]. Qed.

Lemma commit_repeat (st : System) (u : string) (e : Encoding) (m : Method) (k : nat)
    (t1 t2 : string) :
  m = deep_learning \/ m = feature_based ->
  commit st u (repeat (e, m) (S k)) t1 t2
  = (Returned true, store_identity st u e m (repeat (e, m) (S k)) t1 t2).
Proof.
  intros Hm. unfold commit.
  change (repeat (e, m) (S k)) with ((e, m) :: repeat (e, m) k) at 1.
  cbv beta iota zeta.
  destruct Hm as [-> | ->].
  - rewrite (filter_repeat_true (fun s => Method_eqb (snd s) deep_learning)) by reflexivity.
    rewrite map_fst_repeat. rewrite np_mean_repeat. reflexivity.
  - rewrite (filter_repeat_false (fun s => Method_eqb (snd s) deep_learning)) by reflexivity.
    rewrite (filter_repeat_true (fun s => Method_eqb (snd s) feature_based)) by reflexivity.
    rewrite map_fst_repeat. rewrite np_mean_repeat. reflexivity.
Qed.

Lemma collect_length (cv : Vision) (st : System) (num_samples : Z) (polls : list Poll) :
  forall (samples : list Sample) (n : Z) (result : list Sample),
    n = Z.of_nat (length samples) -> (n <= Z.max 0 num_samples)%Z ->
    collect cv st num_samples polls samples n = Some (Collected result) ->
    Z.of_nat (length result) = Z.max 0 num_samples.
Proof.
  induction polls as [|p rest IH]; intros samples n result Hn Hle Hrun; simpl in Hrun.
  - destruct (Z.ltb_spec n num_samples); [discriminate|]. inversion Hrun; subst. lia.
  - destruct (Z.ltb_spec n num_samples).
    + destruct (enroll_step cv st p samples n) as [|samples' n'] eqn:Hstep; [discriminate|].
      apply enroll_step_cases in Hstep
        as [[-> ->] | (frame & x & y & w & h & bs & e & m & _ & _ & _ & _ & _ & _ & -> & ->)].
      * apply (IH samples n result); assumption.
      * apply (IH (samples ++ [(e, m)]) (n + 1)%Z result); [|lia|exact Hrun].
        rewrite length_app. simpl. lia.
    + inversion Hrun; subst. lia.
Qed.

Lemma last_faces_write_app_faces (ws : list Write) (faces : gmap string Identity)
    (tail : list Write) :
  last_faces_write tail = None ->
  last_faces_write (ws ++ WriteFaces faces :: tail) = Some faces.
Proof.
  intros Htail. induction ws as [|w ws IH]; simpl.
  - rewrite Htail. reflexivity.
  - rewrite IH. reflexivity.
Qed.

Lemma store_identity_effects (st : System) (u : string) (avg : Encoding) (m : Method)
    (samples : list Sample) (t1 t2 : string) :
  let st' := store_identity st u avg m samples t1 t2 in
  verification_logs st'
  = verification_logs st
    ++ [mkLogEntry t2 u "registration" true
          [("samples"%string, VInt (Z.of_nat (length samples)))]] /\
  threshold st' = threshold st /\
  camera_available st' = camera_available st /\
  last_faces_write (disk_writes st') = Some (known_faces st').
Proof.
  cbv zeta. rewrite known_faces_store_identity.
  unfold store_identity, log_verification.
  destruct (Nat.eqb _ 0); cbn; repeat split;
    try (apply last_faces_write_app_faces; reflexivity).
  rewrite <- app_assoc. apply last_faces_write_app_faces. reflexivity.
Qed.

(** X3: a call of [register_user] that returns [True] has taken exactly
    [num_samples] samples (at least one); it sets the entry of [username] and
    no other entry, appends exactly one registration entry carrying
    [num_samples] to the audit log, leaves threshold and camera flag alone,
    and the dictionary last handed to [pickle.dump] is the identity store it
    ends with. *)
Theorem register_user_commit_effects (cv : Vision) (st st' : System) (username : string)
    (num_samples : Z) (polls : list Poll) (t_registered t_logged : string) :
  register_user cv st username num_samples polls t_registered t_logged
  = Some (Returned true, st') ->
  (1 <= num_samples)%Z /\
  (exists ident,
      known_faces st' = <[username := ident]> (known_faces st) /\
      Z.of_nat (samples ident) = num_samples /\
      registered ident = t_registered /\
      (method ident = deep_learning \/ method ident = feature_based)) /\
  (forall other, other <> username -> known_faces st' !! other = known_faces st !! other) /\
  verification_logs st'
  = verification_logs st
    ++ [mkLogEntry t_logged username "registration" true
          [("samples"%string, VInt num_samples)]] /\
  threshold st' = threshold st /\
  camera_available st' = camera_available st /\
  last_faces_write (disk_writes st') = Some (known_faces st').
Proof.
  intros H. unfold register_user in H.
  destruct (camera_available st) eqn:Hcam; simpl in H; [|discriminate].
  destruct (collect cv st num_samples polls [] 0) as [[|smp]|] eqn:Hc; try discriminate.
  inversion H as [Hcommit]. clear H.
  destruct (collect_invariant cv st num_samples polls [] 0 smp) as (Hvalid & _ & _);
    auto.
  pose proof (collect_length cv st num_samples polls [] 0 smp eq_refl ltac:(simpl; lia) Hc)
    as Hlen.
  destruct (commit_true st st' username smp t_registered t_logged Hvalid Hcommit)
    as (Hne & avg & Hmean & ->).
  assert (Hpos : (1 <= num_samples)%Z).
  { destruct smp; [contradiction|]. simpl length in Hlen. lia. }
  assert (Hnum : Z.of_nat (length smp) = num_samples) by lia.
  destruct (store_identity_effects st username avg (preferred_method smp) smp
              t_registered t_logged) as (Hlogs & Hthr & Hcam' & Hdisk).
  split; [exact Hpos|]. split; [|split; [|split; [|split; [|split]]]].
  - eexists. rewrite known_faces_store_identity. split; [reflexivity|].
    cbn [samples registered method].
    split; [exact Hnum|]. split; [reflexivity|].
    unfold preferred_method.
    destruct (existsb (fun s => Method_eqb (snd s) deep_learning) smp); auto.
  - intros other Hother. rewrite known_faces_store_identity.
    apply lookup_insert_ne. congruence.
  - rewrite Hlogs, Hnum. reflexivity.
  - exact Hthr.
  - rewrite Hcam'. exact Hcam.
  - exact Hdisk.
Qed.

Lemma register_user_commit_effects_witness :
  verification_logs alice_enrolled
  = verification_logs fresh
    ++ [mkLogEntry "t2" "alice" "registration" true [("samples"%string, VInt 3)]].
Proof.
  apply (register_user_commit_effects studio fresh alice_enrolled "alice" 3 enroll_polls
           "t1" "t2").
  vm_compute. reflexivity.
Defined.

Lemma collect_timed_out_late (cv : Vision) (st : System) (num_samples : Z) (polls : list Poll) :
  forall (samples : list Sample) (n : Z),
    collect cv st num_samples polls samples n = Some TimedOut ->
    exists p, In p polls /\ (30 < elapsed p)%Z.
Proof.
  induction polls as [|p rest IH]; intros samples n Hrun; simpl in Hrun.
  - destruct (n <? num_samples)%Z; discriminate.
  - destruct (n <? num_samples)%Z; [|discriminate].
    destruct (enroll_step cv st p samples n) as [|samples' n'] eqn:Hstep.
    + exists p. split; [left; reflexivity|].
      unfold enroll_step in Hstep. destruct (Z.ltb_spec 30 (elapsed p)); [assumption|].
      destruct (capture_frame st (cam_read p)) as [frame|]; [|discriminate].
      destruct (detect_faces cv frame) as [|[[[x y] w] h] ?]; [discriminate|].
      destruct (0 <? size _)%Z; [|discriminate].
      destruct ((100 <? w)%Z && (100 <? h)%Z); [|discriminate].
      destruct (extract_face_encoding cv _) as [[?|] ?]; discriminate.
    + destruct (IH _ _ Hrun) as (q & Hq & Hlate). exists q. split; [right; exact Hq | exact Hlate].
Qed.

Lemma enroll_step_barren (cv : Vision) (st : System) (p : Poll) (samples : list Sample)
    (n : Z) :
  (elapsed p <= 30)%Z -> barren cv st p -> enroll_step cv st p samples n = StepNext samples n.
Proof.
  intros Ht Hb. unfold enroll_step, barren in *.
  destruct (Z.ltb_spec 30 (elapsed p)); [lia|].
  destruct (capture_frame st (cam_read p)) as [frame|]; [|reflexivity].
  destruct (detect_faces cv frame) as [|[[[x y] w] h] ?]; [reflexivity|].
  destruct (0 <? size _)%Z; [|reflexivity].
  destruct (Z.ltb_spec 100 w), (Z.ltb_spec 100 h); try reflexivity. lia.
Qed.

(** X4: the enrollment loop ends in the timeout only at a poll that comes
    more than 30 seconds after the start, never earlier; and when at least
    one sample is required and every poll before such a late poll is within
    the 30 seconds and offers no usable face, the loop does end in the
    timeout at that poll and [register_user] returns [False] with the state
    unchanged. *)
Theorem enrollment_timeout_exactly_when_late (cv : Vision) (st : System)
    (username : string) (num_samples : Z) (t_registered t_logged : string) :
  (forall polls,
      collect cv st num_samples polls [] 0 = Some TimedOut ->
      exists p, In p polls /\ (30 < elapsed p)%Z) /\
  (forall early late rest,
      (0 < num_samples)%Z ->
      (forall p, In p early -> (elapsed p <= 30)%Z /\ barren cv st p) ->
      (30 < elapsed late)%Z ->
      collect cv st num_samples (early ++ late :: rest) [] 0 = Some TimedOut /\
      register_user cv st username num_samples (early ++ late :: rest) t_registered t_logged
      = Some (Returned false, st)).
Proof.
  split; [intros polls; apply collect_timed_out_late|].
  intros early late rest Hnum Hearly Hlate.
  assert (Hc : collect cv st num_samples (early ++ late :: rest) [] 0 = Some TimedOut).
  { induction early as [|p early IH]; simpl.
    - destruct (Z.ltb_spec 0 num_samples); [|lia].
      unfold enroll_step. destruct (Z.ltb_spec 30 (elapsed late)); [reflexivity | lia].
    - destruct (Z.ltb_spec 0 num_samples); [|lia].
      destruct (Hearly p (or_introl eq_refl)) as [Ht Hb].
      rewrite enroll_step_barren by assumption.
      apply IH. intros q Hq. apply Hearly. right. exact Hq. }
  split; [exact Hc|].
  unfold register_user. rewrite Hc. destruct (camera_available st); reflexivity.
Qed.

Lemma enrollment_timeout_exactly_when_late_witness :
  collect studio fresh 3 barren_then_late [] 0 = Some TimedOut /\
  register_user studio fresh "alice" 3 barren_then_late "t1" "t2" = Some (Returned false, fresh).
Proof.
  apply (proj2 (enrollment_timeout_exactly_when_late studio fresh "alice" 3 "t1" "t2")
           [mkPoll 0 None; mkPoll 10 (Some (scene 100 100 5))]
           (mkPoll 31 (Some (scene 200 200 5))) []).
  - lia.
  - intros p [<-|[<-|[]]]; simpl; (split; [lia|]); unfold barren; simpl; auto. lia.
  - simpl. lia.
Defined.

(** ** Verification: effects, number of attempts, best match *)

Lemma log_verification_frame (st : System) (t u a : string) (s : bool)
    (d : list (string * Value)) :
  threshold (log_verification st t u a s d) = threshold st /\
  camera_available (log_verification st t u a s d) = camera_available st /\
  last_faces_write (disk_writes (log_verification st t u a s d))
  = last_faces_write (disk_writes st).
Proof.
  unfold log_verification. destruct (Nat.eqb _ 0); cbn; repeat split.
  induction (disk_writes st) as [|w ws IH]; simpl; [reflexivity|]. rewrite IH. reflexivity.
Qed.

Lemma verify_attempts_shape (cv : Vision) (st : System) (u : string) (user_data : Identity)
    (max_attempts : Z) (cam : nat -> option Image) (t : string) (attempts : list nat) :
  exists b d,
    verify_attempts cv st u user_data max_attempts cam t attempts
    = (b, log_verification st t u "verification" b d).
Proof.
  induction attempts as [|k rest IH].
  - simpl. eauto.
  - rewrite verify_attempts_cons.
    destruct (dist_lt_dec _ _); [eauto | exact IH].
Qed.

(** X5: [verify_user] never touches the identity store, the threshold, the
    camera flag or the saved identities; for a name that is not enrolled, or
    without camera, it returns [False] and changes nothing at all; otherwise
    it appends exactly one audit entry, for that name, with action
    "verification" and with the returned decision as its success flag. *)
Theorem verify_user_effects (cv : Vision) (st : System) (username : string)
    (max_attempts : Z) (cam : nat -> option Image) (t : string) :
  let result := verify_user cv st username max_attempts cam t in
  known_faces (snd result) = known_faces st /\
  threshold (snd result) = threshold st /\
  camera_available (snd result) = camera_available st /\
  last_faces_write (disk_writes (snd result)) = last_faces_write (disk_writes st) /\
  (known_faces st !! username = None \/ camera_available st = false ->
   result = (false, st)) /\
  (is_Some (known_faces st !! username) -> camera_available st = true ->
   exists d,
     verification_logs (snd result)
     = verification_logs st ++ [mkLogEntry t username "verification" (fst result) d]).
Proof.
  cbv zeta. unfold verify_user.
  destruct (known_faces st !! username) as [user_data|] eqn:Hu.
  - destruct (camera_available st) eqn:Hcam; simpl negb; cbv iota.
    + destruct (verify_attempts_shape cv st username user_data max_attempts cam t
                  (seq 0 (Z.to_nat max_attempts))) as (b & d & ->).
      cbn [fst snd].
      destruct (log_verification_frame st t username "verification" b d) as (H1 & H2 & H3).
      rewrite known_faces_log_verification, verification_logs_log_verification.
      split; [reflexivity|]. split; [exact H1|]. split; [congruence|]. split; [exact H3|].
      split.
      * intros [H|H]; discriminate.
      * intros _ _. eauto.
    + cbn [fst snd]. do 5 (split; [auto; congruence|]).
      intros _ H. discriminate.
  - cbn [fst snd]. do 5 (split; [auto; congruence|]).
    intros [? H]. discriminate.
Qed.

Lemma verify_attempts_accepted_prefix (cv : Vision) (st : System) (u : string)
    (user_data : Identity) (cam : nat -> option Image) (t : string) (M M' : Z)
    (l1 l2 : list nat) :
  fst (verify_attempts cv st u user_data M cam t l1) = true ->
  verify_attempts cv st u user_data M' cam t (l1 ++ l2)
  = verify_attempts cv st u user_data M cam t l1.
Proof.
  induction l1 as [|k l1 IH]; intros H.
  - discriminate.
  - simpl app. rewrite !verify_attempts_cons in *.
    destruct (dist_lt_dec _ _); [reflexivity | apply IH, H].
Qed.

(** X6: when [verify_user] accepts with [max_attempts] attempts, it
    returns the very same decision and state with any larger number of
    attempts on the same camera reads; in particular whatever
    [quick_verify] (one attempt) verifies, [verify_face] (three attempts)
    verifies, with the same audit entry. *)
Theorem more_attempts_keep_acceptance (cv : Vision) (st : System)
    (cam : nat -> option Image) (t : string) :
  (forall (username : string) (max_attempts more : Z),
      fst (verify_user cv st username max_attempts cam t) = true ->
      (max_attempts <= more)%Z ->
      verify_user cv st username more cam t = verify_user cv st username max_attempts cam t) /\
  (forall (username : option string) (st' : System) (code : Z),
      quick_verify cv st username cam t = (code, true, st') ->
      verify_face cv st username cam t = (200%Z, true, st')).
Proof.
  assert (Hmono : forall (username : string) (max_attempts more : Z),
             fst (verify_user cv st username max_attempts cam t) = true ->
             (max_attempts <= more)%Z ->
             verify_user cv st username more cam t
             = verify_user cv st username max_attempts cam t).
  { intros username n n' Hacc Hle. unfold verify_user in *.
    destruct (known_faces st !! username) as [user_data|]; [|reflexivity].
    destruct (negb (camera_available st)); [reflexivity|].
    replace (Z.to_nat n') with (Z.to_nat n + (Z.to_nat n' - Z.to_nat n)) by lia.
    rewrite seq_app. apply verify_attempts_accepted_prefix. exact Hacc. }
  split; [exact Hmono|].
  intros username st' code H. unfold quick_verify, verify_face, verify_handler in *.
  destruct (no_username username); [inversion H|].
  destruct username as [u|]; [|inversion H].
  destruct (known_faces st !! u); [|inversion H].
  destruct (negb (camera_available st)); [inversion H|].
  destruct (verify_user cv st u 1 cam t) as [verified st1] eqn:Hq.
  inversion H; subst verified st1 code.
  rewrite (Hmono u 1%Z 3%Z) by (rewrite ?Hq; simpl; lia || reflexivity).
  rewrite Hq. reflexivity.
Qed.

Lemma verify_alice_159 :
  fst (verify_user studio with_alice "alice" 1 (fun _ => Some (scene 200 159 5)) "t") = true.
Proof.
  rewrite (verify_user_enrolled _ _ _ _ _ _ _ with_alice_lookup eq_refl).
  apply verify_attempts_true. exists 0. split; [left; reflexivity|].
  change (dist_lt (attempt_best studio (scene 200 159 5) [1%R; 0%R] deep_learning) (6 / 10)%R).
  rewrite attempt_best_159. simpl. lra.
Qed.

Lemma verify_user_effects_witness :
  exists d,
    verification_logs
      (snd (verify_user studio with_alice "alice" 1 (fun _ => Some (scene 200 159 5)) "t"))
    = verification_logs with_alice
      ++ [mkLogEntry "t" "alice" "verification"
            (fst (verify_user studio with_alice "alice" 1
                    (fun _ => Some (scene 200 159 5)) "t")) d].
Proof.
  apply (verify_user_effects studio with_alice "alice" 1 (fun _ => Some (scene 200 159 5)) "t").
  - rewrite with_alice_lookup. eexists. reflexivity.
  - reflexivity.
Defined.

Lemma more_attempts_keep_acceptance_witness :
  verify_user studio with_alice "alice" 3 (fun _ => Some (scene 200 159 5)) "t"
  = verify_user studio with_alice "alice" 1 (fun _ => Some (scene 200 159 5)) "t".
Proof.
  apply (proj1 (more_attempts_keep_acceptance studio with_alice
                  (fun _ => Some (scene 200 159 5)) "t") "alice"%string 1%Z 3%Z).
  - apply verify_alice_159.
  - lia.
Defined.

Lemma dist_le_refl (a : Dist) : dist_le a a.
Proof. destruct a; simpl; [lra | exact I]. Qed.

Lemma dist_le_trans (a b c : Dist) : dist_le a b -> dist_le b c -> dist_le a c.
Proof. destruct a, b, c; simpl; try tauto; lra. Qed.

Lemma py_min_cases (a b : Dist) :
  dist_le (py_min a b) a /\ dist_le (py_min a b) b /\ (py_min a b = a \/ py_min a b = b).
Proof.
  unfold py_min. destruct (dist_ltd_dec b a) as [H|H].
  - destruct a, b; simpl in *; repeat split; auto; try lra.
  - destruct a, b; simpl in *; repeat split; auto; try lra; tauto.
Qed.

Lemma py_min_swap (best d1 d2 : Dist) :
  py_min (py_min best d1) d2 = py_min (py_min best d2) d1.
Proof.
  unfold py_min.
  destruct best as [b|], d1 as [x|], d2 as [y|]; simpl;
    repeat (match goal with
            | |- context [Rlt_dec ?p ?q] => destruct (Rlt_dec p q); simpl
            end);
    try reflexivity; try (f_equal; lra); try lra.
Qed.

Lemma face_step_box_distance (cv : Vision) (frame : Image) (reg : Encoding) (m : Method)
    (best : Dist) (box : Z * Z * Z * Z) :
  face_step cv frame reg m best box
  = match box_distance cv frame reg m box with
    | Some d => py_min best d
    | None => best
    end.
Proof.
  destruct box as [[[x y] w] h]. unfold face_step, box_distance.
  destruct ((0 <? size (crop frame x y w h))%Z && (100 <? w)%Z && (100 <? h)%Z);
    [|reflexivity].
  destruct (extract_face_encoding cv (Some (crop frame x y w h))) as [[e|] dm]; reflexivity.
Qed.

Lemma face_step_swap (cv : Vision) (frame : Image) (reg : Encoding) (m : Method)
    (best : Dist) (b1 b2 : Z * Z * Z * Z) :
  face_step cv frame reg m (face_step cv frame reg m best b1) b2
  = face_step cv frame reg m (face_step cv frame reg m best b2) b1.
Proof.
  rewrite !face_step_box_distance.
  destruct (box_distance cv frame reg m b1), (box_distance cv frame reg m b2);
    try reflexivity. apply py_min_swap.
Qed.

Lemma fold_face_step_minimum (cv : Vision) (frame : Image) (reg : Encoding) (m : Method)
    (boxes : list (Z * Z * Z * Z)) :
  forall best,
    let r := fold_left (face_step cv frame reg m) boxes best in
    dist_le r best /\
    (forall box d, In box boxes -> box_distance cv frame reg m box = Some d -> dist_le r d) /\
    (r = best \/ exists box, In box boxes /\ box_distance cv frame reg m box = Some r).
Proof.
  induction boxes as [|b rest IH]; intros best; cbv zeta.
  - simpl. split; [apply dist_le_refl|]. split; [intros ? ? []|]. left. reflexivity.
  - cbn [fold_left]. destruct (IH (face_step cv frame reg m best b)) as (Hle & Hall & Hatt).
    assert (Hstep : dist_le (face_step cv frame reg m best b) best /\
                    (forall d, box_distance cv frame reg m b = Some d ->
                               dist_le (face_step cv frame reg m best b) d) /\
                    (face_step cv frame reg m best b = best \/
                     box_distance cv frame reg m b
                     = Some (face_step cv frame reg m best b))).
    { rewrite face_step_box_distance.
      destruct (box_distance cv frame reg m b) as [d|].
      - destruct (py_min_cases best d) as (H1 & H2 & [H3|H3]).
        + split; [exact H1|]. split; [|left; exact H3]. intros d' Hd'. inversion Hd'; subst.
          exact H2.
        + split; [exact H1|]. split; [|right; rewrite H3; reflexivity].
          intros d' Hd'. inversion Hd'; subst. exact H2.
      - split; [apply dist_le_refl|]. split; [discriminate|]. left. reflexivity. }
    destruct Hstep as (S1 & S2 & S3).
    split; [eapply dist_le_trans; eassumption|]. split.
    + intros box d [<-|Hin] Hd.
      * eapply dist_le_trans; [exact Hle | apply S2, Hd].
      * eapply Hall; eassumption.
    + destruct Hatt as [Hr | (box & Hin & Hd)].
      * destruct S3 as [S3|S3].
        -- left. rewrite Hr. exact S3.
        -- right. exists b. split; [left; reflexivity|]. rewrite Hr. exact S3.
      * right. exists box. split; [right; exact Hin | exact Hd].
Qed.

Lemma fold_face_step_permutation (cv : Vision) (frame : Image) (reg : Encoding) (m : Method)
    (boxes boxes' : list (Z * Z * Z * Z)) :
  Permutation boxes boxes' ->
  forall best,
    fold_left (face_step cv frame reg m) boxes best
    = fold_left (face_step cv frame reg m) boxes' best.
Proof.
  induction 1 as [|b l l' _ IH|b1 b2 l|l l' l'' _ IH1 _ IH2]; intros best.
  - reflexivity.
  - simpl. apply IH.
  - simpl. rewrite face_step_swap. reflexivity.
  - rewrite IH1. apply IH2.
Qed.

Lemma dist_le_lt (a b : Dist) (t : R) : dist_le a b -> dist_lt b t -> dist_lt a t.
Proof. destruct a, b; simpl; try tauto; lra. Qed.

(** C5: against an enrolled identity the best distance of an attempt is
    the minimum of the distances of its candidates (the detections of the
    captured frame that pass the size gate and yield an encoding), [inf]
    when there is none or no frame; an attempt accepts exactly when that
    best distance is strictly below the threshold, so the run returns [True]
    exactly when some attempt has a candidate with a distance below the
    threshold; the first accepting attempt ends the run with [True] and a
    success entry carrying its best distance; when no attempt of the
    [max_attempts] qualifies the run ends with [False] and a failure entry
    carrying the attempt count; with threshold 0.6 the distance 0.59 is
    accepted and 0.60 is not. *)
Theorem verify_user_decision (cv : Vision) (st : System) (username : string)
    (user_data : Identity) (max_attempts : Z) (cam : nat -> option Image) (t : string) :
  known_faces st !! username = Some user_data ->
  camera_available st = true ->
  let best := best_of_attempt cv st user_data cam in
  let distance frame := box_distance cv frame (encoding user_data) (method user_data) in
  let result := verify_user cv st username max_attempts cam t in
  (forall k,
      match capture_frame st (cam k) with
      | None => best k = Inf
      | Some frame =>
          (forall box d,
              In box (detect_faces cv frame) -> distance frame box = Some d ->
              dist_le (best k) d) /\
          (best k = Inf \/
           exists box, In box (detect_faces cv frame) /\ distance frame box = Some (best k))
      end) /\
  (fst result = true <->
   exists k, k < Z.to_nat max_attempts /\ dist_lt (best k) (threshold st)) /\
  (fst result = true <->
   exists k frame box d,
     k < Z.to_nat max_attempts /\ capture_frame st (cam k) = Some frame /\
     In box (detect_faces cv frame) /\ distance frame box = Some d /\
     dist_lt d (threshold st)) /\
  (forall k,
      k < Z.to_nat max_attempts ->
      dist_lt (best k) (threshold st) ->
      (forall j, j < k -> ~ dist_lt (best j) (threshold st)) ->
      fst result = true /\
      verification_logs (snd result)
      = verification_logs st
        ++ [mkLogEntry t username "verification" true
              [("distance"%string, VDist (best k))]]) /\
  ((forall k, k < Z.to_nat max_attempts -> ~ dist_lt (best k) (threshold st)) ->
   fst result = false /\
   verification_logs (snd result)
   = verification_logs st
     ++ [mkLogEntry t username "verification" false
           [("attempts"%string, VInt max_attempts)]]) /\
  (threshold st = (6 / 10)%R ->
   dist_lt (Fin (59 / 100)) (threshold st) /\ ~ dist_lt (Fin (60 / 100)) (threshold st)).
Proof.
  intros Hu Hc best distance result. subst result.
  rewrite (verify_user_enrolled cv st username user_data max_attempts cam t Hu Hc).
  assert (Hbest : forall k,
             match capture_frame st (cam k) with
             | None => best k = Inf
             | Some frame =>
                 (forall box d,
                     In box (detect_faces cv frame) -> distance frame box = Some d ->
                     dist_le (best k) d) /\
                 (best k = Inf \/
                  exists box,
                    In box (detect_faces cv frame) /\ distance frame box = Some (best k))
             end).
  { intros k. subst best distance. unfold best_of_attempt.
    destruct (capture_frame st (cam k)) as [frame|]; [|reflexivity].
    unfold attempt_best.
    destruct (fold_face_step_minimum cv frame (encoding user_data) (method user_data)
                (detect_faces cv frame) Inf) as (_ & Hall & Hatt).
    split; [exact Hall | exact Hatt]. }
  assert (Hiff : fst (verify_attempts cv st username user_data max_attempts cam t
                        (seq 0 (Z.to_nat max_attempts))) = true <->
                 exists k, k < Z.to_nat max_attempts /\ dist_lt (best k) (threshold st)).
  { rewrite verify_attempts_true. split.
    - intros (k & Hk & Hd). exists k. apply in_seq in Hk. split; [lia | exact Hd].
    - intros (k & Hk & Hd). exists k. split; [apply in_seq; lia | exact Hd]. }
  split; [exact Hbest|]. split; [exact Hiff|]. split; [|split; [|split]].
  - rewrite Hiff. split.
    + intros (k & Hk & Hd). specialize (Hbest k).
      destruct (capture_frame st (cam k)) as [frame|] eqn:Hf.
      * destruct Hbest as (_ & [Hinf | (box & Hin & Hbox)]).
        -- rewrite Hinf in Hd. destruct Hd.
        -- exists k, frame, box, (best k). auto.
      * rewrite Hbest in Hd. destruct Hd.
    + intros (k & frame & box & d & Hk & Hf & Hin & Hbox & Hd). exists k.
      split; [exact Hk|]. specialize (Hbest k). rewrite Hf in Hbest.
      destruct Hbest as (Hmin & _).
      eapply dist_le_lt; [eapply Hmin; eassumption | exact Hd].
  - intros k Hk Hd Hfirst.
    rewrite (seq_split_at _ k Hk), verify_attempts_accept; try assumption.
    + simpl. rewrite verification_logs_log_verification. auto.
    + intros j Hj. apply Hfirst. apply in_seq in Hj. lia.
  - intros Hno. rewrite verify_attempts_reject.
    + simpl. rewrite verification_logs_log_verification. auto.
    + intros k Hk. apply Hno. apply in_seq in Hk. lia.
  - intros ->. apply boundary_059_060.
Qed.

Lemma verify_user_decision_witness :
  let result := verify_user studio with_alice "alice" 1 (fun _ => Some (scene 200 159 5)) "t" in
  fst result = true /\
  verification_logs (snd result)
  = verification_logs with_alice
    ++ [mkLogEntry "t" "alice" "verification" true
          [("distance"%string,
            VDist (best_of_attempt studio with_alice
                     (mkIdentity [1%R; 0%R] deep_learning 3 "t0")
                     (fun _ => Some (scene 200 159 5)) 0))]].
Proof.
  apply (proj1 (proj2 (proj2 (proj2 (verify_user_decision studio with_alice "alice"
                         (mkIdentity [1%R; 0%R] deep_learning 3 "t0") 1
                         (fun _ => Some (scene 200 159 5)) "t"
                         with_alice_lookup eq_refl)))) 0).
  - simpl. lia.
  - change (dist_lt (attempt_best studio (scene 200 159 5) [1%R; 0%R] deep_learning)
                    (6 / 10)%R).
    rewrite attempt_best_159. simpl. lra.
  - intros j Hj. lia.
Defined.

(** X7: the best distance of a verification attempt is the minimum over
    the detections that pass the size gate and yield an encoding: it is at
    most the distance of each of them, it is [inf] or the distance of one of
    them, and it does not depend on the order in which the locator reports
    the detections. *)
Theorem attempt_best_is_minimum (cv : Vision) (frame : Image)
    (registered_encoding : Encoding) (method : Method) :
  (forall box d,
      In box (detect_faces cv frame) ->
      box_distance cv frame registered_encoding method box = Some d ->
      dist_le (attempt_best cv frame registered_encoding method) d) /\
  (attempt_best cv frame registered_encoding method = Inf \/
   exists box,
     In box (detect_faces cv frame) /\
     box_distance cv frame registered_encoding method box
     = Some (attempt_best cv frame registered_encoding method)) /\
  (forall boxes,
      Permutation (detect_faces cv frame) boxes ->
      fold_left (face_step cv frame registered_encoding method) boxes Inf
      = attempt_best cv frame registered_encoding method).
Proof.
  unfold attempt_best.
  destruct (fold_face_step_minimum cv frame registered_encoding method
              (detect_faces cv frame) Inf) as (_ & Hall & Hatt).
  split; [exact Hall|]. split; [exact Hatt|].
  intros boxes Hperm. symmetry. apply fold_face_step_permutation, Hperm.
Qed.

Lemma attempt_best_is_minimum_witness :
  dist_le (attempt_best studio (scene 200 159 5) [1%R; 0%R] deep_learning)
          (candidate_distance [1%R; 0%R] deep_learning [(IZR 159 / 100)%R; 0%R] deep_learning).
Proof.
  apply (proj1 (attempt_best_is_minimum studio (scene 200 159 5) [1%R; 0%R] deep_learning)
           (0, 0, 159, 200)%Z).
  - left. reflexivity.
  - reflexivity.
Defined.

(** ** Crops and the face locator *)

Lemma slice_bound_range (n k : Z) : (0 <= n)%Z -> (0 <= slice_bound n k <= n)%Z.
Proof. intros Hn. unfold slice_bound. destruct (Z.ltb_spec k 0); lia. Qed.

(** X8: slicing a frame never reaches outside it: the crop
    [frame[y:y+h, x:x+w]] is at most as large as the frame, whatever the
    box, and each of its pixels is the pixel of the frame at a fixed offset
    that stays inside the frame. *)
Theorem crop_stays_inside_frame (frame : Image) (x y w h : Z) :
  (0 <= rows frame)%Z -> (0 <= cols frame)%Z ->
  (0 <= rows (crop frame x y w h) <= rows frame)%Z /\
  (0 <= cols (crop frame x y w h) <= cols frame)%Z /\
  (0 <= size (crop frame x y w h) <= size frame)%Z /\
  exists y0 x0 : Z,
    (forall r c ch, pixel (crop frame x y w h) r c ch = pixel frame (y0 + r) (x0 + c) ch) /\
    (forall r, (0 <= r < rows (crop frame x y w h))%Z -> (0 <= y0 + r < rows frame)%Z) /\
    (forall c, (0 <= c < cols (crop frame x y w h))%Z -> (0 <= x0 + c < cols frame)%Z).
Proof.
  intros Hr Hc.
  pose proof (slice_bound_range (rows frame) y Hr) as Hy0.
  pose proof (slice_bound_range (rows frame) (y + h) Hr) as Hy1.
  pose proof (slice_bound_range (cols frame) x Hc) as Hx0.
  pose proof (slice_bound_range (cols frame) (x + w) Hc) as Hx1.
  assert (Hrows : (0 <= rows (crop frame x y w h) <= rows frame)%Z) by (simpl; lia).
  assert (Hcols : (0 <= cols (crop frame x y w h) <= cols frame)%Z) by (simpl; lia).
  split; [exact Hrows|]. split; [exact Hcols|]. split.
  - unfold size. nia.
  - exists (slice_bound (rows frame) y), (slice_bound (cols frame) x).
    split; [reflexivity|]. split; intros k Hk; simpl in Hk; lia.
Qed.

Lemma crop_stays_inside_frame_witness :
  (0 <= size (crop (scene 480 640 5) 600 (-20) 150 150) <= size (scene 480 640 5))%Z.
Proof.
  apply (crop_stays_inside_frame (scene 480 640 5) 600 (-20) 150 150); simpl; lia.
Defined.

Lemma dnn_box_inside (frame : Image) (d : Locator.Detection) :
  box_inside frame (Locator.dnn_box frame d).
Proof. unfold box_inside, Locator.dnn_box. cbv zeta. lia. Qed.

Lemma dnn_faces_inside (frame : Image) (detections : list Locator.Detection) :
  Forall (box_inside frame) (Locator.dnn_faces frame detections).
Proof.
  induction detections as [|d rest IH]; simpl; [constructor|].
  destruct (Rlt_dec (1 / 2) (Locator.confidence d)); [|exact IH].
  constructor; [apply dnn_box_inside | exact IH].
Qed.

Lemma length_dnn_faces (frame : Image) (detections : list Locator.Detection) :
  length (Locator.dnn_faces frame detections) <= length detections.
Proof.
  induction detections as [|d rest IH]; simpl; [lia|].
  destruct (Rlt_dec (1 / 2) (Locator.confidence d)); simpl; lia.
Qed.

(** X9: every box that the network detector returns lies inside the frame
    (its corner is not negative and it ends at or before the right and lower
    edge), so whenever such a box passes the size gate of the workflows its
    crop is not empty and has exactly the width and height of the box; when
    the network returns at least one box, [detect_faces] returns the
    network's boxes and the Haar cascade is not consulted; without network
    and without cascade it returns no box. *)
Theorem dnn_boxes_lie_inside_frame (m : Locator.Models) (frame : Image)
    (faces : list (Z * Z * Z * Z)) :
  Locator.detect_faces_dnn m frame = Some faces ->
  Forall (box_inside frame) faces /\
  (forall x y w h,
      In (x, y, w, h) faces -> (100 < w)%Z -> (100 < h)%Z ->
      rows (crop frame x y w h) = h /\ cols (crop frame x y w h) = w /\
      (0 < size (crop frame x y w h))%Z) /\
  (faces <> [] -> Locator.detect_faces m frame = Some faces) /\
  (Locator.dnn_model m = None -> Locator.cascade_loaded m = false ->
   Locator.detect_faces m frame = Some []).
Proof.
  intros Hdnn.
  assert (Hin : Forall (box_inside frame) faces).
  { unfold Locator.detect_faces_dnn in Hdnn.
    destruct (Locator.dnn_model m) as [forward|].
    - destruct (forward frame) as [detections|]; [|discriminate].
      inversion Hdnn. apply dnn_faces_inside.
    - inversion Hdnn. constructor. }
  split; [exact Hin|]. split; [|split].
  - intros x y w h Hbox Hw Hh.
    rewrite Forall_forall in Hin. apply list_elem_of_In in Hbox.
    specialize (Hin _ Hbox). unfold box_inside in Hin.
    destruct Hin as (Hx & Hy & Hxw & Hyh).
    destruct (crop_inside frame x y w h) as [Hr Hc]; try lia.
    unfold size. rewrite Hr, Hc. repeat split; nia.
  - intros Hne. unfold Locator.detect_faces. rewrite Hdnn.
    destruct faces; [contradiction | reflexivity].
  - intros Hnone Hcasc. unfold Locator.detect_faces, Locator.detect_faces_dnn,
      Locator.detect_faces_haar. rewrite Hnone, Hcasc. reflexivity.
Qed.

Lemma lab_detect_faces_dnn (r c : Z) :
  (0 <= r)%Z -> (0 <= c)%Z ->
  Locator.detect_faces_dnn lab (scene r c 5) = Some [(0, 0, c, r)%Z].
Proof.
  intros Hr Hc. unfold Locator.detect_faces_dnn, lab. cbn [Locator.dnn_model].
  cbn [Locator.dnn_faces Locator.confidence].
  destruct (Rlt_dec (1 / 2) (9 / 10)) as [_|H]; [|exfalso; lra].
  destruct (Rlt_dec (1 / 2) (3 / 10)) as [H|_]; [exfalso; lra|].
  unfold Locator.dnn_box. cbn [Locator.rel_x1 Locator.rel_y1 Locator.rel_x2 Locator.rel_y2].
  cbn [rows cols scene].
  assert (H0 : forall v, py_int (0 * IZR v) = 0%Z).
  { intros v. apply py_int_floor; simpl; lra. }
  assert (H1 : forall v, (0 <= v)%Z -> py_int (1 * IZR v) = v).
  { intros v Hv. apply IZR_le in Hv. apply py_int_floor; lra. }
  rewrite !H0, (H1 r Hr), (H1 c Hc).
  rewrite Z.max_id, !Z.min_id, !Z.sub_0_r. reflexivity.
Qed.

Lemma dnn_boxes_lie_inside_frame_witness :
  Locator.detect_faces lab (scene 200 200 5) = Some [(0, 0, 200, 200)%Z].
Proof.
  apply (dnn_boxes_lie_inside_frame lab (scene 200 200 5) [(0, 0, 200, 200)%Z]
           (lab_detect_faces_dnn 200 200 ltac:(lia) ltac:(lia))).
  discriminate.
Defined.

(** ** Statistics and the log listing *)

Lemma filter_partition_length {A : Type} (f : A -> bool) (l : list A) :
  length (List.filter f l) + length (List.filter (fun x => negb (f x)) l) = length l.
Proof.
  induction l as [|x l IH]; simpl; [reflexivity|].
  destruct (f x); simpl; lia.
Qed.

Lemma stats_fields (st : System) (user : string) :
  let s := get_verification_stats st user in
  let logs := user_entries st user in
  total_attempts s = length logs /\
  successful s = length (List.filter (fun log => success log) logs) /\
  failed s = (Z.of_nat (length logs)
              - Z.of_nat (length (List.filter (fun log => success log) logs)))%Z /\
  success_rate s
  = match logs with
    | [] => 0%R
    | _ :: _ => (INR (length (List.filter (fun log => success log) logs))
                 / INR (length logs) * 100)%R
    end /\
  (last_success s, last_failure s) = scan_last (rev logs) None None.
Proof.
  cbv zeta. unfold get_verification_stats. fold (user_entries st user).
  destruct (scan_last (rev (user_entries st user)) None None) as [ls lf].
  cbn. repeat split; reflexivity.
Qed.

(** X10: the counts of [get_verification_stats] add up: the failed count is
    the number of failed entries of that user (never negative), total =
    successful + failed, the success rate lies between 0 and 100, it is 0
    for a user without entries and 100 exactly when no entry failed. *)
Theorem stats_counts_add_up (st : System) (user : string) :
  let s := get_verification_stats st user in
  failed s
  = Z.of_nat (length (List.filter (fun log => negb (success log)) (user_entries st user))) /\
  Z.of_nat (total_attempts s) = (Z.of_nat (successful s) + failed s)%Z /\
  (0 <= success_rate s <= 100)%R /\
  (total_attempts s = 0 -> success_rate s = 0%R) /\
  (0 < total_attempts s -> (success_rate s = 100%R <-> failed s = 0%Z)).
Proof.
  cbv zeta.
  destruct (stats_fields st user) as (Ht & Hs & Hf & Hr & _).
  pose proof (filter_partition_length (fun log => success log) (user_entries st user)) as Hp.
  rewrite Ht, Hs, Hf, Hr. clear Ht Hs Hf Hr.
  set (logs := user_entries st user) in *.
  set (ok := length (List.filter (fun log => success log) logs)) in *.
  set (ko := length (List.filter (fun log => negb (success log)) logs)) in *.
  split; [lia|]. split; [lia|].
  assert (Hok : (0 <= INR ok)%R) by apply pos_INR.
  assert (Hle : (INR ok <= INR (length logs))%R) by (apply le_INR; lia).
  destruct logs as [|e logs'] eqn:Hlogs.
  - split; [lra|]. split; [reflexivity|]. simpl. lia.
  - assert (Hpos : (0 < INR (length (e :: logs')))%R) by (apply lt_0_INR; simpl; lia).
    split; [|split].
    + split.
      * apply Rmult_le_pos; [|lra]. apply Rmult_le_pos; [lra|].
        apply Rlt_le, Rinv_0_lt_compat, Hpos.
      * apply Rmult_le_reg_r with (INR (length (e :: logs'))); [exact Hpos|].
        replace (INR ok / INR (length (e :: logs')) * 100 * INR (length (e :: logs')))%R
          with (INR ok * 100)%R by (field; lra).
        lra.
    + simpl. discriminate.
    + intros _. split.
      * intros H.
        assert (Heq : INR ok = INR (length (e :: logs'))).
        { apply Rmult_eq_reg_r with (100 / INR (length (e :: logs')))%R.
          - replace (INR ok * (100 / INR (length (e :: logs'))))%R
              with (INR ok / INR (length (e :: logs')) * 100)%R by (field; lra).
            rewrite H. field. lra.
          - apply Rgt_not_eq. apply Rdiv_lt_0_compat; lra. }
        apply INR_eq in Heq. lia.
      * intros H. assert (Heq : ok = length (e :: logs')) by lia.
        rewrite Heq. field. lra.
Qed.

Lemma stats_counts_add_up_witness :
  success_rate (get_verification_stats fresh "alice") = 0%R.
Proof.
  apply (stats_counts_add_up fresh "alice"). reflexivity.
Defined.

Lemma truthy_Some (t : string) : t <> ""%string -> truthy (Some t) = true.
Proof.
  intros H. simpl. destruct (String.eqb_spec t ""); [contradiction | reflexivity].
Qed.

Lemma scan_last_spec (logs : list LogEntry) :
  (forall e, In e logs -> timestamp e <> ""%string) ->
  forall ls lf,
    (ls = None \/ truthy ls = true) -> (lf = None \/ truthy lf = true) ->
    scan_last logs ls lf
    = (if truthy ls then ls else option_map timestamp (List.find (fun e => success e) logs),
       if truthy lf then lf
       else option_map timestamp (List.find (fun e => negb (success e)) logs)).
Proof.
  induction logs as [|e logs IH]; intros Hts ls lf Hls Hlf.
  - simpl. destruct Hls as [-> | ->], Hlf as [-> | ->]; reflexivity.
  - assert (Ht : truthy (Some (timestamp e)) = true)
      by (apply truthy_Some, Hts; left; reflexivity).
    assert (Hts' : forall e', In e' logs -> timestamp e' <> ""%string)
      by (intros e' He'; apply Hts; right; exact He').
    assert (HN : truthy None = false) by reflexivity.
    cbn [scan_last List.find].
    destruct Hls as [-> | Hls], Hlf as [-> | Hlf];
      destruct (success e);
      rewrite ?HN, ?Hls, ?Hlf; cbn [andb negb];
      rewrite ?HN, ?Hls, ?Hlf, ?Ht; cbn [andb negb option_map];
      try reflexivity;
      rewrite IH by (auto; right; assumption);
      rewrite ?HN, ?Hls, ?Hlf, ?Ht; reflexivity.
Qed.

(** X11: when no entry carries an empty timestamp, the [last_success] of
    [get_verification_stats] is the timestamp of the newest successful entry
    of that user and [last_failure] that of the newest failed one; each is
    [None] exactly when the user has no such entry. *)
Theorem stats_last_timestamps (st : System) (user : string) :
  (forall e, In e (verification_logs st) -> timestamp e <> ""%string) ->
  let s := get_verification_stats st user in
  let newest_first := rev (user_entries st user) in
  last_success s = option_map timestamp (List.find (fun e => success e) newest_first) /\
  last_failure s
  = option_map timestamp (List.find (fun e => negb (success e)) newest_first) /\
  (last_success s = None <-> forall e, In e (user_entries st user) -> success e = false) /\
  (last_failure s = None <-> forall e, In e (user_entries st user) -> success e = true).
Proof.
  intros Hts. cbv zeta.
  destruct (stats_fields st user) as (_ & _ & _ & _ & Hscan).
  rewrite scan_last_spec in Hscan.
  - change (truthy None) with false in Hscan. cbv iota in Hscan.
    injection Hscan as Hs Hf. rewrite Hs, Hf.
    split; [reflexivity|]. split; [reflexivity|].
    split.
    + destruct (List.find (fun e => success e) (rev (user_entries st user))) as [e|] eqn:Hfind.
      * split; [discriminate|]. intros Hall. apply find_some in Hfind as [Hin Hsucc].
        apply in_rev in Hin. rewrite (Hall e Hin) in Hsucc. discriminate.
      * split; [|reflexivity]. intros _ e He.
        pose proof (find_none _ _ Hfind e) as Hn. rewrite <- in_rev in Hn.
        specialize (Hn He). cbv beta in Hn. destruct (success e); [discriminate | reflexivity].
    + destruct (List.find (fun e => negb (success e)) (rev (user_entries st user)))
        as [e|] eqn:Hfind.
      * split; [discriminate|]. intros Hall. apply find_some in Hfind as [Hin Hsucc].
        apply in_rev in Hin. rewrite (Hall e Hin) in Hsucc. discriminate.
      * split; [|reflexivity]. intros _ e He.
        pose proof (find_none _ _ Hfind e) as Hn. rewrite <- in_rev in Hn.
        specialize (Hn He). cbv beta in Hn. destruct (success e); [reflexivity | discriminate].
  - intros e He. apply in_rev in He. unfold user_entries in He.
    apply filter_In in He as [He _]. apply Hts, He.
  - left. reflexivity.
  - left. reflexivity.
Qed.

Lemma stats_last_timestamps_witness :
  last_success (get_verification_stats with_history "alice")
  = option_map timestamp
      (List.find (fun e => success e) (rev (user_entries with_history "alice"))).
Proof.
  apply (stats_last_timestamps with_history "alice").
  intros e [<-|[<-|[<-|[]]]]; discriminate.
Defined.

Lemma get_verification_logs_fields (st : System) (limit : Z) (username : option string) :
  get_verification_logs st limit username
  = (slice_from (- limit) (listed_logs st username), length (listed_logs st username)).
Proof.
  unfold get_verification_logs, listed_logs, user_entries.
  destruct (no_username username); [reflexivity|]. destruct username; reflexivity.
Qed.

(** X12: [get_verification_logs] always reports as [total] the length of
    the whole (filtered) list and returns a tail of it in log order: the
    last [limit] entries, or all of them if there are fewer, for a positive
    [limit]; the whole list, not an empty page, for [limit = 0]; and the
    list without its first [-limit] entries for a negative [limit]. *)
Theorem logs_listing_limit (st : System) (limit : Z) (username : option string) :
  let page := fst (get_verification_logs st limit username) in
  let total := snd (get_verification_logs st limit username) in
  let logs := listed_logs st username in
  total = length logs /\
  (exists older, logs = older ++ page) /\
  (limit = 0%Z -> page = logs) /\
  ((0 < limit)%Z ->
   page = last_n (Z.to_nat limit) logs /\ length page = Nat.min (Z.to_nat limit) total) /\
  ((limit < 0)%Z -> page = skipn (Z.to_nat (- limit)) logs).
Proof.
  cbv zeta. rewrite get_verification_logs_fields. cbn [fst snd].
  set (logs := listed_logs st username).
  split; [reflexivity|]. split; [|split; [|split]].
  - exists (firstn (Z.to_nat (slice_bound (Z.of_nat (length logs)) (- limit))) logs).
    unfold slice_from. symmetry. apply firstn_skipn.
  - intros ->. unfold slice_from, slice_bound.
    destruct (Z.ltb_spec (- 0) 0); [lia|].
    replace (Z.to_nat (Z.min (- 0) (Z.of_nat (length logs)))) with 0 by lia. reflexivity.
  - intros Hpos.
    assert (Hpage : slice_from (- limit) logs = last_n (Z.to_nat limit) logs).
    { unfold slice_from, slice_bound, last_n.
      destruct (Z.ltb_spec (- limit) 0); [|lia]. f_equal. lia. }
    rewrite Hpage. split; [reflexivity|]. apply length_last_n.
  - intros Hneg. unfold slice_from, slice_bound.
    destruct (Z.ltb_spec (- limit) 0); [lia|].
    destruct (Z.le_gt_cases (- limit) (Z.of_nat (length logs))) as [Hle|Hgt].
    + f_equal. lia.
    + rewrite Z.min_r, Nat2Z.id by lia.
      rewrite !skipn_all2 by lia. reflexivity.
Qed.

Lemma logs_listing_limit_witness :
  fst (get_verification_logs with_history 0 (Some "alice"%string))
  = listed_logs with_history (Some "alice"%string).
Proof.
  apply (proj1 (proj2 (proj2 (logs_listing_limit with_history 0 (Some "alice"%string))))).
  reflexivity.
Defined.

Lemma scan_last_keeps (logs : list LogEntry) :
  forall ls lf,
    (truthy ls = true -> fst (scan_last logs ls lf) = ls) /\
    (truthy lf = true -> snd (scan_last logs ls lf) = lf).
Proof.
  induction logs as [|e logs IH]; intros ls lf; [split; reflexivity|].
  cbn [scan_last].
  destruct (success e), (truthy ls) eqn:Hls, (truthy lf) eqn:Hlf; cbn [andb negb];
    rewrite ?Hls, ?Hlf; cbn [andb negb];
    try destruct (truthy (Some (timestamp e))) eqn:Ht; cbn [andb negb];
    (split; intros Hk; try discriminate; try reflexivity; try (apply IH; assumption)).
Qed.

Lemma scan_last_first (e : LogEntry) (logs : list LogEntry) :
  scan_last (e :: logs) None None
  = scan_last logs (if success e then Some (timestamp e) else None)
      (if success e then None else Some (timestamp e)).
Proof.
  cbn [scan_last truthy]. destruct (success e); cbn [andb negb];
    rewrite ?andb_false_r; reflexivity.
Qed.

Lemma user_entries_snoc (st st' : System) (e : LogEntry) (user : string) :
  verification_logs st' = verification_logs st ++ [e] ->
  user_entries st' user
  = user_entries st user ++ (if String.eqb (username e) user then [e] else []).
Proof.
  intros H. unfold user_entries. rewrite H, List.filter_app. reflexivity.
Qed.

Lemma stats_depend_on_entries (st st' : System) (user : string) :
  user_entries st' user = user_entries st user ->
  get_verification_stats st' user = get_verification_stats st user.
Proof.
  intros H. unfold get_verification_stats. fold (user_entries st user).
  fold (user_entries st' user). rewrite H. reflexivity.
Qed.

(** X13: a verification of an enrolled user with the camera available
    shows up in the statistics at once: that user's total grows by one, the
    successful or the failed count by one according to the decision, the
    matching last-timestamp becomes the time of the run (when that is not
    the empty string), and the statistics of every other user stay as they
    were. *)
Theorem verification_updates_stats (cv : Vision) (st : System) (user : string)
    (max_attempts : Z) (cam : nat -> option Image) (t : string) :
  is_Some (known_faces st !! user) ->
  camera_available st = true ->
  let result := verify_user cv st user max_attempts cam t in
  let before := get_verification_stats st user in
  let after := get_verification_stats (snd result) user in
  total_attempts after = S (total_attempts before) /\
  successful after = successful before + (if fst result then 1 else 0) /\
  failed after = (failed before + (if fst result then 0 else 1))%Z /\
  (t <> ""%string ->
   if fst result then last_success after = Some t else last_failure after = Some t) /\
  (forall other, other <> user ->
     get_verification_stats (snd result) other = get_verification_stats st other).
Proof.
  intros Hu Hcam. cbv zeta.
  destruct Hu as [user_data Hu].
  rewrite (verify_user_enrolled cv st user user_data max_attempts cam t Hu Hcam).
  destruct (verify_attempts_shape cv st user user_data max_attempts cam t
              (seq 0 (Z.to_nat max_attempts))) as (b & d & ->).
  cbn [fst snd].
  set (st' := log_verification st t user "verification" b d).
  set (e := mkLogEntry t user "verification" b d).
  assert (Hlogs : verification_logs st' = verification_logs st ++ [e])
    by apply verification_logs_log_verification.
  assert (Hmine : user_entries st' user = user_entries st user ++ [e]).
  { rewrite (user_entries_snoc st st' e user Hlogs). cbn [username e].
    rewrite String.eqb_refl. reflexivity. }
  destruct (stats_fields st user) as (Ht & Hs & Hf & _ & _).
  destruct (stats_fields st' user) as (Ht' & Hs' & Hf' & _ & Hscan').
  rewrite Ht, Hs, Hf, Ht', Hs', Hf', Hmine. clear Ht Hs Hf Ht' Hs' Hf'.
  rewrite List.filter_app, !length_app. cbn [List.filter success e length].
  split; [lia|]. split; [destruct b; simpl; lia|]. split; [destruct b; simpl; lia|].
  split.
  - intros Hne. rewrite Hmine, rev_app_distr in Hscan'. cbn [rev app] in Hscan'.
    rewrite scan_last_first in Hscan'. cbn [success timestamp e] in Hscan'.
    pose proof (truthy_Some t Hne) as Htruthy.
    destruct b.
    + destruct (scan_last_keeps (rev (user_entries st user)) (Some t) None) as [Hk _].
      specialize (Hk Htruthy). rewrite <- Hscan' in Hk. exact Hk.
    + destruct (scan_last_keeps (rev (user_entries st user)) None (Some t)) as [_ Hk].
      specialize (Hk Htruthy). rewrite <- Hscan' in Hk. exact Hk.
  - intros other Hother. apply stats_depend_on_entries.
    rewrite (user_entries_snoc st st' e other Hlogs). cbn [username e].
    destruct (String.eqb_spec user other); [congruence|]. apply app_nil_r.
Qed.

Lemma verification_updates_stats_witness :
  total_attempts
    (get_verification_stats
       (snd (verify_user studio with_alice "alice" 1 (fun _ => Some (scene 200 159 5)) "t"))
       "alice")
  = S (total_attempts (get_verification_stats with_alice "alice")).
Proof.
  apply (verification_updates_stats studio with_alice "alice" 1
           (fun _ => Some (scene 200 159 5)) "t").
  - rewrite with_alice_lookup. eexists. reflexivity.
  - reflexivity.
Defined.

(** ** The handlers: threshold, deletion, registration guard, restart *)

Lemma verify_decision_iff (cv : Vision) (st : System) (user : string) (user_data : Identity)
    (max_attempts : Z) (cam : nat -> option Image) (t : string) :
  known_faces st !! user = Some user_data ->
  camera_available st = true ->
  (fst (verify_user cv st user max_attempts cam t) = true <->
   exists k, k < Z.to_nat max_attempts /\
             dist_lt (best_of_attempt cv st user_data cam k) (threshold st)).
Proof.
  intros Hu Hcam.
  rewrite (verify_user_enrolled cv st user user_data max_attempts cam t Hu Hcam).
  rewrite verify_attempts_true. split.
  - intros (k & Hk & Hd). exists k. apply in_seq in Hk. split; [lia | exact Hd].
  - intros (k & Hk & Hd). exists k. split; [apply in_seq; lia | exact Hd].
Qed.

(** X14: [update_threshold] answers 200 exactly for a value that converts
    to a number between 0.1 and 1.0 and then changes the threshold and
    nothing else; it answers 500 exactly when the conversion raises
    [OverflowError], which the handler does not catch, and 400 in every
    other case, and then changes nothing; so a threshold within [0.1, 1.0]
    stays within it; and after an accepted update to [t] a verification
    accepts exactly when some attempt's best distance is below [t]. *)
Theorem update_threshold_guard (st : System) (body : FloatConversion) :
  let code := fst (update_threshold st body) in
  let st' := snd (update_threshold st body) in
  (code = 200%Z \/ code = 400%Z \/ code = 500%Z) /\
  (code = 200%Z <-> exists t, body = FloatNumber t /\ (1 / 10 <= t <= 1)%R) /\
  (code = 500%Z <-> body = FloatOverflow) /\
  (code <> 200%Z -> st' = st) /\
  (forall t, body = FloatNumber t -> code = 200%Z ->
     threshold st' = t /\ known_faces st' = known_faces st /\
     verification_logs st' = verification_logs st /\
     camera_available st' = camera_available st /\ disk_writes st' = disk_writes st) /\
  ((1 / 10 <= threshold st <= 1)%R -> (1 / 10 <= threshold st' <= 1)%R) /\
  (forall (cv : Vision) (user : string) (user_data : Identity) (max_attempts : Z)
          (cam : nat -> option Image) (tl : string) (t : R),
      body = FloatNumber t -> code = 200%Z ->
      known_faces st !! user = Some user_data -> camera_available st = true ->
      (fst (verify_user cv st' user max_attempts cam tl) = true <->
       exists k, k < Z.to_nat max_attempts /\
                 dist_lt (best_of_attempt cv st user_data cam k) t)).
Proof.
  cbv zeta. unfold update_threshold.
  assert (Hrefused : forall c : Z,
             c = 400%Z \/ c = 500%Z ->
             (forall t, body = FloatNumber t -> ~ (1 / 10 <= t <= 1)%R) ->
             (c = 500%Z <-> body = FloatOverflow) ->
             (c = 200%Z \/ c = 400%Z \/ c = 500%Z) /\
             (c = 200%Z <-> exists t, body = FloatNumber t /\ (1 / 10 <= t <= 1)%R) /\
             (c = 500%Z <-> body = FloatOverflow) /\
             (c <> 200%Z -> st = st) /\
             (forall t, body = FloatNumber t -> c = 200%Z ->
                threshold st = t /\ known_faces st = known_faces st /\
                verification_logs st = verification_logs st /\
                camera_available st = camera_available st /\
                disk_writes st = disk_writes st) /\
             ((1 / 10 <= threshold st <= 1)%R -> (1 / 10 <= threshold st <= 1)%R) /\
             (forall (cv : Vision) (user : string) (user_data : Identity)
                     (max_attempts : Z) (cam : nat -> option Image) (tl : string) (t : R),
                 body = FloatNumber t -> c = 200%Z ->
                 known_faces st !! user = Some user_data -> camera_available st = true ->
                 (fst (verify_user cv st user max_attempts cam tl) = true <->
                  exists k, k < Z.to_nat max_attempts /\
                            dist_lt (best_of_attempt cv st user_data cam k) t))).
  { intros c Hc Hout H500.
    assert (Hne : c <> 200%Z) by (destruct Hc as [-> | ->]; discriminate).
    split; [tauto|]. split.
    { split; [intros H; contradiction|]. intros (t & Ht & Hr). destruct (Hout t Ht Hr). }
    split; [exact H500|]. split; [reflexivity|].
    split; [intros t _ H; contradiction|]. split; [auto|].
    intros cv user user_data n cam tl t _ H. contradiction. }
  destruct body as [t| | |]; cbn [fst snd].
  - destruct (Rle_dec (1 / 10) t) as [Hlo|Hlo]; [destruct (Rle_dec t 1) as [Hhi|Hhi]|];
      cbn [fst snd].
    + split; [left; reflexivity|]. split; [split; eauto|].
      split; [split; discriminate|].
      split; [intros H; contradiction H; reflexivity|].
      split; [intros t' Ht' _; inversion Ht'; auto|].
      split; [intros _; simpl; lra|].
      intros cv user user_data n cam tl t' Ht' _ Hu Hcam. inversion Ht'; subst t'.
      apply (verify_decision_iff cv (set_threshold st t) user user_data n cam tl Hu Hcam).
    + apply Hrefused; [left; reflexivity| |split; discriminate].
      intros t' Ht'. inversion Ht'; subst. lra.
    + apply Hrefused; [left; reflexivity| |split; discriminate].
      intros t' Ht'. inversion Ht'; subst. lra.
  - apply Hrefused; [left; reflexivity|discriminate|split; discriminate].
  - apply Hrefused; [left; reflexivity|discriminate|split; discriminate].
  - apply Hrefused; [right; reflexivity|discriminate|split; reflexivity].
Qed.

Lemma update_threshold_guard_witness :
  fst (update_threshold fresh (FloatNumber (6 / 10)%R)) = 200%Z /\
  fst (update_threshold fresh FloatOverflow) = 500%Z.
Proof.
  pose proof (update_threshold_guard fresh (FloatNumber (6 / 10)%R)) as H1.
  pose proof (update_threshold_guard fresh FloatOverflow) as H2.
  cbv zeta in H1, H2.
  destruct H1 as (_ & [_ H1] & _), H2 as (_ & _ & [_ H2] & _).
  split.
  - apply H1. eexists. split; [reflexivity | lra].
  - apply H2. reflexivity.
Defined.

Lemma last_faces_write_snoc_faces (ws : list Write) (faces : gmap string Identity) :
  last_faces_write (ws ++ [WriteFaces faces]) = Some faces.
Proof. apply last_faces_write_app_faces. reflexivity. Qed.

(** X15: [delete_user] answers 200 exactly for a non-empty name that is
    enrolled; it then removes that identity and no other, dumps the
    remaining store, and keeps the audit log, so that the statistics handler
    answers 404 for the name while its log entries stay listed; a second
    deletion answers 404; 400 and 404 change nothing. *)
Theorem delete_user_effects (st : System) (username : option string) :
  let code := fst (delete_user st username) in
  let st' := snd (delete_user st username) in
  (code = 200%Z <->
   exists u, username = Some u /\ u <> ""%string /\ is_Some (known_faces st !! u)) /\
  (code <> 200%Z -> (code = 400%Z \/ code = 404%Z) /\ st' = st) /\
  (forall u, username = Some u -> code = 200%Z ->
     known_faces st' = delete u (known_faces st) /\
     known_faces st' !! u = None /\
     (forall other, other <> u -> known_faces st' !! other = known_faces st !! other) /\
     verification_logs st' = verification_logs st /\
     threshold st' = threshold st /\
     last_faces_write (disk_writes st') = Some (known_faces st') /\
     get_user_stats st' u = (404%Z, None) /\
     get_verification_logs st' 0 username = get_verification_logs st 0 username /\
     fst (delete_user st' username) = 404%Z).
Proof.
  cbv zeta. unfold delete_user.
  destruct username as [u|]; cbn [no_username].
  - destruct (String.eqb_spec u "") as [->|Hne].
    + cbn [fst snd]. split; [split; [discriminate|]|].
      * intros (u' & Hu' & Hne' & _). inversion Hu'; subst. contradiction.
      * split; [auto|]. intros u' _ H. discriminate.
    + destruct (known_faces st !! u) as [ident|] eqn:Hu; cbn [fst snd].
      * split; [split; [|reflexivity]|].
        -- intros _. exists u. rewrite Hu. eauto.
        -- split; [intros H; contradiction H; reflexivity|].
           intros u' Hu' _. inversion Hu'; subst u'.
           unfold save_data. cbn.
           split; [reflexivity|]. split; [apply lookup_delete_eq|].
           split; [intros other Ho; apply lookup_delete_ne; congruence|].
           split; [reflexivity|]. split; [reflexivity|].
           split; [apply last_faces_write_snoc_faces|].
           split; [unfold get_user_stats; cbn; rewrite lookup_delete_eq; reflexivity|].
           split; [reflexivity|].
           destruct (String.eqb_spec u ""); [contradiction|].
           rewrite lookup_delete_eq. reflexivity.
      * split; [split; [discriminate|]|].
        -- intros (u' & Hu' & _ & [x Hx]). inversion Hu'; subst. congruence.
        -- split; [auto|]. intros u' _ H. discriminate.
  - cbn [fst snd]. split; [split; [discriminate|]|].
    + intros (u' & Hu' & _). discriminate.
    + split; [auto|]. intros u' H. discriminate.
Qed.

Lemma delete_user_effects_witness :
  known_faces (snd (delete_user with_alice (Some "alice"%string))) !! "alice"%string = None.
Proof.
  apply (proj2 (proj2 (delete_user_effects with_alice (Some "alice"%string)))
           "alice"%string eq_refl).
  reflexivity.
Defined.

(** X16: [register_face] starts the registration thread exactly when a
    non-empty name is given that is not enrolled and the camera is
    available (400, 400 and 503 otherwise); a registration started that way
    which commits adds exactly one identity to the store, and deleting that
    user afterwards gives back the store as it was; [register_user] itself
    does not check the name: called for an enrolled name it replaces the
    entry and the number of identities stays the same. *)
Theorem registration_guard_and_overwrite (cv : Vision) (st st' : System) (u : string)
    (num_samples : Z) (polls : list Poll) (t_registered t_logged : string) :
  (forall username,
      (register_face st username = (200%Z, true) <->
       exists v, username = Some v /\ v <> ""%string /\ known_faces st !! v = None /\
                 camera_available st = true) /\
      (snd (register_face st username) = false ->
       fst (register_face st username) = 400%Z \/ fst (register_face st username) = 503%Z)) /\
  (register_user cv st u num_samples polls t_registered t_logged = Some (Returned true, st') ->
   (register_face st (Some u) = (200%Z, true) ->
    base.size (known_faces st') = S (base.size (known_faces st)) /\
    known_faces (snd (delete_user st' (Some u))) = known_faces st) /\
   (is_Some (known_faces st !! u) ->
    base.size (known_faces st') = base.size (known_faces st) /\
    exists ident, known_faces st' !! u = Some ident /\ registered ident = t_registered)).
Proof.
  split.
  - intros username. unfold register_face.
    destruct username as [v|]; cbn [no_username].
    + destruct (String.eqb_spec v "") as [->|Hne].
      * split; [|auto]. split; [discriminate|].
        intros (v' & Hv' & Hne' & _). inversion Hv'; subst. contradiction.
      * destruct (known_faces st !! v) as [ident|] eqn:Hv.
        -- split; [|auto]. split; [discriminate|].
           intros (v' & Hv' & _ & Hnone & _). inversion Hv'; subst. congruence.
        -- destruct (camera_available st) eqn:Hcam; cbn [negb].
           ++ split; [|discriminate]. split; [|reflexivity]. intros _. exists v. auto.
           ++ split; [|auto]. split; [discriminate|].
              intros (v' & _ & _ & _ & H). discriminate.
    + split; [|auto]. split; [discriminate|]. intros (v' & Hv' & _). discriminate.
  - intros Hrun.
    assert (Hstore : exists ident,
               known_faces st' = <[u := ident]> (known_faces st) /\
               registered ident = t_registered).
    { unfold register_user in Hrun.
      destruct (camera_available st); simpl in Hrun; [|discriminate].
      destruct (collect cv st num_samples polls [] 0) as [[|smp]|] eqn:Hc; try discriminate.
      inversion Hrun as [Hcommit].
      destruct (collect_invariant cv st num_samples polls [] 0 smp) as (Hvalid & _ & _); auto.
      destruct (commit_true st st' u smp t_registered t_logged Hvalid Hcommit)
        as (_ & avg & _ & ->).
      eexists. rewrite known_faces_store_identity. split; reflexivity. }
    destruct Hstore as (ident & Hst & Hreg).
    split.
    + intros Hguard. unfold register_face in Hguard.
      cbn [no_username] in Hguard.
      destruct (String.eqb_spec u "") as [->|Hne]; [discriminate|].
      destruct (known_faces st !! u) eqn:Hu; [discriminate|].
      split.
      * rewrite Hst. apply map_size_insert_None, Hu.
      * unfold delete_user. cbn [no_username].
        destruct (String.eqb_spec u ""); [contradiction|].
        rewrite Hst, lookup_insert_eq. cbn.
        rewrite delete_insert_eq. apply delete_id, Hu.
    + intros [old Hold]. split.
      * rewrite Hst. apply map_size_insert_Some. eauto.
      * exists ident. rewrite Hst, lookup_insert_eq. auto.
Qed.

Lemma registration_guard_and_overwrite_witness :
  base.size (known_faces alice_enrolled) = S (base.size (known_faces fresh)) /\
  known_faces (snd (delete_user alice_enrolled (Some "alice"%string))) = known_faces fresh.
Proof.
  apply (proj2 (registration_guard_and_overwrite studio fresh alice_enrolled "alice" 3
                  enroll_polls "t1" "t2")).
  - vm_compute. reflexivity.
  - reflexivity.
Defined.

Lemma register_user_commits_store (cv : Vision) (st st' : System) (u : string)
    (num_samples : Z) (polls : list Poll) (t1 t2 : string) :
  register_user cv st u num_samples polls t1 t2 = Some (Returned true, st') ->
  exists avg m smp, st' = store_identity st u avg m smp t1 t2.
Proof.
  intros Hrun. unfold register_user in Hrun.
  destruct (camera_available st); simpl in Hrun; [|discriminate].
  destruct (collect cv st num_samples polls [] 0) as [[|smp]|] eqn:Hc; try discriminate.
  inversion Hrun as [Hcommit].
  destruct (collect_invariant cv st num_samples polls [] 0 smp) as (Hvalid & _ & _); auto.
  destruct (commit_true st st' u smp t1 t2 Hvalid Hcommit) as (_ & avg & _ & ->).
  eauto.
Qed.

Lemma verify_decision_depends (cv : Vision) (st1 st2 : System) (user : string)
    (max_attempts : Z) (cam : nat -> option Image) (t : string) :
  known_faces st1 = known_faces st2 ->
  threshold st1 = threshold st2 ->
  camera_available st1 = camera_available st2 ->
  fst (verify_user cv st1 user max_attempts cam t)
  = fst (verify_user cv st2 user max_attempts cam t).
Proof.
  intros Hk Ht Hc.
  destruct (known_faces st1 !! user) as [user_data|] eqn:Hu.
  - destruct (camera_available st1) eqn:Hcam.
    + assert (Hu2 : known_faces st2 !! user = Some user_data) by (rewrite <- Hk; exact Hu).
      assert (Hcam2 : camera_available st2 = true) by congruence.
      pose proof (verify_decision_iff cv st1 user user_data max_attempts cam t Hu Hcam) as H1.
      pose proof (verify_decision_iff cv st2 user user_data max_attempts cam t Hu2 Hcam2)
        as H2.
      assert (Hbest : forall k, best_of_attempt cv st1 user_data cam k
                                = best_of_attempt cv st2 user_data cam k).
      { intros k. unfold best_of_attempt, capture_frame. rewrite Hcam, Hcam2. reflexivity. }
      destruct (fst (verify_user cv st1 user max_attempts cam t)) eqn:E1,
               (fst (verify_user cv st2 user max_attempts cam t)) eqn:E2;
        try reflexivity.
      * destruct (proj1 H1 eq_refl) as (k & Hlt & Hd).
        rewrite Hbest, Ht in Hd. symmetry. apply H2. eauto.
      * destruct (proj1 H2 eq_refl) as (k & Hlt & Hd).
        rewrite <- Hbest, <- Ht in Hd. apply H1. eauto.
    + unfold verify_user. rewrite <- Hk, Hu, <- Hc, Hcam. reflexivity.
  - unfold verify_user. rewrite <- Hk, Hu. reflexivity.
Qed.

(** X17: what a committed registration dumped is what a new process gets
    back: [load_data] on the last dumped dictionary returns [True] and
    restores the identity store exactly, so that, with the same threshold
    and camera state, every verification decides as before the restart;
    without a file [load_data] returns [False] and changes nothing; an
    unreadable file empties the store, after which no user verifies. *)
Theorem identities_survive_restart (cv : Vision) (st st' boot : System) (u : string)
    (num_samples : Z) (polls : list Poll) (t_registered t_logged : string) :
  register_user cv st u num_samples polls t_registered t_logged = Some (Returned true, st') ->
  (exists faces,
      last_faces_write (disk_writes st') = Some faces /\
      fst (load_data boot (Pickled faces)) = true /\
      known_faces (snd (load_data boot (Pickled faces))) = known_faces st' /\
      (threshold boot = threshold st' -> camera_available boot = camera_available st' ->
       forall user max_attempts cam t,
         fst (verify_user cv (snd (load_data boot (Pickled faces))) user max_attempts cam t)
         = fst (verify_user cv st' user max_attempts cam t))) /\
  load_data boot NoFile = (false, boot) /\
  fst (load_data boot Unreadable) = false /\
  (forall user max_attempts cam t,
      verify_user cv (snd (load_data boot Unreadable)) user max_attempts cam t
      = (false, snd (load_data boot Unreadable))).
Proof.
  intros Hrun.
  destruct (register_user_commits_store cv st st' u num_samples polls t_registered t_logged
              Hrun) as (avg & m & smp & ->).
  destruct (store_identity_effects st u avg m smp t_registered t_logged)
    as (_ & _ & _ & Hdisk).
  split; [|split; [reflexivity | split; [reflexivity|]]].
  - eexists. split; [exact Hdisk|]. split; [reflexivity|]. split; [reflexivity|].
    intros Ht Hc user n cam t. apply verify_decision_depends; auto.
  - intros user n cam t. unfold verify_user, load_data. cbn.
    rewrite lookup_empty. reflexivity.
Qed.

Lemma identities_survive_restart_witness :
  exists faces,
    last_faces_write (disk_writes alice_enrolled) = Some faces /\
    fst (load_data fresh (Pickled faces)) = true /\
    known_faces (snd (load_data fresh (Pickled faces))) = known_faces alice_enrolled /\
    (threshold fresh = threshold alice_enrolled ->
     camera_available fresh = camera_available alice_enrolled ->
     forall user max_attempts cam t,
       fst (verify_user studio (snd (load_data fresh (Pickled faces))) user max_attempts cam t)
       = fst (verify_user studio alice_enrolled user max_attempts cam t)).
Proof.
  apply (proj1 (identities_survive_restart studio fresh alice_enrolled fresh "alice" 3
                  enroll_polls "t1" "t2" ltac:(vm_compute; reflexivity))).
Defined.

(** ** Texture descriptor: invariance and flat images *)

Lemma lbp_bits_map_gray (f : Z -> Z) (image : Gray) (height width : Z) (radius points : nat)
    (i j center : Z) (ps : list nat) :
  (forall a b, (a <= b)%Z <-> (f a <= f b)%Z) ->
  forall code power,
    lbp_bits (map_gray f image) height width radius points i j (f center) ps code power
    = lbp_bits image height width radius points i j center ps code power.
Proof.
  intros Hf. induction ps as [|p ps IH]; intros code power; [reflexivity|].
  cbn [lbp_bits]. rewrite IH. f_equal.
  destruct (in_image height width _ _); [|reflexivity].
  do 3 f_equal. cbn [gpix map_gray].
  destruct (Z.leb_spec center (gpix image (sample_y radius points i p)
                                 (sample_x radius points j p)));
    destruct (Z.leb_spec (f center) (f (gpix image (sample_y radius points i p)
                                          (sample_x radius points j p))));
    try reflexivity.
  - apply Hf in H. lia.
  - apply Hf in H0. lia.
Qed.

(** X18: the texture histogram only depends on the order of the
    intensities: applying a strictly increasing function to every pixel
    (a brightness or contrast change) leaves [extract_lbp_features]
    unchanged. *)
Theorem texture_invariant_under_monotone_map (f : Z -> Z) (image : Gray)
    (radius points : nat) :
  (forall a b, (a < b)%Z -> (f a < f b)%Z) ->
  extract_lbp_features (map_gray f image) radius points
  = extract_lbp_features image radius points.
Proof.
  intros Hinc.
  assert (Hf : forall a b, (a <= b)%Z <-> (f a <= f b)%Z).
  { intros a b. split; intros H.
    - destruct (Z.eq_dec a b) as [->|Hne]; [lia|].
      assert (f a < f b)%Z by (apply Hinc; lia). lia.
    - destruct (Z.le_gt_cases a b) as [Hle|Hgt]; [exact Hle|].
      assert (f b < f a)%Z by (apply Hinc; lia). lia. }
  unfold extract_lbp_features, lbp_try. cbn [gshape map_gray].
  destruct (gshape image) as [|height [|width [|? ?]]]; try reflexivity.
  destruct (_ || _); [reflexivity|].
  assert (Himg : lbp_image (map_gray f image) height width radius points
                 = lbp_image image height width radius points).
  { unfold lbp_image. apply flat_map_ext. intros i.
    apply map_ext. intros j. f_equal. unfold lbp_code.
    change (gpix (map_gray f image) i j) with (f (gpix image i j)).
    apply lbp_bits_map_gray, Hf. }
  rewrite Himg. reflexivity.
Qed.

Lemma texture_invariant_under_monotone_map_witness :
  extract_lbp_features (map_gray (fun v => (2 * v + 1)%Z) flat5) 2 16
  = extract_lbp_features flat5 2 16.
Proof.
  apply (texture_invariant_under_monotone_map (fun v => (2 * v + 1)%Z) flat5 2 16).
  intros a b H. lia.
Defined.

Lemma lbp_hist_proper (image : Gray) (height width : Z) (radius points : nat) :
  gshape image = [height; width] ->
  (2 * Z.of_nat radius < height)%Z -> (2 * Z.of_nat radius < width)%Z ->
  let codes := lbp_image image height width radius points in
  length codes <> 0 /\
  extract_lbp_features image radius points
  = map (fun c => (c / INR (length codes))%R) (np_histogram 256 256 codes).
Proof.
  intros Hshape Hh Hw codes.
  assert (Hlen : length codes <> 0).
  { subst codes. rewrite length_lbp_image.
    assert (0 < Z.to_nat (height - 2 * Z.of_nat radius)
                * Z.to_nat (width - 2 * Z.of_nat radius)) by (apply Nat.mul_pos_pos; lia).
    lia. }
  split; [exact Hlen|].
  assert (Hsum : Rsum (np_histogram 256 256 codes) = INR (length codes)).
  { apply Rsum_np_histogram. eapply Forall_impl; [apply lbp_image_range|].
    intros c Hc. cbv beta in Hc. exists (Z.to_nat c).
    split; [apply bin_index_256, Hc | lia]. }
  unfold extract_lbp_features, lbp_try. rewrite Hshape.
  destruct (Z.ltb_spec (height - 2 * Z.of_nat radius) 0); [lia|].
  destruct (Z.ltb_spec (width - 2 * Z.of_nat radius) 0); [lia|]. cbn [orb].
  fold codes. unfold normalize_hist. rewrite Hsum.
  destruct (Rlt_dec 0 (INR (length codes))) as [_|Hn]; [reflexivity|].
  exfalso. apply Hn. apply lt_0_INR. lia.
Qed.

Lemma occurrences_all_equal (s v : Z) (codes : list Z) :
  (forall c, In c codes -> c = s) ->
  occurrences v codes = if Z.eqb v s then length codes else 0.
Proof.
  intros Hall. unfold occurrences. induction codes as [|c codes IH].
  - destruct (Z.eqb v s); reflexivity.
  - cbn [List.filter]. rewrite (Hall c) by (left; reflexivity).
    assert (IH' := IH (fun c' Hc' => Hall c' (or_intror Hc'))).
    destruct (Z.eqb v s); cbn [length]; rewrite IH'; reflexivity.
Qed.

Lemma flat_stored_code (image : Gray) (height width : Z) (radius points : nat) (c i j : Z) :
  (forall y x, gpix image y x = c) ->
  (Z.of_nat radius <= i < height - Z.of_nat radius)%Z ->
  (Z.of_nat radius <= j < width - Z.of_nat radius)%Z ->
  (lbp_code image height width radius points i j mod 256)%Z
  = Z.ones (Z.of_nat (Nat.min points 8)).
Proof.
  intros Hflat Hi Hj. apply Z.bits_inj'. intros n Hn.
  replace n with (Z.of_nat (Z.to_nat n)) by lia. set (k := Z.to_nat n).
  change 256%Z with (2 ^ 8)%Z.
  destruct (Nat.ltb_spec k 8) as [Hk|Hk].
  - rewrite Z.mod_pow2_bits_low by lia.
    rewrite lbp_code_testbit. unfold lbp_bit.
    rewrite interior_in_image by assumption. rewrite !Hflat, Z.leb_refl. cbn [andb].
    destruct (Nat.ltb_spec k points) as [Hp|Hp].
    + rewrite Z.ones_spec_low by lia. reflexivity.
    + rewrite Z.ones_spec_high by lia. reflexivity.
  - rewrite Z.mod_pow2_bits_high by lia.
    rewrite Z.ones_spec_high by lia. reflexivity.
Qed.

(** X19: a grey image of one single intensity, higher and wider than
    [2 * radius], does not give the zero vector: every interior pixel gets
    the stored code [2 ^ min(points, 8) - 1] (255 for the default 16
    points), so the histogram is 1 in that bin and 0 in every other bin. *)
Theorem flat_image_fills_one_bin (image : Gray) (height width : Z) (radius points : nat)
    (c : Z) :
  gshape image = [height; width] ->
  (2 * Z.of_nat radius < height)%Z -> (2 * Z.of_nat radius < width)%Z ->
  (forall y x, gpix image y x = c) ->
  let hist := extract_lbp_features image radius points in
  let top := 2 ^ Nat.min points 8 - 1 in
  hist !! top = Some 1%R /\
  (forall v, v < 256 -> v <> top -> hist !! v = Some 0%R) /\
  hist <> np_zeros 256.
Proof.
  intros Hshape Hh Hw Hflat. cbv zeta.
  destruct (lbp_hist_proper image height width radius points Hshape Hh Hw) as [Hlen Hhist].
  set (codes := lbp_image image height width radius points) in *.
  assert (Hcodes : forall s, In s codes -> s = Z.ones (Z.of_nat (Nat.min points 8))).
  { intros s Hs. subst codes. unfold lbp_image in Hs.
    apply in_flat_map in Hs as (i & Hi & Hs). apply in_map_iff in Hs as (j & <- & Hj).
    apply in_py_range in Hi, Hj. apply (flat_stored_code _ _ _ _ _ c); assumption || lia. }
  assert (Htop : Z.ones (Z.of_nat (Nat.min points 8))
                 = Z.of_nat (2 ^ Nat.min points 8 - 1)).
  { rewrite Z.ones_equiv.
    assert (0 < 2 ^ Nat.min points 8) by (apply Nat.neq_0_lt_0, Nat.pow_nonzero; lia).
    rewrite Nat2Z.inj_sub by lia. rewrite Nat2Z.inj_pow. simpl Z.of_nat. lia. }
  assert (Hrange : 2 ^ Nat.min points 8 - 1 < 256).
  { assert (2 ^ Nat.min points 8 <= 2 ^ 8) by (apply Nat.pow_le_mono_r; lia).
    change (2 ^ 8) with 256 in H. lia. }
  assert (Hlook : forall v, v < 256 ->
             extract_lbp_features image radius points !! v
             = Some (INR (if Z.eqb (Z.of_nat v) (Z.of_nat (2 ^ Nat.min points 8 - 1))
                          then length codes else 0) / INR (length codes))%R).
  { intros v Hv. rewrite Hhist, list_lookup_fmap, np_histogram_lookup by exact Hv.
    rewrite bin_hits_256 by (exact Hv || apply lbp_image_range).
    rewrite (occurrences_all_equal (Z.ones (Z.of_nat (Nat.min points 8)))) by exact Hcodes.
    rewrite Htop. reflexivity. }
  assert (Hpos : (0 < INR (length codes))%R) by (apply lt_0_INR; lia).
  assert (Hone : extract_lbp_features image radius points !! (2 ^ Nat.min points 8 - 1)
                 = Some 1%R).
  { rewrite Hlook by exact Hrange. rewrite Z.eqb_refl. f_equal. field. lra. }
  split; [exact Hone|]. split.
  - intros v Hv Hne. rewrite Hlook by exact Hv.
    destruct (Z.eqb_spec (Z.of_nat v) (Z.of_nat (2 ^ Nat.min points 8 - 1))); [lia|].
    f_equal. simpl INR. field. lra.
  - intros Hz.
    assert (Hnth : nth (2 ^ Nat.min points 8 - 1) (extract_lbp_features image radius points)
                     0%R = 1%R) by (rewrite nth_lookup, Hone; reflexivity).
    rewrite Hz in Hnth. unfold np_zeros in Hnth. rewrite nth_repeat in Hnth. lra.
Qed.

Lemma flat_image_fills_one_bin_witness :
  extract_lbp_features flat5 2 16 !! (2 ^ Nat.min 16 8 - 1) = Some 1%R.
Proof.
  apply (flat_image_fills_one_bin flat5 5 5 2 16 7 eq_refl ltac:(simpl; lia) ltac:(simpl; lia)).
  reflexivity.
Defined.

(** ** Feature extractor: the edge segment and the tags *)

Lemma bin_hits_binary (b : nat) (edges : list Z) :
  Forall binary_edge edges ->
  bin_hits 20 256 b edges
  = if Nat.eqb b 0 then occurrences 0 edges
    else if Nat.eqb b 19 then occurrences 255 edges else 0.
Proof.
  unfold bin_hits, occurrences. induction 1 as [|x edges Hx _ IH]; cbn [List.filter].
  - destruct (Nat.eqb b 0), (Nat.eqb b 19); reflexivity.
  - destruct Hx as [-> | ->].
    + change (in_bin 20 256 b 0) with (Nat.eqb 0 b).
      change (Z.eqb 0 0) with true. change (Z.eqb 255 0) with false.
      destruct b as [|b]; cbn [Nat.eqb length]; [rewrite IH; reflexivity|].
      rewrite IH. cbn [Nat.eqb]. destruct (Nat.eqb (S b) 19); reflexivity.
    + change (in_bin 20 256 b 255) with (Nat.eqb 19 b).
      change (Z.eqb 255 255) with true. change (Z.eqb 0 255) with false.
      destruct (Nat.eqb_spec 19 b) as [<-|Hne]; cbn [length].
      * rewrite IH. reflexivity.
      * rewrite IH. destruct (Nat.eqb_spec b 19); [congruence|]. reflexivity.
Qed.

Lemma edge_hist_lookup (edges : list Z) (b : nat) :
  edges <> [] -> Forall binary_edge edges -> b < 20 ->
  normalize_hist (np_histogram 20 256 edges) !! b
  = Some (INR (if Nat.eqb b 0 then occurrences 0 edges
               else if Nat.eqb b 19 then occurrences 255 edges else 0)
          / INR (length edges))%R.
Proof.
  intros Hne Hbin Hb.
  assert (Hsum : Rsum (np_histogram 20 256 edges) = INR (length edges)).
  { apply Rsum_np_histogram. eapply Forall_impl; [exact Hbin|].
    intros x [-> | ->]; [exists 0 | exists 19]; split; try reflexivity; lia. }
  unfold normalize_hist. rewrite Hsum.
  destruct (Rlt_dec 0 (INR (length edges))) as [_|Hn].
  - rewrite list_lookup_fmap, np_histogram_lookup by exact Hb.
    rewrite bin_hits_binary by exact Hbin. reflexivity.
  - exfalso. apply Hn. apply lt_0_INR. destruct edges; [contradiction | simpl; lia].
Qed.

Lemma fallback_encoding_split (cv : Vision) (im fr : Image) (gray : Gray) (edges : list Z)
    (features : Encoding) :
  cv_resize cv im = Some fr -> to_gray cv fr = Some gray -> canny cv gray = Some edges ->
  fallback_encoding cv im = Some features ->
  exists colours,
    color_features cv fr (seq 0 3) [] = Some colours /\
    features = (colours ++ extract_lbp_features gray 2 16)
               ++ normalize_hist (np_histogram 20 256 edges).
Proof.
  intros Hres Hgray Hcanny H. unfold fallback_encoding in H. rewrite Hres in H.
  destruct (color_features cv fr (seq 0 3) []) as [colours|]; [|discriminate].
  rewrite Hgray, Hcanny in H. inversion H. eauto.
Qed.

(** X20: when the edge detector delivers a non-empty map whose cells are
    0 or 255, the last 20 entries of the feature-based encoding hold the
    share of non-edge cells in their first place, the share of edge cells in
    their last place and 0 in the 18 places between; the segment before
    them is the texture histogram, so the encoding has at least 276
    entries. *)
Theorem edge_segment_of_binary_map (cv : Vision) (im fr : Image) (gray : Gray)
    (edges : list Z) (features : Encoding) :
  cv_resize cv im = Some fr -> to_gray cv fr = Some gray -> canny cv gray = Some edges ->
  fallback_encoding cv im = Some features ->
  edges <> [] -> Forall binary_edge edges ->
  276 <= length features /\
  let start := length features - 20 in
  features !! start = Some (INR (occurrences 0 edges) / INR (length edges))%R /\
  features !! (start + 19) = Some (INR (occurrences 255 edges) / INR (length edges))%R /\
  (forall b, 0 < b < 19 -> features !! (start + b) = Some 0%R) /\
  (forall v, v < 256 ->
     features !! (start - 256 + v) = extract_lbp_features gray 2 16 !! v).
Proof.
  intros Hres Hgray Hcanny Hfb Hne Hbin.
  destruct (fallback_encoding_split cv im fr gray edges features Hres Hgray Hcanny Hfb)
    as (colours & _ & ->).
  set (prefix := colours ++ extract_lbp_features gray 2 16).
  set (edge_hist := normalize_hist (np_histogram 20 256 edges)).
  assert (Hle : length edge_hist = 20)
    by (subst edge_hist; rewrite length_normalize_hist; apply length_np_histogram).
  assert (Hlp : length prefix = length colours + 256)
    by (subst prefix; rewrite length_app, length_extract_lbp_features; reflexivity).
  rewrite length_app, Hle.
  split; [lia|]. cbv zeta.
  replace (length prefix + 20 - 20) with (length prefix) by lia.
  assert (Hedge : forall b, b < 20 ->
             (prefix ++ edge_hist) !! (length prefix + b) = edge_hist !! b).
  { intros b Hb. rewrite lookup_app_r by lia. f_equal. lia. }
  split; [|split; [|split]].
  - rewrite <- (Nat.add_0_r (length prefix)), Hedge by lia.
    subst edge_hist. rewrite edge_hist_lookup by (assumption || lia). reflexivity.
  - rewrite Hedge by lia.
    subst edge_hist. rewrite edge_hist_lookup by (assumption || lia). reflexivity.
  - intros b Hb. rewrite Hedge by lia.
    subst edge_hist. rewrite edge_hist_lookup by (assumption || lia).
    destruct (Nat.eqb_spec b 0); [lia|]. destruct (Nat.eqb_spec b 19); [lia|].
    f_equal. simpl INR. unfold Rdiv. apply Rmult_0_l.
  - intros v Hv. rewrite (lookup_app_l prefix edge_hist) by lia. subst prefix.
    rewrite lookup_app_r by lia. f_equal. lia.
Qed.

Lemma edge_segment_of_binary_map_witness :
  276 <= length sketch_features.
Proof.
  apply (edge_segment_of_binary_map sketch (scene 150 150 5)
           (mkImage 128 128 (fun _ _ _ => 5%Z)) (mkGray [] (fun _ _ => 5%Z))
           [0; 255; 0; 0]%Z sketch_features eq_refl eq_refl eq_refl).
  - vm_compute. reflexivity.
  - discriminate.
  - repeat (constructor 2; [unfold binary_edge; lia|]). constructor 1.
Defined.

Lemma extract_face_encoding_cases (cv : Vision) (im : Image) :
  size im <> 0%Z ->
  (exists e es,
      face_encodings cv im = Encodings (e :: es) /\
      extract_face_encoding cv (Some im) = (Some e, deep_learning)) \/
  ((forall e es, face_encodings cv im <> Encodings (e :: es)) /\
   ((exists f, fallback_encoding cv im = Some f /\
               extract_face_encoding cv (Some im) = (Some f, feature_based)) \/
    (fallback_encoding cv im = None /\
     extract_face_encoding cv (Some im) = (None, error)))).
Proof.
  intros Hnz. unfold extract_face_encoding.
  destruct (Z.eqb_spec (size im) 0) as [Hz|_]; [contradiction|].
  destruct (face_encodings cv im) as [| |[|e es]] eqn:Hemb.
  - right. split; [discriminate|].
    destruct (fallback_encoding cv im) as [f|]; [left; eauto | right; auto].
  - right. split; [discriminate|].
    destruct (fallback_encoding cv im) as [f|]; [left; eauto | right; auto].
  - right. split; [discriminate|].
    destruct (fallback_encoding cv im) as [f|]; [left; eauto | right; auto].
  - left. eauto.
Qed.

(** X21: [extract_face_encoding] returns an encoding exactly with the tags
    'deep_learning' and 'feature_based'; the tag is 'invalid' exactly for a
    missing or empty crop; whenever the embedding model yields at least one
    vector on a valid crop, its first vector is returned and the fallback
    path plays no part, even if it would raise; 'feature_based' and 'error'
    mean that the embedding path gave nothing and the fallback path did, or
    did not, produce a vector. *)
Theorem extract_face_encoding_tags (cv : Vision) (face_image : option Image) :
  let enc := fst (extract_face_encoding cv face_image) in
  let tag := snd (extract_face_encoding cv face_image) in
  (is_Some enc <-> tag = deep_learning \/ tag = feature_based) /\
  (tag = invalid <-> face_image = None \/ exists im, face_image = Some im /\ size im = 0%Z) /\
  (forall im e es,
      face_image = Some im -> size im <> 0%Z -> face_encodings cv im = Encodings (e :: es) ->
      extract_face_encoding cv face_image = (Some e, deep_learning)) /\
  (tag = feature_based ->
   exists im, face_image = Some im /\ fallback_encoding cv im = enc /\
              forall e es, face_encodings cv im <> Encodings (e :: es)) /\
  (tag = error ->
   exists im, face_image = Some im /\ fallback_encoding cv im = None /\
              forall e es, face_encodings cv im <> Encodings (e :: es)).
Proof.
  cbv zeta.
  destruct face_image as [im|].
  - destruct (Z.eq_dec (size im) 0%Z) as [Hz|Hnz].
    + assert (Hr : extract_face_encoding cv (Some im) = (None, invalid)).
      { unfold extract_face_encoding. destruct (Z.eqb_spec (size im) 0); [reflexivity|].
        contradiction. }
      rewrite Hr. cbn [fst snd].
      split; [split; [intros [? H]; discriminate | intros [H|H]; discriminate]|].
      split; [split; [eauto | reflexivity]|].
      split; [intros im' e es Him' Hs; inversion Him'; subst; contradiction|].
      split; discriminate.
    + assert (Hinv : forall tag0 : Method, tag0 <> invalid ->
                (tag0 = invalid <->
                 Some im = None \/ exists im', Some im = Some im' /\ size im' = 0%Z)).
      { intros tag0 Ht. split; [contradiction|].
        intros [H | (im' & Him' & Hs)]; [discriminate|]. inversion Him'; subst. contradiction. }
      destruct (extract_face_encoding_cases cv im Hnz)
        as [(e & es & Hemb & Hr) | (Hno & [(f & Hfb & Hr) | (Hfb & Hr)])];
        rewrite Hr; cbn [fst snd].
      * split; [split; [auto | eauto]|]. split; [apply Hinv; discriminate|].
        split; [|split; discriminate].
        intros im' e' es' Him' _ He'. inversion Him'; subst im'.
        rewrite Hemb in He'. inversion He'. reflexivity.
      * split; [split; [auto | eauto]|]. split; [apply Hinv; discriminate|].
        split; [|split; [|discriminate]].
        -- intros im' e' es' Him' _ He'. inversion Him'; subst im'.
           exfalso. eapply Hno, He'.
        -- intros _. exists im. auto.
      * split; [split; [intros [? H]; discriminate | intros [H|H]; discriminate]|].
        split; [apply Hinv; discriminate|].
        split; [|split; [discriminate|]].
        -- intros im' e' es' Him' _ He'. inversion Him'; subst im'.
           exfalso. eapply Hno, He'.
        -- intros _. exists im. auto.
  - cbn [fst snd]. split; [split; [intros [? H]; discriminate | intros [H|H]; discriminate]|].
    split; [split; [auto | reflexivity]|].
    split; [discriminate|]. split; discriminate.
Qed.

Lemma extract_face_encoding_tags_witness :
  extract_face_encoding studio (Some (crop (scene 200 200 7) 0 0 200 200))
  = (Some [(IZR 200 / 100)%R; 0%R], deep_learning).
Proof.
  apply (proj1 (proj2 (proj2 (extract_face_encoding_tags studio
                                (Some (crop (scene 200 200 7) 0 0 200 200)))))
           (crop (scene 200 200 7) 0 0 200 200) [(IZR 200 / 100)%R; 0%R] [] eq_refl).
  - vm_compute. discriminate.
  - reflexivity.
Defined.

(** ** Enrollment followed by verification *)

Lemma register_identical_samples (cv : Vision) (st : System) (username : string)
    (num_samples : Z) (polls : list Poll) (t_registered t_logged : string)
    (smp : list Sample) (e : Encoding) (m : Method) :
  camera_available st = true ->
  collect cv st num_samples polls [] 0 = Some (Collected smp) ->
  smp <> [] ->
  (forall s, In s smp -> s = (e, m)) ->
  (m = deep_learning \/ m = feature_based) /\
  register_user cv st username num_samples polls t_registered t_logged
  = Some (Returned true, store_identity st username e m smp t_registered t_logged).
Proof.
  intros Hcam Hc Hne Hall.
  destruct (collect_invariant cv st num_samples polls [] 0 smp) as (Hvalid & _ & _); auto.
  pose proof (all_equal_repeat (e, m) smp Hall) as Hs.
  destruct (length smp) as [|k] eqn:Hlen;
    [destruct smp; [contradiction | discriminate]|].
  assert (Hs' : smp = repeat (e, m) (S k))
    by (etransitivity; [exact Hs|]; f_equal; exact Hlen).
  clear Hs Hall Hne Hlen. subst smp.
  assert (Hm : m = deep_learning \/ m = feature_based).
  { apply Forall_inv in Hvalid. exact Hvalid. }
  split; [exact Hm|].
  unfold register_user. rewrite Hcam, Hc. simpl negb. cbv iota.
  rewrite commit_repeat by exact Hm. reflexivity.
Qed.

Lemma stored_encoding_is_accepted (cv : Vision) (st : System) (username : string)
    (user_data : Identity) (dm : Method) (max_attempts : Z) (cam : nat -> option Image)
    (t : string) (frame : Image) (x y w h : Z) :
  known_faces st !! username = Some user_data ->
  camera_available st = true ->
  (0 < threshold st)%R ->
  (0 < max_attempts)%Z ->
  cam 0 = Some frame ->
  In (x, y, w, h) (detect_faces cv frame) ->
  (0 < size (crop frame x y w h))%Z -> (100 < w)%Z -> (100 < h)%Z ->
  extract_face_encoding cv (Some (crop frame x y w h)) = (Some (encoding user_data), dm) ->
  fst (verify_user cv st username max_attempts cam t) = true.
Proof.
  intros Hk Hcam Hthr Hatt Hframe Hin Hsize Hw Hh Henc.
  apply (proj2 (verify_decision_iff cv st username user_data max_attempts cam t Hk Hcam)).
  exists 0. split; [lia|].
  unfold best_of_attempt, capture_frame. rewrite Hcam, Hframe.
  destruct (fold_face_step_minimum cv frame (encoding user_data) (method user_data)
              (detect_faces cv frame) Inf) as (_ & Hmin & _).
  assert (Hbd : box_distance cv frame (encoding user_data) (method user_data) (x, y, w, h)
                = Some (Fin 0)).
  { unfold box_distance.
    apply Z.ltb_lt in Hsize, Hw, Hh. rewrite Hsize, Hw, Hh. cbn [andb]. rewrite Henc.
    unfold candidate_distance.
    destruct (Method_eqb (method user_data) dm); rewrite compare_faces_refl; reflexivity. }
  specialize (Hmin _ _ Hin Hbd). unfold attempt_best.
  destruct (fold_left (face_step cv frame (encoding user_data) (method user_data))
              (detect_faces cv frame) Inf) as [r|];
    simpl in Hmin |- *; [lra | contradiction].
Qed.

(** X2: a verification whose first frame shows a detection that passes
    the size gate and yields exactly the stored encoding of the user accepts,
    for every positive threshold and at least one attempt, whatever tag the
    encoding comes with; in particular after an enrollment of one or two
    samples that are the same encoding (for which [np.mean] returns that
    encoding itself, also in [float64]: [x / 1] and [(x + x) / 2] are exact)
    a frame that yields that encoding again is accepted. *)
Theorem enrolled_face_is_accepted (cv : Vision) (st : System) (username : string)
    (max_attempts : Z) (cam : nat -> option Image) (t : string)
    (frame : Image) (x y w h : Z) :
  camera_available st = true ->
  (0 < threshold st)%R ->
  (0 < max_attempts)%Z ->
  cam 0 = Some frame ->
  In (x, y, w, h) (detect_faces cv frame) ->
  (0 < size (crop frame x y w h))%Z -> (100 < w)%Z -> (100 < h)%Z ->
  (forall (user_data : Identity) (dm : Method),
      known_faces st !! username = Some user_data ->
      extract_face_encoding cv (Some (crop frame x y w h))
      = (Some (encoding user_data), dm) ->
      fst (verify_user cv st username max_attempts cam t) = true) /\
  (forall (num_samples : Z) (polls : list Poll) (t_registered t_logged : string)
          (smp : list Sample) (e : Encoding) (m : Method),
      collect cv st num_samples polls [] 0 = Some (Collected smp) ->
      smp <> [] ->
      length smp <= 2 ->
      (forall s, In s smp -> s = (e, m)) ->
      extract_face_encoding cv (Some (crop frame x y w h)) = (Some e, m) ->
      exists st',
        register_user cv st username num_samples polls t_registered t_logged
        = Some (Returned true, st') /\
        fst (verify_user cv st' username max_attempts cam t) = true).
Proof.
  intros Hcam Hthr Hatt Hframe Hin Hsize Hw Hh. split.
  - intros user_data dm Hk Henc.
    eapply stored_encoding_is_accepted; eassumption.
  - intros num_samples polls t_registered t_logged smp e m Hc Hne _ Hall Henc.
    destruct (register_identical_samples cv st username num_samples polls t_registered
                t_logged smp e m Hcam Hc Hne Hall) as (Hm & Hreg).
    eexists. split; [exact Hreg|].
    set (st' := store_identity st username e m smp t_registered t_logged).
    pose proof (store_identity_effects st username e m smp t_registered t_logged) as Heff.
    assert (Hk : known_faces st' !! username
                 = Some (mkIdentity e m (length smp) t_registered)).
    { unfold st'. rewrite known_faces_store_identity. apply lookup_insert_eq. }
    cbv zeta in Heff. fold st' in Heff. destruct Heff as (_ & Hthr' & Hcam' & _).
    rewrite Hcam in Hcam'.
    apply (stored_encoding_is_accepted cv st' username
             (mkIdentity e m (length smp) t_registered) m max_attempts cam t frame x y w h);
      try assumption.
    rewrite Hthr'. exact Hthr.
Qed.

Lemma enrolled_face_is_accepted_witness :
  exists st',
    register_user studio fresh "alice" 2 twin_polls "t1" "t2" = Some (Returned true, st') /\
    fst (verify_user studio st' "alice" 1 (fun _ => Some (scene 150 150 5)) "t3") = true.
Proof.
  apply (proj2 (enrolled_face_is_accepted studio fresh "alice" 1
                  (fun _ => Some (scene 150 150 5)) "t3" (scene 150 150 5) 0 0 150 150
                  eq_refl ltac:(simpl; lra) ltac:(lia) eq_refl
                  ltac:(left; reflexivity) ltac:(vm_compute; reflexivity)
                  ltac:(lia) ltac:(lia))
           2%Z twin_polls "t1"%string "t2"%string
           [(scene5_features, feature_based); (scene5_features, feature_based)]
           scene5_features feature_based).
  - vm_compute. reflexivity.
  - discriminate.
  - simpl. lia.
  - intros s [<-|[<-|[]]]; reflexivity.
  - vm_compute. reflexivity.
Defined.

(** ** The server: what holds after any sequence of requests *)

Lemma commit_cases (st st' : System) (u : string) (smp : list Sample) (t1 t2 : string)
    (out : Outcome) :
  commit st u smp t1 t2 = (out, st') -> st' = st \/ out = Returned true.
Proof.
  unfold commit. destruct smp as [|s smp]; [intros H; inversion H; auto|].
  cbv zeta.
  destruct (map fst (List.filter (fun s => Method_eqb (snd s) deep_learning) (s :: smp))).
  - destruct (map fst (List.filter (fun s => Method_eqb (snd s) feature_based) (s :: smp))).
    + intros H; inversion H; auto.
    + destruct (np_mean _); intros H; inversion H; auto.
  - destruct (np_mean _); intros H; inversion H; auto.
Qed.

Lemma register_user_outcomes (cv : Vision) (st st' : System) (u : string) (n : Z)
    (polls : list Poll) (t1 t2 : string) (out : Outcome) :
  register_user cv st u n polls t1 t2 = Some (out, st') ->
  st' = st \/
  (camera_available st = true /\
   exists avg m smp,
     st' = store_identity st u avg m smp t1 t2 /\
     Z.of_nat (length smp) = n /\ (m = deep_learning \/ m = feature_based)).
Proof.
  intros H. unfold register_user in H.
  destruct (camera_available st) eqn:Hcam; simpl in H; [|inversion H; auto].
  destruct (collect cv st n polls [] 0) as [[|smp]|] eqn:Hc;
    [inversion H; auto| |discriminate].
  inversion H as [Hcommit]. clear H.
  destruct (commit_cases _ _ _ _ _ _ _ Hcommit) as [->| ->]; [auto|].
  right. split; [reflexivity|].
  destruct (collect_invariant cv st n polls [] 0 smp) as (Hvalid & _ & _); auto.
  pose proof (collect_length cv st n polls [] 0 smp eq_refl ltac:(simpl; lia) Hc) as Hlen.
  destruct (commit_true st st' u smp t1 t2 Hvalid Hcommit) as (Hne & avg & _ & ->).
  exists avg, (preferred_method smp), smp. split; [reflexivity|]. split.
  - destruct smp; [contradiction|]. simpl length in Hlen |- *. lia.
  - unfold preferred_method.
    destruct (existsb (fun s => Method_eqb (snd s) deep_learning) smp); auto.
Qed.

Lemma server_invariant_later (faces0 : gmap string Identity) (camera : bool) (n : nat)
    (st : System) :
  server_invariant faces0 camera n st -> server_invariant faces0 camera (S n) st.
Proof.
  unfold server_invariant. intros (H1 & H2 & H3 & H4 & H5 & H6 & H7).
  repeat (split; [assumption || lia|]). assumption.
Qed.

Lemma server_invariant_log (faces0 : gmap string Identity) (camera : bool) (n : nat)
    (st : System) (t u a : string) (s : bool) (d : list (string * Value)) :
  server_invariant faces0 camera n st ->
  camera_available st = true ->
  served_entry (mkLogEntry t u a s d) ->
  server_invariant faces0 camera (S n) (log_verification st t u a s d).
Proof.
  unfold server_invariant. intros (H1 & H2 & H3 & H4 & H5 & H6 & H7) Hcam He.
  destruct (log_verification_frame st t u a s d) as (F1 & F2 & F3).
  rewrite F1, F2, F3, known_faces_log_verification, verification_logs_log_verification.
  split; [exact H1|]. split; [exact H2|]. split; [exact H3|].
  split; [apply Forall_app; split; [exact H4 | constructor 2; [exact He | constructor 1]]|].
  split; [rewrite length_app; simpl; lia|]. split; [exact H6|].
  intros Hc. rewrite <- H2, Hcam in Hc. discriminate.
Qed.

Lemma server_invariant_threshold (faces0 : gmap string Identity) (camera : bool) (n : nat)
    (st : System) (t : R) :
  server_invariant faces0 camera n st -> (1 / 10 <= t <= 1)%R ->
  server_invariant faces0 camera (S n) (set_threshold st t).
Proof.
  unfold server_invariant. intros (H1 & H2 & H3 & H4 & H5 & H6 & H7) Ht. cbn.
  split; [exact Ht|]. repeat (split; [assumption || lia|]). assumption.
Qed.

Lemma server_invariant_delete (faces0 : gmap string Identity) (camera : bool) (n : nat)
    (st : System) (u : string) :
  server_invariant faces0 camera n st ->
  server_invariant faces0 camera (S n)
    (save_data (set_known_faces st (delete u (known_faces st)))).
Proof.
  unfold server_invariant. intros (H1 & H2 & H3 & H4 & H5 & H6 & H7). cbn.
  assert (Hsub : forall v ident,
             delete u (known_faces st) !! v = Some ident -> known_faces st !! v = Some ident).
  { intros v ident Hv. apply lookup_delete_Some in Hv. tauto. }
  split; [exact H1|]. split; [exact H2|]. split; [intros v ident Hv; apply H3, Hsub, Hv|].
  split; [exact H4|]. split; [lia|]. split; [left; apply last_faces_write_snoc_faces|].
  intros Hc. destruct (H7 Hc) as (L & K). split; [exact L|].
  intros v ident Hv. apply K, Hsub, Hv.
Qed.

Lemma server_invariant_store (faces0 : gmap string Identity) (camera : bool) (n : nat)
    (st : System) (u : string) (avg : Encoding) (m : Method) (smp : list Sample)
    (t1 t2 : string) :
  server_invariant faces0 camera n st ->
  camera_available st = true ->
  u <> ""%string -> length smp = 3 -> m = deep_learning \/ m = feature_based ->
  server_invariant faces0 camera (S n) (store_identity st u avg m smp t1 t2).
Proof.
  intros Hinv Hcam Hu Hlen Hm.
  pose proof (store_identity_effects st u avg m smp t1 t2) as Heff. cbv zeta in Heff.
  destruct Heff as (Hlogs & Hthr & Hcam' & Hdisk).
  unfold server_invariant in *. destruct Hinv as (H1 & H2 & H3 & H4 & H5 & H6 & H7).
  rewrite Hlogs, Hthr, Hcam', Hdisk, known_faces_store_identity.
  split; [exact H1|]. split; [exact H2|]. split.
  { intros v ident Hv. apply lookup_insert_Some in Hv as [[<- <-]|[_ Hv]]; [|apply H3, Hv].
    right. unfold enrolled_by_server. cbn. auto. }
  split.
  { apply Forall_app. split; [exact H4|]. constructor 2; [|constructor 1].
    unfold served_entry. cbn. split; [exact Hu|]. left. rewrite Hlen. auto. }
  split; [rewrite length_app; simpl; lia|]. split; [left; reflexivity|].
  intros Hc. rewrite <- H2, Hcam in Hc. discriminate.
Qed.

Lemma verify_handler_state (cv : Vision) (st : System) (username : option string)
    (k : Z) (cam : nat -> option Image) (t : string) :
  snd (verify_handler cv st username k cam t) = st \/
  (camera_available st = true /\
   exists u b d,
     u <> ""%string /\
     snd (verify_handler cv st username k cam t)
     = log_verification st t u "verification" b d).
Proof.
  unfold verify_handler. destruct username as [u|]; cbn [no_username]; [|auto].
  destruct (String.eqb_spec u "") as [->|Hne]; [auto|].
  destruct (known_faces st !! u) as [ident|] eqn:Hk; [|auto].
  destruct (camera_available st) eqn:Hcam; cbn [negb]; [|auto].
  right. split; [reflexivity|].
  rewrite (verify_user_enrolled cv st u ident k cam t Hk Hcam).
  destruct (verify_attempts_shape cv st u ident k cam t (seq 0 (Z.to_nat k)))
    as (b & d & ->).
  exists u, b, d. split; [exact Hne | reflexivity].
Qed.

Lemma server_invariant_verify (faces0 : gmap string Identity) (camera : bool) (n : nat)
    (cv : Vision) (st : System) (username : option string) (k : Z)
    (cam : nat -> option Image) (t : string) :
  server_invariant faces0 camera n st ->
  server_invariant faces0 camera (S n) (snd (verify_handler cv st username k cam t)).
Proof.
  intros Hinv.
  destruct (verify_handler_state cv st username k cam t)
    as [-> | (Hcam & u & b & d & Hu & ->)].
  - apply server_invariant_later, Hinv.
  - apply server_invariant_log; [exact Hinv | exact Hcam|].
    unfold served_entry. cbn. auto.
Qed.

Lemma serve_preserves (faces0 : gmap string Identity) (camera : bool) (n : nat)
    (cv : Vision) (st st' : System) (req : Request) :
  server_invariant faces0 camera n st ->
  serve cv st req = Some st' ->
  server_invariant faces0 camera (S n) st'.
Proof.
  intros Hinv Hserve. destruct req as [username polls t1 t2|username cam t|username cam t
                                       |body|username]; simpl in Hserve.
  - unfold register_face in Hserve.
    destruct username as [u|]; cbn [no_username] in Hserve;
      [|inversion Hserve; subst; apply server_invariant_later, Hinv].
    destruct (String.eqb_spec u "") as [->|Hne];
      [inversion Hserve; subst; apply server_invariant_later, Hinv|].
    destruct (known_faces st !! u) as [ident|] eqn:Hk;
      [inversion Hserve; subst; apply server_invariant_later, Hinv|].
    destruct (camera_available st) eqn:Hcam; cbn [negb] in Hserve;
      [|inversion Hserve; subst; apply server_invariant_later, Hinv].
    destruct (register_user cv st u 3 polls t1 t2) as [[out st'']|] eqn:Hreg;
      [|discriminate].
    inversion Hserve; subst st''. clear Hserve.
    destruct (register_user_outcomes _ _ _ _ _ _ _ _ _ Hreg)
      as [-> | (_ & avg & m & smp & -> & Hlen & Hm)].
    + apply server_invariant_later, Hinv.
    + apply server_invariant_store; auto. lia.
  - inversion Hserve; subst. apply server_invariant_verify, Hinv.
  - inversion Hserve; subst. apply server_invariant_verify, Hinv.
  - inversion Hserve; subst. unfold update_threshold.
    destruct body as [t| | |]; try (apply server_invariant_later, Hinv).
    destruct (Rle_dec (1 / 10) t); [|apply server_invariant_later, Hinv].
    destruct (Rle_dec t 1); [|apply server_invariant_later, Hinv].
    apply server_invariant_threshold; [exact Hinv | split; assumption].
  - inversion Hserve; subst. unfold delete_user.
    destruct username as [u|]; cbn [no_username]; [|apply server_invariant_later, Hinv].
    destruct (String.eqb u ""); [apply server_invariant_later, Hinv|].
    destruct (known_faces st !! u); [|apply server_invariant_later, Hinv].
    apply server_invariant_delete, Hinv.
Qed.

Lemma serve_all_preserves (faces0 : gmap string Identity) (camera : bool) (cv : Vision)
    (reqs : list Request) :
  forall (n : nat) (st st' : System),
    server_invariant faces0 camera n st ->
    serve_all cv st reqs = Some st' ->
    server_invariant faces0 camera (n + length reqs) st'.
Proof.
  induction reqs as [|req rest IH]; intros n st st' Hinv Hrun; simpl in Hrun.
  - inversion Hrun; subst. rewrite Nat.add_0_r. exact Hinv.
  - destruct (serve cv st req) as [st1|] eqn:Hs; [|discriminate].
    simpl length. replace (n + S (length rest)) with (S n + length rest) by lia.
    apply (IH (S n) st1 st'); [|exact Hrun].
    eapply serve_preserves; eassumption.
Qed.

(** X22: whatever requests the server has served since it was started
    with threshold 0.55 and the identities it loaded, the threshold lies in
    [0.1, 1.0]; the camera flag is as at start; every identity in the store
    is one that was loaded or one enrolled under a non-empty name with 3
    samples and the tag 'deep_learning' or 'feature_based'; every audit
    entry carries a non-empty name and is a verification or a successful
    registration with 3 samples; there are at most as many audit entries as
    requests; the dictionary last handed to [pickle.dump] is the identity
    store (or nothing was dumped and the store is as loaded); and a server
    without camera never logs or enrolls anything. *)
Theorem server_state_invariant (cv : Vision) (camera : bool) (file : FacesFile)
    (reqs : list Request) (st : System) :
  let boot := snd (load_data (face_system camera) file) in
  serve_all cv boot reqs = Some st ->
  (1 / 10 <= threshold st <= 1)%R /\
  camera_available st = camera /\
  (forall u ident,
      known_faces st !! u = Some ident ->
      known_faces boot !! u = Some ident \/ enrolled_by_server u ident) /\
  Forall served_entry (verification_logs st) /\
  length (verification_logs st) <= length reqs /\
  (last_faces_write (disk_writes st) = Some (known_faces st) \/
   (last_faces_write (disk_writes st) = None /\ known_faces st = known_faces boot)) /\
  (camera = false ->
   verification_logs st = [] /\
   forall u ident, known_faces st !! u = Some ident -> known_faces boot !! u = Some ident).
Proof.
  cbv zeta. intros Hrun.
  apply (serve_all_preserves (known_faces (snd (load_data (face_system camera) file)))
           camera cv reqs 0 (snd (load_data (face_system camera) file)) st); [|exact Hrun].
  unfold server_invariant.
  assert (Hboot : threshold (snd (load_data (face_system camera) file)) = (55 / 100)%R /\
                  camera_available (snd (load_data (face_system camera) file)) = camera /\
                  verification_logs (snd (load_data (face_system camera) file)) = [] /\
                  disk_writes (snd (load_data (face_system camera) file)) = []).
  { destruct file; cbn; auto. }
  destruct Hboot as (-> & -> & -> & ->).
  split; [lra|]. split; [reflexivity|]. split; [auto|]. split; [constructor 1|].
  split; [simpl; lia|]. split; [right; split; reflexivity|]. auto.
Qed.

Lemma server_state_invariant_witness :
  (1 / 10 <= threshold session_end <= 1)%R.
Proof.
  apply (server_state_invariant studio true NoFile session session_end).
  vm_compute. reflexivity.
Defined.
